(** * Data-Science-Copilot-Analytics: the aggregation core of [data_utils.py]

    A shallow embedding of [DataProcessor] (src/src/data_utils.py) and the
    properties its specification states about it.

    Conventions of the embedding.
    - A pandas [DataFrame] is its list of rows together with the list of the
      column labels that exist; [df['x']] raises [KeyError] when the label is
      absent.  A field of a row is meaningful only under a present label.
    - The columns [revenue] and [qty] are int64 columns without missing
      values: their cells are integers, and [sum()], of a column or of the
      groups of a [groupby], wraps around as numpy's does ([isum]); a mean
      is taken in float64 and does not.  Facts about unwrapped sums are
      stated for tables whose sums stay within int64.  A [revenue] column
      of decimals, for which [.round(2)] is no longer the identity on the
      totals, is embedded apart ([decimal_totals], [decimal_shares]).
    - Of the dtypes, the frame records which text columns are of dtype
      object ([object_columns]), as [read_csv] infers it: a column that
      holds some text, or any column of a file without rows.  A row
      selection inherits it.  [.str] raises [AttributeError] on a text
      column that is not of dtype object.  A frame without rows stands for
      a file that holds only the header, whose numeric columns are of
      dtype object as well.
    - float64 values are [fval]: an exact rational, one of the two
      infinities, or NaN.  Arithmetic on finite values is exact; the IEEE
      rules for infinities and NaN are kept.  Signed zeros are not tracked.
      Rounding to decimals is exact and half-even, which on a tie can
      differ from numpy's rounding of the nearest float64; rounded figures
      are therefore stated by their distance to the exact value.
      Pearson's coefficient, which takes a square root, is over the reals.
    - Text cells are [option string] ([None] is NaN), of text that
      [read_csv] leaves as text: a column of numerals only would be read
      as numbers, and is outside the embedding.  Strings are byte strings
      and [lower] lowers the ASCII letters, so it is [str.lower] on ASCII
      text; what search finds is stated for ASCII text.
    - The date parser of [pd.to_datetime] and Python's [re] on patterns with
      metacharacters are parameters; pandas is read as of version 2.
    - Python exceptions are values of [exn]; a method is a function from the
      processor to a result and the processor afterwards.  The analyses are
      computations on the frame [self.df] refers to, in the same monad as
      [_clean_data], and the frame they leave is stored back.
    - Besides the analyses, the development covers the text of
      [get_data_context_for_llm] and the two sidebar handlers of
      src/src/app_streamlit.py that load a table into the processor. *)

From Stdlib Require Import ZArith QArith Qround Qabs List String Ascii Bool Lia.
From Stdlib Require Import Sorted Permutation.
From Stdlib Require Import Reals Qreals Psatz.
From Stdlib Require Import DecimalString.
Import ListNotations.

Local Open Scope string_scope.
Local Open Scope list_scope.
Local Open Scope Z_scope.

(** ** Exceptions and results *)

Inductive exn : Type :=
| KeyError (label : string)
| ValueError (msg : string)
| AttributeError (msg : string)
| DateParseError (text : string)
| ReError (pattern : string)
| ReadError (msg : string)
| PyTypeError (msg : string).

Inductive result (A : Type) : Type :=
| Ok (a : A)
| Raise (e : exn).
Arguments Ok {A} a.
Arguments Raise {A} e.

Definition bind {A B : Type} (r : result A) (k : A -> result B) : result B :=
  match r with
  | Ok a => k a
  | Raise e => Raise e
  end.

Notation "x <- c ;; k" := (bind c (fun x => k))
  (at level 61, c at next level, right associativity).

Definition returns {A : Type} (r : result A) : Prop :=
  exists a, r = Ok a.

(** ** float64 as exact rationals with infinities and NaN *)

Inductive fval : Type :=
| Fin (q : Q)
| PInf
| NInf
| NaN.

Definition fin (q : Q) : fval := Fin (Qred q).

Definition of_int (z : Z) : fval := Fin (inject_Z z).

Definition isnan (x : fval) : bool :=
  match x with NaN => true | _ => false end.

Definition notna (x : fval) : bool := negb (isnan x).

Definition isfinite (x : fval) : bool :=
  match x with Fin _ => true | _ => false end.

Definition fneg (x : fval) : fval :=
  match x with
  | Fin q => fin (- q)
  | PInf => NInf
  | NInf => PInf
  | NaN => NaN
  end.

Definition fadd (x y : fval) : fval :=
  match x, y with
  | NaN, _ | _, NaN => NaN
  | Fin a, Fin b => fin (a + b)
  | PInf, NInf | NInf, PInf => NaN
  | PInf, _ | _, PInf => PInf
  | NInf, _ | _, NInf => NInf
  end.

Definition fsub (x y : fval) : fval := fadd x (fneg y).

(** An infinity or a zero divisor takes its sign from the other operand. *)
Definition signed_inf (q : Q) (pos : fval) (neg : fval) : fval :=
  match (q ?= 0)%Q with
  | Gt => pos
  | Lt => neg
  | Eq => NaN
  end.

Definition fmul (x y : fval) : fval :=
  match x, y with
  | NaN, _ | _, NaN => NaN
  | Fin a, Fin b => fin (a * b)
  | Fin a, PInf | PInf, Fin a => signed_inf a PInf NInf
  | Fin a, NInf | NInf, Fin a => signed_inf a NInf PInf
  | PInf, PInf | NInf, NInf => PInf
  | PInf, NInf | NInf, PInf => NaN
  end.

Definition fdiv (x y : fval) : fval :=
  match x, y with
  | NaN, _ | _, NaN => NaN
  | Fin a, Fin b =>
      if Qeq_bool b 0 then signed_inf a PInf NInf else fin (a / b)
  | Fin _, PInf | Fin _, NInf => Fin 0
  | PInf, Fin b => if Qle_bool 0 b then PInf else NInf
  | NInf, Fin b => if Qle_bool 0 b then NInf else PInf
  | _, _ => NaN
  end.

(** [int / int] of two integer columns: true division. *)
Definition truediv (a b : Z) : fval := fdiv (of_int a) (of_int b).

(** Comparisons are false as soon as one side is NaN. *)
Definition flt (x y : fval) : bool :=
  match x, y with
  | NaN, _ | _, NaN => false
  | Fin a, Fin b => negb (Qle_bool b a)
  | NInf, NInf | PInf, _ => false
  | NInf, _ => true
  | Fin _, PInf => true
  | Fin _, NInf => false
  end.

Definition fgt (x y : fval) : bool := flt y x.

(** [numpy.round]: round half to even on the scaled value. *)
Definition round_half_even (q : Q) : Z :=
  let f := Qfloor q in
  match ((q - inject_Z f) ?= (1 # 2))%Q with
  | Lt => f
  | Gt => f + 1
  | Eq => if Z.even f then f else f + 1
  end.

Definition qround (decimals : nat) (q : Q) : Q :=
  let scale := inject_Z (10 ^ Z.of_nat decimals) in
  Qred (inject_Z (round_half_even (q * scale)) / scale).

Definition fround (decimals : nat) (x : fval) : fval :=
  match x with
  | Fin q => Fin (qround decimals q)
  | other => other
  end.

(** ** Reductions over columns *)

Definition zsum (l : list Z) : Z := fold_right Z.add 0 l.

Definition qsum (l : list Q) : Q := fold_right Qplus 0%Q l.

(** An int64 value: numpy's integer arithmetic wraps around. *)
Definition int64 (z : Z) : Z := (z + 2 ^ 63) mod 2 ^ 64 - 2 ^ 63.

(** [Series.sum()] and [groupby(...).sum()] of an int64 column. *)
Definition isum (l : list Z) : Z := int64 (zsum l).

(** [Series.mean] of an integer column, which is summed as float64; NaN
    when the column is empty. *)
Definition zmean (l : list Z) : fval :=
  truediv (zsum l) (Z.of_nat (List.length l)).

(** Float reductions skip NaN ([skipna=True]). *)
Definition fsum (l : list fval) : fval :=
  fold_left fadd (filter notna l) (Fin 0).

Definition fcount (l : list fval) : Z :=
  Z.of_nat (List.length (filter notna l)).

Definition fmean (l : list fval) : fval :=
  if fcount l =? 0 then NaN else fdiv (fsum l) (of_int (fcount l)).

(** Insertion into an ascending list: the sort behind [quantile],
    [nlargest] and [nsmallest].  Equal elements keep their order. *)
Section Sorting.
Context {A : Type} (leb : A -> A -> bool).

Fixpoint insert_sorted (a : A) (l : list A) : list A :=
  match l with
  | [] => [a]
  | b :: rest =>
      if leb b a then b :: insert_sorted a rest else a :: l
  end.

Definition stable_sort (l : list A) : list A :=
  fold_left (fun acc a => insert_sorted a acc) l [].
End Sorting.

Definition fleb (x y : fval) : bool := negb (flt y x).

(** The linear interpolation of [numpy.percentile]: [a + (b - a) * t],
    computed from the other end, [b - (b - a) * (1 - t)], once [t] reaches
    one half. *)
Definition lerp (a b : fval) (t : Q) : fval :=
  if Qle_bool (1 # 2) t
  then fsub b (fmul (fsub b a) (fin (1 - t)))
  else fadd a (fmul (fsub b a) (fin t)).

(** [Series.quantile(p)] with linear interpolation over the values that are
    not NaN; NaN for an empty column. *)
Definition fquantile (p : Q) (l : list fval) : fval :=
  let s := stable_sort fleb (filter notna l) in
  match s with
  | [] => NaN
  | _ =>
      let pos := (inject_Z (Z.of_nat (List.length s) - 1) * p)%Q in
      let lo := Qfloor pos in
      let a := nth (Z.to_nat lo) s NaN in
      let b := nth (Z.to_nat (lo + 1)) s a in
      lerp a b (pos - inject_Z lo)
  end.

Definition zquantile (p : Q) (l : list Z) : fval :=
  fquantile p (map of_int l).

Definition fmin (l : list fval) : fval :=
  match stable_sort fleb (filter notna l) with
  | [] => NaN
  | a :: _ => a
  end.

Definition fmax (l : list fval) : fval :=
  last (stable_sort fleb (filter notna l)) NaN.

(** Sample variance ([ddof=1]); [Series.std] is its square root. *)
Definition fvar (l : list fval) : fval :=
  let xs := filter notna l in
  let m := fmean xs in
  let sq := map (fun x => fmul (fsub x m) (fsub x m)) xs in
  fdiv (fold_left fadd sq (Fin 0)) (of_int (fcount xs - 1)).

(** ** Text *)

Definition lower_ascii (c : ascii) : ascii :=
  let n := nat_of_ascii c in
  if andb (Nat.leb 65 n) (Nat.leb n 90) then ascii_of_nat (n + 32) else c.

(** [str.lower] on ASCII text. *)
Fixpoint lower (s : string) : string :=
  match s with
  | EmptyString => EmptyString
  | String c rest => String (lower_ascii c) (lower rest)
  end.

(** [pat in s]: [pat] occurs in [s] as a contiguous substring. *)
Fixpoint contains (pat s : string) : bool :=
  if prefix pat s then true
  else match s with
       | EmptyString => false
       | String _ rest => contains pat rest
       end.

Fixpoint string_exists (p : ascii -> bool) (s : string) : bool :=
  match s with
  | EmptyString => false
  | String c rest => orb (p c) (string_exists p rest)
  end.

(** The characters Python's [re] gives a meaning of their own. *)
Definition is_meta (c : ascii) : bool :=
  string_exists (Ascii.eqb c) ".^$*+?{}[]\|()".

Definition is_literal (pat : string) : bool :=
  negb (string_exists is_meta pat).

(** ** Calendar dates *)

Record Timestamp : Type := mkdate { d_year : Z; d_month : Z; d_day : Z }.

Definition date_compare (a b : Timestamp) : comparison :=
  match d_year a ?= d_year b with
  | Eq => match d_month a ?= d_month b with
          | Eq => d_day a ?= d_day b
          | c => c
          end
  | c => c
  end.

Definition date_lt (a b : Timestamp) : Prop := date_compare a b = Lt.

(** Days since 1970-01-01 in the proleptic Gregorian calendar. *)
Definition days_from_civil (d : Timestamp) : Z :=
  let y := if d_month d <=? 2 then d_year d - 1 else d_year d in
  let era := y / 400 in
  let yoe := y - era * 400 in
  let mp := if d_month d >? 2 then d_month d - 3 else d_month d + 9 in
  let doy := (153 * mp + 2) / 5 + d_day d - 1 in
  let doe := yoe * 365 + yoe / 4 - yoe / 100 + doy in
  era * 146097 + doe - 719468.

(** Monday is 0. *)
Definition weekday (d : Timestamp) : Z := (days_from_civil d + 3) mod 7.

Definition day_names : list string :=
  ["Monday"; "Tuesday"; "Wednesday"; "Thursday"; "Friday"; "Saturday";
   "Sunday"].

(** [Series.dt.day_name()] *)
Definition day_name (d : Timestamp) : string :=
  nth (Z.to_nat (weekday d)) day_names "".

Definition is_leap (y : Z) : bool :=
  andb (y mod 4 =? 0) (orb (negb (y mod 100 =? 0)) (y mod 400 =? 0)).

(** An ISO year has 53 weeks when 1 January is a Thursday, or a Wednesday
    in a leap year. *)
Definition iso_weeks_in_year (y : Z) : Z :=
  let jan1 := weekday (mkdate y 1 1) in
  if orb (jan1 =? 3) (andb (jan1 =? 2) (is_leap y)) then 53 else 52.

(** [Series.dt.isocalendar().week] *)
Definition iso_week (d : Timestamp) : Z :=
  let ordinal :=
    days_from_civil d - days_from_civil (mkdate (d_year d) 1 1) + 1 in
  let w := (ordinal - (weekday d + 1) + 10) / 7 in
  if w <? 1 then iso_weeks_in_year (d_year d - 1)
  else if w >? iso_weeks_in_year (d_year d) then 1
  else w.

(** A cell of the [date] column: text as [read_csv] leaves it, a timestamp
    after [pd.to_datetime], or missing (NaN before, NaT after). *)
Inductive datecell : Type :=
| DText (s : string)
| DStamp (d : Timestamp)
| DMissing.

(** The order [groupby] sorts date keys by.  [pd.to_datetime] leaves no
    text cell behind, so a column never mixes the two kinds. *)
Definition datecell_compare (a b : datecell) : comparison :=
  match a, b with
  | DStamp x, DStamp y => date_compare x y
  | DText x, DText y => String.compare x y
  | DText _, DStamp _ => Lt
  | DStamp _, DText _ => Gt
  | DMissing, DMissing => Eq
  | DMissing, _ => Gt
  | _, DMissing => Lt
  end.

(** ** Data frames *)

Record Row : Type := mkRow {
  date : datecell;
  store : option string;
  menu_item : option string;
  revenue : Z;
  qty : Z;
  customer_segment : option string;
  is_outlier : bool;
  avg_price : fval;
  month : option Z;
  day_of_week : option string;
  week : option Z
}.

(** A frame: its column labels, its rows, and those of its text columns
    that have dtype object.  [read_csv] gives a text column dtype object
    when it holds a string or the file has no rows, and float64 when every
    cell of the column is empty; a selection of rows keeps the dtypes. *)
Record DataFrame : Type := mkFrame {
  columns : list string;
  rows : list Row;
  object_columns : list string
}.

Definition has_column (f : DataFrame) (label : string) : bool :=
  existsb (String.eqb label) (columns f).

Definition is_object (f : DataFrame) (label : string) : bool :=
  existsb (String.eqb label) (object_columns f).

Definition add_label (labels : list string) (label : string) : list string :=
  if existsb (String.eqb label) labels then labels else labels ++ [label].

(** [df[label]] *)
Definition getitem {A : Type} (f : DataFrame) (label : string)
    (field : Row -> A) : result (list A) :=
  if has_column f label then Ok (map field (rows f))
  else Raise (KeyError label).

(** [df[label] = values]: the label is appended when it is new. *)
Definition setitem {A : Type} (f : DataFrame) (label : string)
    (update : Row -> A -> Row) (values : list A) : DataFrame :=
  {| columns := add_label (columns f) label;
     rows := map (fun ra => update (fst ra) (snd ra))
                 (combine (rows f) values);
     object_columns := object_columns f |}.

(** [pd.DataFrame()] *)
Definition empty_frame : DataFrame :=
  {| columns := []; rows := []; object_columns := [] |}.

Definition set_date (r : Row) (v : datecell) : Row :=
  mkRow v (store r) (menu_item r) (revenue r) (qty r) (customer_segment r)
        (is_outlier r) (avg_price r) (month r) (day_of_week r) (week r).
Definition set_is_outlier (r : Row) (v : bool) : Row :=
  mkRow (date r) (store r) (menu_item r) (revenue r) (qty r)
        (customer_segment r) v (avg_price r) (month r) (day_of_week r)
        (week r).
Definition set_avg_price (r : Row) (v : fval) : Row :=
  mkRow (date r) (store r) (menu_item r) (revenue r) (qty r)
        (customer_segment r) (is_outlier r) v (month r) (day_of_week r)
        (week r).
Definition set_month (r : Row) (v : option Z) : Row :=
  mkRow (date r) (store r) (menu_item r) (revenue r) (qty r)
        (customer_segment r) (is_outlier r) (avg_price r) v (day_of_week r)
        (week r).
Definition set_day_of_week (r : Row) (v : option string) : Row :=
  mkRow (date r) (store r) (menu_item r) (revenue r) (qty r)
        (customer_segment r) (is_outlier r) (avg_price r) (month r) v
        (week r).
Definition set_week (r : Row) (v : option Z) : Row :=
  mkRow (date r) (store r) (menu_item r) (revenue r) (qty r)
        (customer_segment r) (is_outlier r) (avg_price r) (month r)
        (day_of_week r) v.

(** ** groupby

    [df.groupby(key)]: rows whose key is missing are dropped, the groups
    come out in ascending key order and each keeps its rows in table
    order. *)
Section GroupBy.
Context {K A : Type} (cmp : K -> K -> comparison).

Fixpoint insert_group (k : K) (a : A) (gs : list (K * list A))
    : list (K * list A) :=
  match gs with
  | [] => [(k, [a])]
  | (k', g) :: rest =>
      match cmp k k' with
      | Eq => (k', g ++ [a]) :: rest
      | Lt => (k, [a]) :: gs
      | Gt => (k', g) :: insert_group k a rest
      end
  end.

Definition groupby (key : A -> option K) (l : list A)
    : list (K * list A) :=
  fold_left (fun gs a => match key a with
                         | Some k => insert_group k a gs
                         | None => gs
                         end) l [].
End GroupBy.

Definition some_date (c : datecell) : option datecell :=
  match c with
  | DMissing => None
  | other => Some other
  end.

(** [Series.unique()]: first occurrences, in order of appearance. *)
Fixpoint unique {A : Type} (eqb : A -> A -> bool) (l : list A) : list A :=
  match l with
  | [] => []
  | a :: rest => a :: filter (fun b => negb (eqb a b)) (unique eqb rest)
  end.

Definition option_eqb {A : Type} (eqb : A -> A -> bool) (x y : option A)
    : bool :=
  match x, y with
  | Some a, Some b => eqb a b
  | None, None => true
  | _, _ => false
  end.

Fixpoint somes {A : Type} (l : list (option A)) : list A :=
  match l with
  | [] => []
  | Some a :: rest => a :: somes rest
  | None :: rest => somes rest
  end.

(** [Series.nunique()]: distinct values, missing ones not counted. *)
Definition nunique {A : Type} (eqb : A -> A -> bool) (l : list (option A))
    : Z :=
  Z.of_nat (List.length (unique eqb (somes l))).

Definition datecell_eqb (a b : datecell) : bool :=
  match datecell_compare a b with Eq => true | _ => false end.

(** [nlargest(n)] and [nsmallest(n)] with [keep='first']. *)
Definition nlargest {A : Type} (n : nat) (score : A -> Z) (l : list A)
    : list A :=
  firstn n (stable_sort (fun a b => score b <=? score a) l).

Definition nsmallest {A : Type} (n : nat) (score : A -> Z) (l : list A)
    : list A :=
  firstn n (stable_sort (fun a b => score a <=? score b) l).

(** ** Methods: a result and the object afterwards *)

Definition M (S A : Type) : Type := S -> result A * S.

Definition mret {S A : Type} (a : A) : M S A := fun s => (Ok a, s).

Definition mbind {S A B : Type} (m : M S A) (k : A -> M S B) : M S B :=
  fun s => match m s with
           | (Ok a, s') => k a s'
           | (Raise e, s') => (Raise e, s')
           end.

Definition lift {S A : Type} (r : result A) : M S A := fun s => (r, s).

Notation "x <~ c ;; k" := (mbind c (fun x => k))
  (at level 61, c at next level, right associativity).
Notation "c ;;; k" := (mbind c (fun _ => k))
  (at level 61, right associativity).

(** A dict result: [{}] or a dict with the keys of [A]. *)
Inductive pydict (A : Type) : Type :=
| EmptyDict
| Dict (a : A).
Arguments EmptyDict {A}.
Arguments Dict {A} a.

(** The two ends of [date_range], before [strftime] prints them. *)
Record DateRange : Type := { dr_start : Timestamp; dr_end : Timestamp }.

Record Summary : Type := {
  total_records : Z;
  date_range : DateRange;
  total_revenue : Z;
  total_qty_sold : Z;
  avg_transaction_value : fval;
  stores : list (option string);
  customer_segments : list (option string);
  unique_menu_items : Z;
  top_selling_items : list (string * Z);
  revenue_by_store : list (string * Z);
  revenue_by_segment : list (string * Z)
}.

Record DataProcessor : Type := {
  df : option DataFrame;
  data_summary : pydict Summary
}.

(** [DataProcessor.__init__] *)
Definition init : DataProcessor := {| df := None; data_summary := EmptyDict |}.

(** [Series.dt]: only for a datetime column. *)
Fixpoint dt (cells : list datecell) : result (list (option Timestamp)) :=
  match cells with
  | [] => Ok []
  | DText _ :: _ =>
      Raise (AttributeError
               "Can only use .dt accessor with datetimelike values")
  | DStamp d :: rest => ds <- dt rest ;; Ok (Some d :: ds)
  | DMissing :: rest => ds <- dt rest ;; Ok (None :: ds)
  end.

(** [groupby(key)[value].sum()] *)
Definition group_sums (key : Row -> option string) (value : Row -> Z)
    (l : list Row) : list (string * Z) :=
  map (fun kg => (fst kg, isum (map value (snd kg))))
      (groupby String.compare key l).

Fixpoint date_min (l : list Timestamp) : option Timestamp :=
  match l with
  | [] => None
  | d :: rest =>
      match date_min rest with
      | None => Some d
      | Some m => Some (match date_compare d m with Gt => m | _ => d end)
      end
  end.

Fixpoint date_max (l : list Timestamp) : option Timestamp :=
  match l with
  | [] => None
  | d :: rest =>
      match date_max rest with
      | None => Some d
      | Some m => Some (match date_compare d m with Lt => m | _ => d end)
      end
  end.

(** [Series.min().strftime(...)] (and [max]) on the date column: text has
    no [strftime], and NaT refuses it. *)
Definition date_bound (pick : list Timestamp -> option Timestamp)
    (cells : list datecell) : result Timestamp :=
  if existsb (fun c => match c with DText _ => true | _ => false end) cells
  then Raise (AttributeError "'str' object has no attribute 'strftime'")
  else match pick (somes (map (fun c => match c with
                                         | DStamp d => Some d
                                         | _ => None
                                         end) cells)) with
       | Some d => Ok d
       | None => Raise (ValueError "NaTType does not support strftime")
       end.

(** ** What the analyses return *)

Record DailyTrend : Type := {
  daily_date : datecell; daily_revenue : Z; daily_qty : Z }.

Record MonthlyTrend : Type := {
  monthly_month : Z; monthly_revenue : Z; monthly_qty : Z }.

Record WeeklyPattern : Type := {
  weekly_day_of_week : string; weekly_revenue : fval; weekly_qty : fval }.

Record SalesTrends : Type := {
  daily_trends : list DailyTrend;
  monthly_trends : list MonthlyTrend;
  weekly_patterns : list WeeklyPattern
}.

Record MenuPerformance : Type := {
  mp_menu_item : string;
  mp_total_revenue : Z;
  mp_avg_revenue : fval;
  mp_frequency : Z;
  mp_total_qty : Z;
  mp_avg_price : fval;
  mp_revenue_per_order : fval;
  mp_popularity_score : fval;
  mp_performance_category : string
}.

Record MenuBrief : Type := {
  mb_menu_item : string; mb_total_revenue : Z; mb_total_qty : Z }.

Record MenuAnalysis : Type := {
  menu_performance : list MenuPerformance;
  top_performers : list MenuBrief;
  low_performers : list MenuBrief
}.

Record SegmentPerformance : Type := {
  sp_customer_segment : string;
  sp_total_revenue : Z;
  sp_avg_revenue_per_transaction : fval;
  sp_transaction_count : Z;
  sp_total_qty : Z;
  sp_avg_qty_per_transaction : fval;
  sp_avg_price_per_item : fval;
  sp_revenue_share : fval;
  sp_customer_value : fval
}.

(** One row of [describe()].  The standard deviation is kept as its square,
    the sample variance, which is rational. *)
Record Describe : Type := {
  d_count : Z;
  d_mean : fval;
  d_std_squared : fval;
  d_min : fval;
  d_25 : fval;
  d_50 : fval;
  d_75 : fval;
  d_max : fval
}.

(** [segment_comparison] is [describe().to_dict()]: a dict keyed by
    statistic, kept here as its keys and, segment by segment, the values
    under them. *)
Record SegmentAnalysis : Type := {
  segment_performance : list SegmentPerformance;
  comparison_statistics : list string;
  segment_comparison : list (string * Describe)
}.

Record StorePerformance : Type := {
  st_store : string;
  st_total_revenue : Z;
  st_avg_revenue_per_transaction : fval;
  st_transaction_count : Z;
  st_total_qty_sold : Z;
  st_avg_qty_per_transaction : fval;
  st_menu_variety : Z;
  st_revenue_per_day : fval;
  st_efficiency_score : fval
}.

Record StoreAnalysis : Type := {
  store_performance : list StorePerformance;
  store_popular_items : list (option string * list (string * Z))
}.

(** A correlation coefficient: a real number or NaN.  Pearson's formula
    takes a square root, so this one analysis is stated over the reals. *)
Inductive rval : Type :=
| RFin (r : R)
| RNaN.

Record CorrelationInsights : Type := {
  price_qty_correlation : rval;
  price_revenue_correlation : rval;
  qty_revenue_correlation : rval
}.

Record CorrelationAnalysis : Type := {
  correlation_matrix : list (string * list (string * rval));
  insights : CorrelationInsights
}.

(** [Series.describe()] of a float column *)
Definition describe (l : list fval) : Describe :=
  {| d_count := fcount l;
     d_mean := fmean l;
     d_std_squared := fvar l;
     d_min := fmin l;
     d_25 := fquantile (1 # 4) l;
     d_50 := fquantile (1 # 2) l;
     d_75 := fquantile (3 # 4) l;
     d_max := fmax l |}.

(** *** Pearson correlation *)

Definition to_real (x : fval) : option R :=
  match x with
  | Fin q => Some (Q2R q)
  | _ => None
  end.

(** The observations two columns share: the rows where both are finite. *)
Fixpoint complete_pairs (xs ys : list (option R)) : list (R * R) :=
  match xs, ys with
  | Some x :: xs', Some y :: ys' => (x, y) :: complete_pairs xs' ys'
  | _ :: xs', _ :: ys' => complete_pairs xs' ys'
  | _, _ => []
  end.

Definition rsum (l : list R) : R := fold_right Rplus 0%R l.

Definition rmean (l : list R) : R := (rsum l / INR (List.length l))%R.

(** Sum of products of deviations from the means. *)
Definition codeviation (ps : list (R * R)) : R :=
  let mx := rmean (map fst ps) in
  let my := rmean (map snd ps) in
  rsum (map (fun p => ((fst p - mx) * (snd p - my))%R) ps).

Definition swap {A B : Type} (p : A * B) : B * A := (snd p, fst p).
Definition diag_fst {A B : Type} (p : A * B) : A * A := (fst p, fst p).
Definition diag_snd {A B : Type} (p : A * B) : B * B := (snd p, snd p).

Definition pearson (ps : list (R * R)) : rval :=
  match ps with
  | [] => RNaN
  | _ =>
      let divisor :=
        sqrt (codeviation (map diag_fst ps) * codeviation (map diag_snd ps)) in
      if Req_dec_T divisor 0%R then RNaN
      else RFin (codeviation ps / divisor)
  end.

Definition R_round_half_even (x : R) : Z :=
  let f := Zfloor x in
  if Rlt_dec (x - IZR f) (1 / 2) then f
  else if Rlt_dec (1 / 2) (x - IZR f) then f + 1
  else if Z.even f then f else f + 1.

Definition rround (decimals : nat) (x : rval) : rval :=
  match x with
  | RFin r =>
      let scale := IZR (10 ^ Z.of_nat decimals) in
      RFin (IZR (R_round_half_even (r * scale)) / scale)
  | RNaN => RNaN
  end.

(** [DataFrame.corr()]: the outer dict is keyed by column, the inner one
    by row. *)
Definition corr (cols : list (string * list (option R)))
    : list (string * list (string * rval)) :=
  map (fun c =>
         (fst c,
          map (fun r => (fst r, pearson (complete_pairs (snd r) (snd c))))
              cols))
      cols.

Definition assoc {A : Type} (default : A) (k : string)
    (l : list (string * A)) : A :=
  match find (fun kv => String.eqb k (fst kv)) l with
  | Some kv => snd kv
  | None => default
  end.

(** [matrix.loc[row, col]] *)
Definition loc (m : list (string * list (string * rval))) (row col : string)
    : rval :=
  assoc RNaN row (assoc [] col m).

Section Processor.

(** The cell parser of [pd.to_datetime]: [None] when the text is not a
    date. *)
Variable parse_date : string -> option Timestamp.

(** Python's [re] on a pattern that holds a metacharacter: [None] when
    the pattern does not compile, else the predicate [re.search]
    decides. *)
Variable re_search : string -> option (string -> bool).

(** [pd.to_datetime(column)]: one cell that does not parse fails the
    whole conversion. *)
Fixpoint to_datetime (cells : list datecell) : result (list datecell) :=
  match cells with
  | [] => Ok []
  | DText s :: rest =>
      match parse_date s with
      | Some d => ds <- to_datetime rest ;; Ok (DStamp d :: ds)
      | None => Raise (DateParseError s)
      end
  | c :: rest => ds <- to_datetime rest ;; Ok (c :: ds)
  end.

Definition get {A : Type} (label : string) (field : Row -> A)
    : M DataFrame (list A) :=
  fun f => (getitem f label field, f).

Definition set {A : Type} (label : string) (update : Row -> A -> Row)
    (values : list A) : M DataFrame unit :=
  fun f => (Ok tt, setitem f label update values).

(** The body of [_clean_data], on the frame [self.df] refers to: every
    assignment is made in place, so what was assigned before an exception
    stays assigned. *)
Definition clean_frame : M DataFrame unit :=
  dates <~ get "date" date ;;
  stamps <~ lift (to_datetime dates) ;;
  set "date" set_date stamps ;;;
  rev <~ get "revenue" revenue ;;
  let Q1 := zquantile (1 # 4) rev in
  let Q3 := zquantile (3 # 4) rev in
  let IQR := fsub Q3 Q1 in
  let lower_bound := fsub Q1 (fmul (Fin (3 # 2)) IQR) in
  let upper_bound := fadd Q3 (fmul (Fin (3 # 2)) IQR) in
  set "is_outlier" set_is_outlier
      (map (fun r => orb (flt (of_int r) lower_bound)
                         (fgt (of_int r) upper_bound)) rev) ;;;
  rev <~ get "revenue" revenue ;;
  q <~ get "qty" qty ;;
  set "avg_price" set_avg_price
      (map (fun rq => truediv (fst rq) (snd rq)) (combine rev q)) ;;;
  dates <~ get "date" date ;;
  ds <~ lift (dt dates) ;;
  set "month" set_month (map (option_map d_month) ds) ;;;
  dates <~ get "date" date ;;
  ds <~ lift (dt dates) ;;
  set "day_of_week" set_day_of_week (map (option_map day_name) ds) ;;;
  dates <~ get "date" date ;;
  ds <~ lift (dt dates) ;;
  set "week" set_week (map (option_map iso_week) ds).

Definition _clean_data : M DataProcessor unit :=
  fun self =>
    match df self with
    | None => (Ok tt, self)
    | Some f =>
        let (r, f') := clean_frame f in
        (r, {| df := Some f'; data_summary := data_summary self |})
    end.

(** The dict [_generate_summary] builds, entry by entry. *)
Definition summarize (f : DataFrame) : result Summary :=
  let n := Z.of_nat (List.length (rows f)) in
  dates <- getitem f "date" date ;;
  start <- date_bound date_min dates ;;
  dates <- getitem f "date" date ;;
  end_ <- date_bound date_max dates ;;
  rev <- getitem f "revenue" revenue ;;
  q <- getitem f "qty" qty ;;
  rev' <- getitem f "revenue" revenue ;;
  st <- getitem f "store" store ;;
  seg <- getitem f "customer_segment" customer_segment ;;
  items <- getitem f "menu_item" menu_item ;;
  _ <- getitem f "menu_item" menu_item ;;
  _ <- getitem f "qty" qty ;;
  _ <- getitem f "store" store ;;
  _ <- getitem f "revenue" revenue ;;
  _ <- getitem f "customer_segment" customer_segment ;;
  _ <- getitem f "revenue" revenue ;;
  Ok {| total_records := n;
        date_range := {| dr_start := start; dr_end := end_ |};
        total_revenue := isum rev;
        total_qty_sold := isum q;
        avg_transaction_value := zmean rev';
        stores := unique (option_eqb String.eqb) st;
        customer_segments := unique (option_eqb String.eqb) seg;
        unique_menu_items := nunique String.eqb items;
        top_selling_items :=
          nlargest 5 snd (group_sums menu_item qty (rows f));
        revenue_by_store := group_sums store revenue (rows f);
        revenue_by_segment :=
          group_sums customer_segment revenue (rows f) |}.

(** [data_summary] is assigned once the whole dict is built. *)
Definition _generate_summary : M DataProcessor unit :=
  fun self =>
    match df self with
    | None => (Ok tt, self)
    | Some f =>
        match summarize f with
        | Ok s => (Ok tt, {| df := df self; data_summary := Dict s |})
        | Raise e => (Raise e, self)
        end
    end.

(** [load_dataset], given what [pd.read_csv(file_path)] does: [self.df]
    is assigned before the table is cleaned, and the handler re-raises. *)
Definition load_dataset (read_csv : result DataFrame)
    : M DataProcessor (option DataFrame) :=
  fun self =>
    match read_csv with
    | Raise e => (Raise e, self)
    | Ok raw =>
        let self1 := {| df := Some raw; data_summary := data_summary self |} in
        (_clean_data ;;;
         _generate_summary ;;;
         fun self' => (Ok (df self'), self')) self1
    end.

(** [self.df] as a whole, as [groupby] and the row selections read it. *)
Definition table : M DataFrame (list Row) := fun f => (Ok (rows f), f).

(** A method that returns [{}] when no table is loaded and otherwise runs
    its body on the frame [self.df] refers to: whatever the body does to
    that frame is done to the processor's table. *)
Definition analysing {A : Type} (body : M DataFrame A)
    : M DataProcessor (pydict A) :=
  fun self =>
    match df self with
    | None => (Ok EmptyDict, self)
    | Some f =>
        let (r, f') := body f in
        (a <- r ;; Ok (Dict a),
         {| df := Some f'; data_summary := data_summary self |})
    end.

Definition daily_sales (l : list Row) : list DailyTrend :=
  map (fun kg => {| daily_date := fst kg;
                    daily_revenue := isum (map revenue (snd kg));
                    daily_qty := isum (map qty (snd kg)) |})
      (groupby datecell_compare (fun r => some_date (date r)) l).

Definition monthly_sales (l : list Row) : list MonthlyTrend :=
  map (fun kg => {| monthly_month := fst kg;
                    monthly_revenue := isum (map revenue (snd kg));
                    monthly_qty := isum (map qty (snd kg)) |})
      (groupby Z.compare month l).

Definition weekly_pattern (l : list Row) : list WeeklyPattern :=
  map (fun kg => {| weekly_day_of_week := fst kg;
                    weekly_revenue := zmean (map revenue (snd kg));
                    weekly_qty := zmean (map qty (snd kg)) |})
      (groupby String.compare day_of_week l).

(** The body of [get_sales_trends]. *)
Definition sales_trends_body : M DataFrame SalesTrends :=
  _ <~ get "date" date ;;
  _ <~ get "revenue" revenue ;;
  _ <~ get "qty" qty ;;
  _ <~ get "month" month ;;
  _ <~ get "day_of_week" day_of_week ;;
  l <~ table ;;
  mret {| daily_trends := daily_sales l;
          monthly_trends := monthly_sales l;
          weekly_patterns := weekly_pattern l |}.

(** What [get_sales_trends] returns for the table [f]. *)
Definition sales_trends (f : DataFrame) : result SalesTrends :=
  fst (sales_trends_body f).

Definition get_sales_trends : M DataProcessor (pydict SalesTrends) :=
  analysing sales_trends_body.

(** [Series.max()] of an integer column; NaN when it is empty. *)
Definition zmax (l : list Z) : fval := fmax (map of_int l).

(** [categorize_performance(row)], given [row['total_revenue']]. *)
Definition categorize_performance (totals : list Z) (total : fval) : string :=
  if fgt total (zquantile (4 # 5) totals) then "High Performer"
  else if flt total (zquantile (1 # 5) totals) then "Low Performer"
  else "Average".

(** [frame.apply(f, axis=1)]: one value per row.  On a frame without rows
    pandas (1.5 and later) calls [f] once, on a row of NaN, to learn what it
    returns: [categorize_performance] answers ["Average"] for it without
    raising, and the result is a column without rows. *)
Definition apply_axis1 {A B : Type} (f : A -> B) (frame : list A) : list B :=
  map f frame.

Definition menu_groups (l : list Row) : list (string * list Row) :=
  groupby String.compare menu_item l.

Definition menu_row (max_frequency : fval) (kgc : string * list Row * string)
    : MenuPerformance :=
  let g := snd (fst kgc) in
  let total := isum (map revenue g) in
  let frequency := Z.of_nat (List.length g) in
  {| mp_menu_item := fst (fst kgc);
     mp_total_revenue := total;
     mp_avg_revenue := fround 2 (zmean (map revenue g));
     mp_frequency := frequency;
     mp_total_qty := isum (map qty g);
     mp_avg_price := fround 2 (fmean (map avg_price g));
     mp_revenue_per_order := truediv total frequency;
     mp_popularity_score :=
       fmul (fdiv (of_int frequency) max_frequency) (Fin 100);
     mp_performance_category := snd kgc |}.

Definition brief (m : MenuPerformance) : MenuBrief :=
  {| mb_menu_item := mp_menu_item m;
     mb_total_revenue := mp_total_revenue m;
     mb_total_qty := mp_total_qty m |}.

(** [nlargest] and [nsmallest] by [total_revenue] need a column of numbers.
    The columns of a table without rows, read from a file that holds the
    header only, have dtype object, and so have the totals made of them. *)
Definition numeric_totals (l : list Row) : result unit :=
  match l with
  | [] => Raise (PyTypeError
                   "Column 'total_revenue' has dtype object, cannot use method 'nlargest' with this dtype")
  | _ => Ok tt
  end.

(** The body of [analyze_menu_performance]. *)
Definition menu_performance_body : M DataFrame MenuAnalysis :=
  _ <~ get "menu_item" menu_item ;;
  _ <~ get "revenue" revenue ;;
  _ <~ get "qty" qty ;;
  _ <~ get "avg_price" avg_price ;;
  l <~ table ;;
  let groups := menu_groups l in
  let totals := map (fun kg => isum (map revenue (snd kg))) groups in
  let max_frequency :=
    zmax (map (fun kg => Z.of_nat (List.length (snd kg))) groups) in
  let categories :=
    apply_axis1 (fun kg => categorize_performance totals
                             (of_int (isum (map revenue (snd kg))))) groups in
  let menu_analysis :=
    map (menu_row max_frequency) (combine groups categories) in
  _ <~ lift (numeric_totals l) ;;
  mret {| menu_performance := menu_analysis;
          top_performers :=
            map brief (nlargest 10 mp_total_revenue menu_analysis);
          low_performers :=
            map brief (nsmallest 5 mp_total_revenue menu_analysis) |}.

(** What [analyze_menu_performance] returns for the table [f]. *)
Definition menu_performance_of (f : DataFrame) : result MenuAnalysis :=
  fst (menu_performance_body f).

Definition analyze_menu_performance : M DataProcessor (pydict MenuAnalysis) :=
  analysing menu_performance_body.

Definition segment_groups (l : list Row) : list (string * list Row) :=
  groupby String.compare customer_segment l.

Definition segment_row (total_revenue : Z) (kg : string * list Row)
    : SegmentPerformance :=
  let g := snd kg in
  let total := isum (map revenue g) in
  let count := Z.of_nat (List.length g) in
  {| sp_customer_segment := fst kg;
     sp_total_revenue := total;
     sp_avg_revenue_per_transaction := fround 2 (zmean (map revenue g));
     sp_transaction_count := count;
     sp_total_qty := isum (map qty g);
     sp_avg_qty_per_transaction := fround 2 (zmean (map qty g));
     sp_avg_price_per_item := fround 2 (fmean (map avg_price g));
     sp_revenue_share :=
       fround 2 (fmul (truediv total total_revenue) (Fin 100));
     sp_customer_value := truediv total count |}.

(** The statistics [describe()] gives: those of a column of numbers, or,
    for the object column of a table without rows, those of a column of
    anything. *)
Definition describe_statistics (l : list Row) : list string :=
  match l with
  | [] => ["count"; "unique"; "top"; "freq"]
  | _ => ["count"; "mean"; "std"; "min"; "25%"; "50%"; "75%"; "max"]
  end.

(** [groupby(...)['avg_price'].describe()] puts the descriptions of the
    groups together, and raises when a table that has rows has no
    group. *)
Definition describe_groups (l : list Row)
    : result (list (string * Describe)) :=
  match l, segment_groups l with
  | _ :: _, [] => Raise (ValueError "No objects to concatenate")
  | _, groups =>
      Ok (map (fun kg => (fst kg, describe (map avg_price (snd kg)))) groups)
  end.

(** The body of [analyze_customer_segments]. *)
Definition customer_segments_body : M DataFrame SegmentAnalysis :=
  _ <~ get "customer_segment" customer_segment ;;
  _ <~ get "revenue" revenue ;;
  _ <~ get "qty" qty ;;
  _ <~ get "avg_price" avg_price ;;
  l <~ table ;;
  rev <~ get "revenue" revenue ;;
  let total_revenue := isum rev in
  comparison <~ lift (describe_groups l) ;;
  mret {| segment_performance :=
            map (segment_row total_revenue) (segment_groups l);
          comparison_statistics := describe_statistics l;
          segment_comparison := comparison |}.

(** What [analyze_customer_segments] returns for the table [f]. *)
Definition customer_segments_of (f : DataFrame) : result SegmentAnalysis :=
  fst (customer_segments_body f).

Definition analyze_customer_segments
    : M DataProcessor (pydict SegmentAnalysis) :=
  analysing customer_segments_body.

Definition store_row (days : Z) (kg : string * list Row)
    : StorePerformance :=
  let g := snd kg in
  let total := isum (map revenue g) in
  let count := Z.of_nat (List.length g) in
  {| st_store := fst kg;
     st_total_revenue := total;
     st_avg_revenue_per_transaction := fround 2 (zmean (map revenue g));
     st_transaction_count := count;
     st_total_qty_sold := isum (map qty g);
     st_avg_qty_per_transaction := fround 2 (zmean (map qty g));
     st_menu_variety := nunique String.eqb (map menu_item g);
     st_revenue_per_day := truediv total days;
     st_efficiency_score := fround 2 (truediv total count) |}.

(** [df[df['store'] == s]]: NaN equals nothing, itself included. *)
Definition store_is (s : option string) (r : Row) : bool :=
  match s, store r with
  | Some a, Some b => String.eqb a b
  | _, _ => false
  end.

(** The body of [analyze_store_performance]. *)
Definition store_performance_body : M DataFrame StoreAnalysis :=
  _ <~ get "store" store ;;
  _ <~ get "revenue" revenue ;;
  _ <~ get "qty" qty ;;
  _ <~ get "menu_item" menu_item ;;
  l <~ table ;;
  dates <~ get "date" date ;;
  let days := nunique datecell_eqb (map some_date dates) in
  sts <~ get "store" store ;;
  mret {| store_performance :=
            map (store_row days) (groupby String.compare store l);
          store_popular_items :=
            map (fun s => (s, nlargest 5 snd
                                (group_sums menu_item qty
                                   (filter (store_is s) l))))
                (unique (option_eqb String.eqb) sts) |}.

(** What [analyze_store_performance] returns for the table [f]. *)
Definition store_performance_of (f : DataFrame) : result StoreAnalysis :=
  fst (store_performance_body f).

Definition analyze_store_performance
    : M DataProcessor (pydict StoreAnalysis) :=
  analysing store_performance_body.

(** The body of [get_correlation_analysis]. *)
Definition correlation_body : M DataFrame CorrelationAnalysis :=
  rev <~ get "revenue" revenue ;;
  q <~ get "qty" qty ;;
  price <~ get "avg_price" avg_price ;;
  let numerical_cols :=
    [("revenue", map (fun z => Some (IZR z)) rev);
     ("qty", map (fun z => Some (IZR z)) q);
     ("avg_price", map to_real price)] in
  let correlation_matrix :=
    map (fun c => (fst c, map (fun r => (fst r, rround 3 (snd r))) (snd c)))
        (corr numerical_cols) in
  mret {| correlation_matrix := correlation_matrix;
          insights :=
            {| price_qty_correlation :=
                 loc correlation_matrix "avg_price" "qty";
               price_revenue_correlation :=
                 loc correlation_matrix "avg_price" "revenue";
               qty_revenue_correlation :=
                 loc correlation_matrix "qty" "revenue" |} |}.

(** What [get_correlation_analysis] returns for the table [f]. *)
Definition correlation_of (f : DataFrame) : result CorrelationAnalysis :=
  fst (correlation_body f).

Definition get_correlation_analysis
    : M DataProcessor (pydict CorrelationAnalysis) :=
  analysing correlation_body.

(** [Series.str.contains(pat, na=False)] reads [pat] as a regular
    expression ([regex=True] is the default).  A pattern without
    metacharacters matches where it occurs as a substring. *)
Definition compile (pat : string) : result (string -> bool) :=
  if is_literal pat then Ok (contains pat)
  else match re_search pat with
       | Some matches => Ok matches
       | None => Raise (ReError pat)
       end.

(** [column.str]: only a column of dtype object has the accessor. *)
Definition str_accessor (label : string) : M DataFrame unit :=
  fun f =>
    (if is_object f label then Ok tt
     else Raise (AttributeError
                   "Can only use .str accessor with string values!"), f).

(** [self.df[label].str.lower().str.contains(query, na=False)] *)
Definition str_lower_contains (label : string)
    (field : Row -> option string) (query : string)
    : M DataFrame (list bool) :=
  column <~ get label field ;;
  str_accessor label ;;;
  matches <~ lift (compile query) ;;
  mret (map (fun cell => match cell with
                         | Some s => matches (lower s)
                         | None => false
                         end) column).

Fixpoint select {A : Type} (l : list A) (mask : list bool) : list A :=
  match l, mask with
  | a :: l', b :: mask' => if b then a :: select l' mask' else select l' mask'
  | _, _ => []
  end.

(** [self.df[mask]]: a new frame of the rows the mask keeps, with the
    columns and dtypes of [self.df]. *)
Definition select_rows (mask : list bool) : M DataFrame DataFrame :=
  fun f => (Ok {| columns := columns f; rows := select (rows f) mask;
                  object_columns := object_columns f |}, f).

(** The body of [search_data]. *)
Definition search_body (query : string) : M DataFrame DataFrame :=
  let query := lower query in
  m1 <~ str_lower_contains "menu_item" menu_item query ;;
  m2 <~ str_lower_contains "store" store query ;;
  m3 <~ str_lower_contains "customer_segment" customer_segment query ;;
  let mask := map (fun b => orb (orb (fst (fst b)) (snd (fst b))) (snd b))
                  (combine (combine m1 m2) m3) in
  select_rows mask.

(** What [search_data] returns for the table [f]. *)
Definition search_frame (query : string) (f : DataFrame) : result DataFrame :=
  fst (search_body query f).

Definition search_data (query : string) : M DataProcessor DataFrame :=
  fun self =>
    match df self with
    | None => (Ok empty_frame, self)
    | Some f =>
        let (r, f') := search_body query f in
        (r, {| df := Some f'; data_summary := data_summary self |})
    end.

End Processor.

(** ** Concrete instances

    The two library functions above, on the inputs the examples use. *)

Definition digit (c : ascii) : option Z :=
  let n := nat_of_ascii c in
  if andb (Nat.leb 48 n) (Nat.leb n 57) then Some (Z.of_nat (n - 48))
  else None.

Fixpoint number (acc : Z) (s : string) : option Z :=
  match s with
  | EmptyString => Some acc
  | String c rest =>
      match digit c with
      | Some d => number (10 * acc + d) rest
      | None => None
      end
  end.

Definition days_in_month (y m : Z) : Z :=
  if m =? 2 then (if is_leap y then 29 else 28)
  else if orb (orb (m =? 4) (m =? 6)) (orb (m =? 9) (m =? 11)) then 30
  else 31.

(** ISO dates, [YYYY-MM-DD]: the least every date parser accepts. *)
Definition parse_iso (s : string) : option Timestamp :=
  if negb (Nat.eqb (String.length s) 10) then None
  else if negb (andb (String.eqb (substring 4 1 s) "-")
                     (String.eqb (substring 7 1 s) "-")) then None
  else
    match number 0 (substring 0 4 s), number 0 (substring 5 2 s),
          number 0 (substring 8 2 s) with
    | Some y, Some m, Some d =>
        if andb (andb (1 <=? m) (m <=? 12))
                (andb (1 <=? d) (d <=? days_in_month y m))
        then Some (mkdate y m d) else None
    | _, _, _ => None
    end.

Definition is_paren (c : ascii) : bool :=
  orb (Ascii.eqb c "(") (Ascii.eqb c ")").

Fixpoint balanced (depth : nat) (pat : string) : bool :=
  match pat with
  | EmptyString => Nat.eqb depth 0
  | String c rest =>
      if Ascii.eqb c "(" then balanced (S depth) rest
      else if Ascii.eqb c ")" then
             match depth with
             | O => false
             | S d => balanced d rest
             end
      else balanced depth rest
  end.

Fixpoint strip_parens (pat : string) : string :=
  match pat with
  | EmptyString => EmptyString
  | String c rest =>
      if is_paren c then strip_parens rest else String c (strip_parens rest)
  end.

(** The pattern, made of literal characters and dots, matches at the
    start of [s]; a dot stands for any character but a newline. *)
Fixpoint match_here (pat s : string) : bool :=
  match pat, s with
  | EmptyString, _ => true
  | String _ _, EmptyString => false
  | String p pat', String c s' =>
      andb (if Ascii.eqb p "." then negb (Ascii.eqb c "010")
            else Ascii.eqb p c)
           (match_here pat' s')
  end.

Fixpoint match_anywhere (pat s : string) : bool :=
  if match_here pat s then true
  else match s with
       | EmptyString => false
       | String _ rest => match_anywhere pat rest
       end.

(** Python's [re] on the patterns written with literal characters, dots
    and parentheses only: unbalanced parentheses do not compile, balanced
    ones group and change nothing about where the pattern matches.  Other
    patterns are outside this instance, which answers [None] for them; no
    lemma below evaluates it there. *)
Definition re_fragment (pat : string) : option (string -> bool) :=
  if string_exists (fun c => andb (is_meta c)
                                  (negb (orb (is_paren c) (Ascii.eqb c "."))))
                   pat
  then None
  else if balanced 0 pat then Some (match_anywhere (strip_parens pat))
  else None.

(** A row as [read_csv] delivers it: the derived fields are not there
    yet. *)
Definition raw_row (d : datecell) (st item : option string) (rev q : Z)
    (seg : option string) : Row :=
  mkRow d st item rev q seg false NaN None None None.

Definition required_columns : list string :=
  ["date"; "store"; "menu_item"; "revenue"; "qty"; "customer_segment"].

(** The dtypes [read_csv] infers for the text columns. *)
Definition holds_text (field : Row -> option string) (l : list Row) : bool :=
  match l with
  | [] => true
  | _ => existsb (fun r => match field r with
                           | Some _ => true
                           | None => false
                           end) l
  end.

Definition inferred_objects (l : list Row) : list string :=
  (if holds_text store l then ["store"] else [])
  ++ (if holds_text menu_item l then ["menu_item"] else [])
  ++ (if holds_text customer_segment l then ["customer_segment"] else []).

(** The frame [read_csv] makes of a file with the six columns. *)
Definition raw_frame (l : list Row) : DataFrame :=
  {| columns := required_columns; rows := l;
     object_columns := inferred_objects l |}.

(** The text columns have the dtypes [read_csv] infers from their
    cells. *)
Definition csv_typed (f : DataFrame) : Prop :=
  is_object f "store" = holds_text store (rows f) /\
  is_object f "menu_item" = holds_text menu_item (rows f) /\
  is_object f "customer_segment" = holds_text customer_segment (rows f).

(** The three rows of the specification's scenarios. *)
Definition scenario_rows : list Row :=
  [raw_row (DText "2024-01-15") (Some "Store A") (Some "Nasi Goreng")
           85000 5 (Some "Regular");
   raw_row (DText "2024-01-15") (Some "Store B") (Some "Ayam Bakar")
           78000 4 (Some "Premium");
   raw_row (DText "2024-01-16") (Some "Store A") (Some "Es Teh")
           15000 10 (Some "Budget")].

Definition loaded (l : list Row) : DataProcessor :=
  snd (load_dataset parse_iso (Ok (raw_frame l)) init).

(** ** What [_clean_data] computes, row by row *)

Section Normalized.
Variable parse_date : string -> option Timestamp.

Definition parses (c : datecell) : Prop :=
  match c with
  | DText s => parse_date s <> None
  | _ => True
  end.

Definition stamp (c : datecell) : datecell :=
  match c with
  | DText s => match parse_date s with
               | Some d => DStamp d
               | None => c
               end
  | other => other
  end.

Definition stamp_date (c : datecell) : option Timestamp :=
  match c with
  | DStamp d => Some d
  | _ => None
  end.

Definition lower_bound (rev : list Z) : fval :=
  let Q1 := zquantile (1 # 4) rev in
  let Q3 := zquantile (3 # 4) rev in
  fsub Q1 (fmul (Fin (3 # 2)) (fsub Q3 Q1)).

Definition upper_bound (rev : list Z) : fval :=
  let Q1 := zquantile (1 # 4) rev in
  let Q3 := zquantile (3 # 4) rev in
  fadd Q3 (fmul (Fin (3 # 2)) (fsub Q3 Q1)).

Definition normalize_row (rev : list Z) (r : Row) : Row :=
  let when := stamp_date (stamp (date r)) in
  {| date := stamp (date r);
     store := store r;
     menu_item := menu_item r;
     revenue := revenue r;
     qty := qty r;
     customer_segment := customer_segment r;
     is_outlier := orb (flt (of_int (revenue r)) (lower_bound rev))
                       (fgt (of_int (revenue r)) (upper_bound rev));
     avg_price := truediv (revenue r) (qty r);
     month := option_map d_month when;
     day_of_week := option_map day_name when;
     week := option_map iso_week when |}.

Definition derived_columns : list string :=
  ["date"; "is_outlier"; "avg_price"; "month"; "day_of_week"; "week"].

Definition normalize (raw : DataFrame) : DataFrame :=
  {| columns := fold_left add_label derived_columns (columns raw);
     rows := map (normalize_row (map revenue (rows raw))) (rows raw);
     object_columns := object_columns raw |}.

(** The table [_clean_data] has made by the time it looks for [revenue],
    and by the time it looks for [qty]. *)
Definition with_dates (raw : DataFrame) : DataFrame :=
  setitem raw "date" set_date (map stamp (map date (rows raw))).

Definition with_outliers (raw : DataFrame) : DataFrame :=
  let f := with_dates raw in
  let rev := map revenue (rows f) in
  setitem f "is_outlier" set_is_outlier
          (map (fun r => orb (flt (of_int r) (lower_bound rev))
                             (fgt (of_int r) (upper_bound rev))) rev).

(** A NormalizedTable: what [_clean_data] made of a table that has the
    required columns. *)
Definition normalized (f : DataFrame) : Prop :=
  exists raw,
    (forall label, In label required_columns -> has_column raw label = true)
    /\ clean_frame parse_date raw = (Ok tt, f).
(** The two ways a raw table is invalid. *)
Definition missing_required (raw : DataFrame) : Prop :=
  exists label, In label required_columns /\ has_column raw label = false.

Definition unparseable_date (raw : DataFrame) : Prop :=
  has_column raw "date" = true /\
  ~ Forall parses (map date (rows raw)).
End Normalized.

(** The scenario table with its [qty] column left out. *)
Definition no_qty_frame : DataFrame :=
  {| columns := ["date"; "store"; "menu_item"; "revenue"; "customer_segment"];
     rows := scenario_rows;
     object_columns := inferred_objects scenario_rows |}.

(** The computation leaves the frame it runs on as it found it. *)
Definition reads {A : Type} (m : M DataFrame A) : Prop :=
  forall f, snd (m f) = f.

(** Calling the method twice in a row gives the same result twice and
    leaves the processor as it was. *)
Definition repeatable {A : Type} (m : M DataProcessor A) : Prop :=
  forall self,
    let (r1, self1) := m self in
    let (r2, self2) := m self1 in
    r1 = r2 /\ self1 = self /\ self2 = self.

(** The processor after loading a table without rows. *)
Definition empty_table_state : DataProcessor := loaded [].

(** The correlation matrix with NaN in every place. *)
Definition nan_matrix : list (string * list (string * rval)) :=
  let col := [("revenue", RNaN); ("qty", RNaN); ("avg_price", RNaN)] in
  [("revenue", col); ("qty", col); ("avg_price", col)].

(** ** Vocabulary for the grouping lemmas *)

Record order_laws {K : Type} (cmp : K -> K -> comparison) : Prop := {
  cmp_eq : forall a b, cmp a b = Eq <-> a = b;
  cmp_antisym : forall a b, cmp b a = CompOpp (cmp a b);
  cmp_trans : forall a b c, cmp a b = Lt -> cmp b c = Lt -> cmp a c = Lt
}.

Section GroupVocabulary.
Context {K A : Type} (cmp : K -> K -> comparison).

(** The rows filed under key [k]; none when the key has no group. *)
Fixpoint group_of (k : K) (gs : list (K * list A)) : list A :=
  match gs with
  | [] => []
  | (k', g) :: rest =>
      match cmp k k' with
      | Eq => g
      | _ => group_of k rest
      end
  end.

Definition key_is (key : A -> option K) (k : K) (a : A) : bool :=
  match key a with
  | Some k' => match cmp k k' with Eq => true | _ => false end
  | None => false
  end.

Definition has_key (key : A -> option K) (a : A) : bool :=
  match key a with
  | Some _ => true
  | None => false
  end.

Definition ascending_keys (gs : list (K * list A)) : Prop :=
  StronglySorted (fun x y => cmp (fst x) (fst y) = Lt) gs.

(** The grand total of [w] over all groups. *)
Definition groups_total (w : A -> Z) (gs : list (K * list A)) : Z :=
  zsum (map (fun kg => zsum (map w (snd kg))) gs).

Definition qgroups_total (w : A -> Q) (gs : list (K * list A)) : Q :=
  qsum (map (fun kg => qsum (map w (snd kg))) gs).
End GroupVocabulary.

(** The rows of a table dated [c]. *)
Definition on_date (c : datecell) (r : Row) : bool :=
  datecell_eqb c (date r).

(** Two sales, the first with its three text cells empty. *)
Definition unlabelled_rows : list Row :=
  [raw_row (DText "2024-01-15") None None 100 1 None;
   raw_row (DText "2024-01-16") (Some "Store A") (Some "Es Teh") 50 1
           (Some "Budget")].

(** ** Vocabulary for int64 sums *)

(** The absolute values of the cells add up to less than 2^63: no sum of
    cells of the column leaves int64. *)
Definition fits (l : list Z) : Prop := zsum (map Z.abs l) < 2 ^ 63.

(** The sums of [revenue] and of [qty] stay within int64. *)
Definition within_int64 (f : DataFrame) : Prop :=
  fits (map revenue (rows f)) /\ fits (map qty (rows f)).

(** Two sales of one day whose revenues add up to 2^63. *)
Definition huge_rows : list Row :=
  [raw_row (DText "2024-01-15") (Some "Store A") (Some "Nasi Goreng")
           (2 ^ 62) 1 (Some "Regular");
   raw_row (DText "2024-01-15") (Some "Store A") (Some "Es Teh")
           (2 ^ 62) 1 (Some "Regular")].

(** Two sales to two segments whose revenues add up to 2^63. *)
Definition huge_segment_rows : list Row :=
  [raw_row (DText "2024-01-15") (Some "Store A") (Some "Nasi Goreng")
           (2 ^ 62) 1 (Some "Premium");
   raw_row (DText "2024-01-15") (Some "Store A") (Some "Es Teh")
           (2 ^ 62) 1 (Some "Regular")].

(** ** Vocabulary for search *)

(** [pat] occurs in [s]. *)
Definition occurs_in (pat s : string) : Prop :=
  exists before after, s = String.append before (String.append pat after).

Definition cell_matches (matches : string -> bool) (cell : option string)
    : bool :=
  match cell with
  | Some s => matches (lower s)
  | None => false
  end.

Definition row_matches (matches : string -> bool) (r : Row) : bool :=
  orb (orb (cell_matches matches (menu_item r))
           (cell_matches matches (store r)))
      (cell_matches matches (customer_segment r)).

(** One of the three text cells of the row holds [s]. *)
Definition text_of (r : Row) (s : string) : Prop :=
  menu_item r = Some s \/ store r = Some s \/ customer_segment r = Some s.


Definition searchable (f : DataFrame) : Prop :=
  has_column f "menu_item" = true /\ has_column f "store" = true /\
  has_column f "customer_segment" = true.

(** The three text columns have dtype object, so that [.str] is there. *)
Definition text_typed (f : DataFrame) : Prop :=
  is_object f "menu_item" = true /\ is_object f "store" = true /\
  is_object f "customer_segment" = true.

(** ASCII text, on which [lower] is Python's [str.lower]. *)
Definition is_ascii (s : string) : bool :=
  negb (string_exists (fun c => Nat.leb 128 (nat_of_ascii c)) s).

Definition ascii_text (f : DataFrame) : Prop :=
  forall r s, In r (rows f) -> text_of r s -> is_ascii s = true.




(** ** A [revenue] column of decimals

    Amounts with decimals make [revenue] a float64 column, here of exact
    rationals.  [.round(2)], which leaves the integer totals of an int64
    column as they are, then rounds the totals of the groups to two
    decimals, and the shares are taken of the rounded totals.  A sale is
    the label of its group with its revenue. *)

(** [groupby(label).agg({'revenue': 'sum'}).round(2)] *)
Definition decimal_totals (sales : list (option string * Q))
    : list (string * Q) :=
  map (fun kg => (fst kg, qround 2 (qsum (map snd (snd kg)))))
      (groupby String.compare fst sales).

(** [(total_revenue / self.df['revenue'].sum() * 100).round(2)] *)
Definition decimal_shares (sales : list (option string * Q))
    : list (string * Q) :=
  let total_revenue := qsum (map snd sales) in
  map (fun t => (fst t, qround 2 (snd t / total_revenue * 100)))
      (decimal_totals sales).

(** Three items sold for 1.004, 2.004 and 0.002, and three segments
    with a revenue of 0.004 each. *)
Definition decimal_menu_sales : list (option string * Q) :=
  [(Some "Ayam Bakar", 1004 # 1000); (Some "Es Teh", 2004 # 1000);
   (Some "Nasi Goreng", 2 # 1000)].

Definition decimal_segment_sales : list (option string * Q) :=
  [(Some "Budget", 4 # 1000); (Some "Premium", 4 # 1000);
   (Some "Regular", 4 # 1000)].

(** ** Vocabulary for rows sold in quantity zero *)

(** What [revenue / qty] is when [qty] is zero. *)
Definition zero_qty_price (rev : Z) : fval :=
  if 0 <? rev then PInf else if rev <? 0 then NInf else NaN.

(** The rows of one menu item, and of one customer segment. *)
Definition item_rows (item : string) (l : list Row) : list Row :=
  filter (key_is String.compare menu_item item) l.

Definition segment_rows (segment : string) (l : list Row) : list Row :=
  filter (key_is String.compare customer_segment segment) l.

(** The rows a mean of [avg_price] runs over: those whose price is not
    NaN. *)
Definition priced (r : Row) : bool := notna (avg_price r).

Definition price_mean (g : list Row) : fval :=
  fmean (map avg_price (filter priced g)).

(** [x] is [m] to the cent: [m] itself when that is not finite, else
    within half a cent of it. *)
Definition to_cents (m x : fval) : Prop :=
  match m, x with
  | Fin qm, Fin qx => (Qabs (qx - qm) <= 1 # 200)%Q
  | _, _ => x = m
  end.

(** Some row of the group was sold in quantity zero for a positive
    revenue, none for a negative one. *)
Definition sold_for_nothing (g : list Row) : Prop :=
  (exists r, In r g /\ qty r = 0 /\ 0 < revenue r) /\
  (forall r, In r g -> qty r = 0 -> 0 <= revenue r).

(** Nasi Goreng sold twice, once in quantity zero. *)
Definition zero_qty_rows : list Row :=
  [raw_row (DText "2024-01-15") (Some "Store A") (Some "Nasi Goreng")
           85000 0 (Some "Regular");
   raw_row (DText "2024-01-16") (Some "Store A") (Some "Nasi Goreng")
           34000 2 (Some "Regular")].

(** ** Vocabulary for the correlation matrix *)

Definition numerical_labels : list string := ["revenue"; "qty"; "avg_price"].

(** The columns [corr()] is computed over, as reals; a price that is not
    finite is no observation. *)
Definition numerical_columns (f : DataFrame)
    : list (string * list (option R)) :=
  [("revenue", map (fun z => Some (IZR z)) (map revenue (rows f)));
   ("qty", map (fun z => Some (IZR z)) (map qty (rows f)));
   ("avg_price", map to_real (map avg_price (rows f)))].

Definition numerical_column (f : DataFrame) (label : string)
    : list (option R) :=
  assoc [] label (numerical_columns f).

(** The finite values of the column are not all equal: their variance is
    not zero. *)
Definition nondegenerate (column : list (option R)) : Prop :=
  codeviation (complete_pairs column column) <> 0%R.

(** The scenario table, normalized. *)
Definition scenario_table : DataFrame :=
  normalize parse_iso (raw_frame scenario_rows).

(** ** Vocabulary for the further properties *)

Definition date_le (a b : Timestamp) : Prop := date_compare a b <> Gt.

(** The table has a row dated [d]. *)
Definition dated (f : DataFrame) (d : Timestamp) : Prop :=
  In (DStamp d) (map date (rows f)).

(** A breakdown by label, in strictly ascending label order. *)
Definition ascending_labels (l : list (string * Z)) : Prop :=
  StronglySorted (fun a b => String.compare (fst a) (fst b) = Lt) l.

(** Some row of the table has a date. *)
Definition has_a_date (f : DataFrame) : Prop :=
  exists r, In r (rows f) /\ date r <> DMissing.

(** What [_clean_data] never touches: the cells read from the file, the
    date apart. *)
Definition source_cells (r : Row)
    : option string * option string * Z * Z * option string :=
  (store r, menu_item r, revenue r, qty r, customer_segment r).

(** A table [load_dataset] accepts: the six columns are there, every date
    text parses, and some row has a date. *)
Definition loadable (parse_date : string -> option Timestamp)
    (raw : DataFrame) : Prop :=
  (forall label, In label required_columns -> has_column raw label = true) /\
  Forall (parses parse_date) (map date (rows raw)) /\
  has_a_date raw.

(** ** The context handed to the language model

    [get_data_context_for_llm] prints [data_summary] into a text.  The
    numbers are printed as Python prints them; the names are ASCII text. *)

(** [str(n)] *)
Definition str (z : Z) : string := NilZero.string_of_int (Z.to_int z).

(** A comma before every group of three digits, counted from the right. *)
Fixpoint commas (digits : string) : string :=
  match digits with
  | EmptyString => EmptyString
  | String c rest =>
      let n := String.length rest in
      if andb (Nat.ltb 0 n) (Nat.eqb (Nat.modulo n 3) 0)
      then String c (String "," (commas rest))
      else String c (commas rest)
  end.

(** [format(n, ',')] *)
Definition format_thousands (z : Z) : string :=
  if z <? 0 then ("-" ++ commas (str (- z)))%string else commas (str z).

(** [format(x, ',.0f')]: no decimals, a tie to the even neighbour; a
    negative value keeps its sign when it is rounded to zero. *)
Definition format_float0 (x : fval) : string :=
  match x with
  | Fin q =>
      let n := Z.abs (round_half_even q) in
      if Qle_bool 0 q then commas (str n)
      else ("-" ++ commas (str n))%string
  | PInf => "inf"
  | NInf => "-inf"
  | NaN => "nan"
  end.

Definition pad2 (z : Z) : string :=
  if z <? 10 then ("0" ++ str z)%string else str z.

(** [Timestamp.strftime('%Y-%m-%d')]; the year of a pandas timestamp has
    four digits. *)
Definition strftime (d : Timestamp) : string :=
  (str (d_year d) ++ "-" ++ pad2 (d_month d) ++ "-" ++ pad2 (d_day d))%string.

Definition dquote : ascii := ascii_of_nat 34.
Definition backslash : ascii := ascii_of_nat 92.
Definition newline : string := String (ascii_of_nat 10) "".

Definition hex_digit (n : nat) : ascii :=
  nth n (list_ascii_of_string "0123456789abcdef") "0"%char.

(** The escapes of [json.dumps] with [ensure_ascii=True]: everything but
    the printable ASCII characters, the quote and the backslash apart. *)
Definition json_escape_char (c : ascii) : string :=
  let n := nat_of_ascii c in
  let esc (letter : string) := String backslash letter in
  if Nat.eqb n 34 then esc (String dquote "")
  else if Nat.eqb n 92 then esc (String backslash "")
  else if Nat.eqb n 10 then esc "n"
  else if Nat.eqb n 13 then esc "r"
  else if Nat.eqb n 9 then esc "t"
  else if Nat.eqb n 12 then esc "f"
  else if Nat.eqb n 8 then esc "b"
  else if andb (Nat.leb 32 n) (Nat.leb n 126) then String c ""
  else esc (String "u" (String "0" (String "0"
              (String (hex_digit (Nat.div n 16))
                 (String (hex_digit (Nat.modulo n 16)) ""))))).

Fixpoint json_escape (s : string) : string :=
  match s with
  | EmptyString => EmptyString
  | String c rest => (json_escape_char c ++ json_escape rest)%string
  end.

Definition json_string (s : string) : string :=
  String dquote (json_escape s ++ String dquote "")%string.

(** [json.dumps(d, indent=2)] of a dict from names to integers. *)
Definition json_dumps (d : list (string * Z)) : string :=
  match d with
  | [] => "{}"
  | _ =>
      ("{" ++ newline
       ++ String.concat ("," ++ newline)
            (map (fun kv => "  " ++ json_string (fst kv) ++ ": "
                            ++ str (snd kv)) d)
       ++ newline ++ "}")%string
  end.

(** What building the context can raise: an exception of the table, or
    the [TypeError] of [str.join] on a sequence whose item number [item]
    is NaN, a float. *)
Inductive context_exn : Type :=
| Exn (e : exn)
| TypeError (item : nat).

Fixpoint first_missing (i : nat) (l : list (option string)) : option nat :=
  match l with
  | [] => None
  | None :: _ => Some i
  | Some _ :: rest => first_missing (S i) rest
  end.

(** [sep.join(l)] *)
Definition join (sep : string) (l : list (option string))
    : context_exn + string :=
  match first_missing 0 l with
  | Some i => inl (TypeError i)
  | None => inr (String.concat sep (somes l))
  end.

(** The lines of the f-string, its fields already printed. *)
Definition context_lines (s : Summary) (store_names segment_names : string)
    : list string :=
  [""%string;
   ("        DATASET SUMMARY:")%string;
   ("        - Total Records: " ++ str (total_records s))%string;
   ("        - Date Range: " ++ strftime (dr_start (date_range s)) ++ " to "
    ++ strftime (dr_end (date_range s)))%string;
   ("        - Total Revenue: Rp "
    ++ format_thousands (total_revenue s))%string;
   ("        - Total Items Sold: " ++ str (total_qty_sold s))%string;
   ("        - Average Transaction: Rp "
    ++ format_float0 (avg_transaction_value s))%string;
   ("        ")%string;
   ("        STORES: " ++ store_names)%string;
   ("        CUSTOMER SEGMENTS: " ++ segment_names)%string;
   ("        UNIQUE MENU ITEMS: " ++ str (unique_menu_items s))%string;
   ("        ")%string;
   ("        TOP SELLING ITEMS:")%string;
   ("        " ++ json_dumps (top_selling_items s))%string;
   ("        ")%string;
   ("        REVENUE BY STORE:")%string;
   ("        " ++ json_dumps (revenue_by_store s))%string;
   ("        ")%string;
   ("        REVENUE BY SEGMENT:")%string;
   ("        " ++ json_dumps (revenue_by_segment s))%string;
   ("        ")%string].

(** [get_data_context_for_llm]: the fields of the f-string are evaluated
    from left to right, [data_summary['total_records']] first. *)
Definition get_data_context_for_llm (self : DataProcessor)
    : (context_exn + string) * DataProcessor :=
  (match df self with
   | None => inr "No data loaded"
   | Some _ =>
       match data_summary self with
       | EmptyDict => inl (Exn (KeyError "total_records"))
       | Dict s =>
           match join ", " (stores s) with
           | inl e => inl e
           | inr store_names =>
               match join ", " (customer_segments s) with
               | inl e => inl e
               | inr segment_names =>
                   inr (String.concat newline
                          (context_lines s store_names segment_names))
               end
           end
       end
   end, self).

(** Every row names its store and its customer segment. *)
Definition labelled (f : DataFrame) : Prop :=
  forall r, In r (rows f) -> store r <> None /\ customer_segment r <> None.

(** A table of a single sale. *)
Definition single_sale : DataFrame :=
  raw_frame [raw_row (DText "2024-01-15") (Some "Store A")
                     (Some "Nasi Goreng") 85000 5 (Some "Regular")].

(** ** The session of the Streamlit app (src/src/app_streamlit.py)

    [st.session_state] keeps the processor and the flag [data_loaded]
    from one run of the script to the next.  The two handlers of the
    sidebar catch every exception; what they show on the page is left
    out. *)
Record Session : Type := {
  data_processor : DataProcessor;
  data_loaded : bool
}.

Definition new_session : Session :=
  {| data_processor := init; data_loaded := false |}.

(** The upload handler: [data_loaded] is set once the table is cleaned
    and summarized; an exception is caught and reported. *)
Definition upload_handler (parse_date : string -> option Timestamp)
    (read_csv : result DataFrame) (st : Session) : Session :=
  match read_csv with
  | Raise _ => st
  | Ok raw =>
      let dp := data_processor st in
      let dp1 := {| df := Some raw; data_summary := data_summary dp |} in
      let (r, dp2) := (_clean_data parse_date ;;; _generate_summary) dp1 in
      {| data_processor := dp2;
         data_loaded := match r with
                        | Ok _ => true
                        | Raise _ => data_loaded st
                        end |}
  end.

(** The sample button: [load_dataset] when the sample file exists. *)
Definition sample_handler (parse_date : string -> option Timestamp)
    (file_exists : bool) (read_csv : result DataFrame) (st : Session)
    : Session :=
  if file_exists then
    let (r, dp) := load_dataset parse_date read_csv (data_processor st) in
    {| data_processor := dp;
       data_loaded := match r with
                      | Ok _ => true
                      | Raise _ => data_loaded st
                      end |}
  else st.

(** What the user does in the sidebar. *)
Inductive event : Type :=
| Upload (read_csv : result DataFrame)
| Sample (file_exists : bool) (read_csv : result DataFrame).

Definition handle (parse_date : string -> option Timestamp) (st : Session)
    (e : event) : Session :=
  match e with
  | Upload read_csv => upload_handler parse_date read_csv st
  | Sample file_exists read_csv =>
      sample_handler parse_date file_exists read_csv st
  end.

Definition run (parse_date : string -> option Timestamp) (events : list event)
    : Session :=
  fold_left (handle parse_date) events new_session.

(** The main page reads [data_summary] and [df] once [data_loaded] is
    set. *)
Definition ready (st : Session) : Prop :=
  data_loaded st = true ->
  df (data_processor st) <> None /\
  exists s, data_summary (data_processor st) = Dict s.

(** * Properties *)

(** ** Steps of a method *)

Lemma get_present {A B : Type} (label : string) (field : Row -> A)
    (k : list A -> M DataFrame B) (f : DataFrame) :
  has_column f label = true ->
  mbind (get label field) k f = k (map field (rows f)) f.
Proof.
  intros H. unfold mbind, get, getitem. now rewrite H.
Qed.

Lemma get_absent {A B : Type} (label : string) (field : Row -> A)
    (k : list A -> M DataFrame B) (f : DataFrame) :
  has_column f label = false ->
  mbind (get label field) k f = (Raise (KeyError label), f).
Proof.
  intros H. unfold mbind, get, getitem. now rewrite H.
Qed.

Lemma set_then {A B : Type} (label : string) (update : Row -> A -> Row)
    (values : list A) (k : unit -> M DataFrame B) (f : DataFrame) :
  mbind (set label update values) k f = k tt (setitem f label update values).
Proof. reflexivity. Qed.

Lemma existsb_app_single (label l : string) (labels : list string) :
  existsb (String.eqb label) (add_label labels l)
  = orb (existsb (String.eqb label) labels) (String.eqb label l).
Proof.
  unfold add_label.
  destruct (existsb (String.eqb l) labels) eqn:E.
  - destruct (String.eqb_spec label l) as [->|]; [now rewrite E|].
    now rewrite orb_false_r.
  - rewrite existsb_app. simpl. now rewrite orb_false_r.
Qed.

Lemma has_column_setitem {A : Type} (f : DataFrame) (l label : string)
    (update : Row -> A -> Row) (values : list A) :
  has_column (setitem f l update values) label
  = orb (has_column f label) (String.eqb label l).
Proof. unfold has_column, setitem. simpl. apply existsb_app_single. Qed.

Lemma rows_setitem {A : Type} (f : DataFrame) (l : string)
    (update : Row -> A -> Row) (g : Row -> A) :
  rows (setitem f l update (map g (rows f)))
  = map (fun r => update r (g r)) (rows f).
Proof.
  unfold setitem. simpl. induction (rows f) as [|r rs IH]; simpl; congruence.
Qed.

Lemma to_datetime_stamps (parse_date : string -> option Timestamp)
    (cells stamps : list datecell) :
  to_datetime parse_date cells = Ok stamps ->
  stamps = map (stamp parse_date) cells /\ Forall (parses parse_date) cells.
Proof.
  revert stamps. induction cells as [|c cells IH]; simpl; intros stamps H.
  - inversion H. auto.
  - destruct c as [s|d|].
    + destruct (parse_date s) eqn:E; [|discriminate].
      destruct (to_datetime parse_date cells) as [ds|] eqn:E'; [|discriminate].
      simpl in H. inversion H; subst. destruct (IH ds eq_refl) as [-> HF].
      split; [simpl; now rewrite E|].
      constructor; [simpl; congruence|assumption].
    + destruct (to_datetime parse_date cells) as [ds|] eqn:E'; [|discriminate].
      simpl in H. inversion H; subst. destruct (IH ds eq_refl) as [-> HF].
      split; [reflexivity|]. constructor; simpl; auto.
    + destruct (to_datetime parse_date cells) as [ds|] eqn:E'; [|discriminate].
      simpl in H. inversion H; subst. destruct (IH ds eq_refl) as [-> HF].
      split; [reflexivity|]. constructor; simpl; auto.
Qed.

Lemma to_datetime_parses (parse_date : string -> option Timestamp)
    (cells : list datecell) :
  Forall (parses parse_date) cells ->
  to_datetime parse_date cells = Ok (map (stamp parse_date) cells).
Proof.
  induction 1 as [|c cells Hc _ IH]; simpl; [reflexivity|].
  destruct c as [s|d|]; simpl in *.
  - destruct (parse_date s); [|congruence]. now rewrite IH.
  - now rewrite IH.
  - now rewrite IH.
Qed.

Lemma to_datetime_fails (parse_date : string -> option Timestamp)
    (cells : list datecell) :
  ~ Forall (parses parse_date) cells ->
  exists e, to_datetime parse_date cells = Raise e.
Proof.
  intros H. destruct (to_datetime parse_date cells) as [ds|e] eqn:E.
  - apply to_datetime_stamps in E. tauto.
  - now exists e.
Qed.

Lemma dt_stamps (parse_date : string -> option Timestamp)
    (cells : list datecell) :
  Forall (parses parse_date) cells ->
  dt (map (stamp parse_date) cells)
  = Ok (map (fun c => stamp_date (stamp parse_date c)) cells).
Proof.
  induction 1 as [|c cells Hc _ IH]; simpl; [reflexivity|].
  destruct c as [s|d|]; simpl in *.
  - destruct (parse_date s); [|congruence]. now rewrite IH.
  - now rewrite IH.
  - now rewrite IH.
Qed.

Lemma lift_ok {S A B : Type} (a : A) (k : A -> M S B) (s : S) :
  mbind (lift (Ok a)) k s = k a s.
Proof. reflexivity. Qed.

Lemma lift_raise {S A B : Type} (e : exn) (k : A -> M S B) (s : S) :
  mbind (lift (Raise e)) k s = (Raise e, s).
Proof. reflexivity. Qed.

Lemma combine_map_map {A B C : Type} (g : A -> B) (h : A -> C) (l : list A) :
  combine (map g l) (map h l) = map (fun a => (g a, h a)) l.
Proof. induction l; simpl; congruence. Qed.

(** Assigning a column computed row by row from the table the frame was
    built from. *)
Lemma setitem_pointwise {A : Type} (cols : list string) (h : Row -> Row)
    (l : list Row) (label : string) (update : Row -> A -> Row)
    (v : Row -> A) (objs : list string) :
  setitem {| columns := cols; rows := map h l; object_columns := objs |}
          label update (map v l)
  = {| columns := add_label cols label;
       rows := map (fun r => update (h r) (v r)) l;
       object_columns := objs |}.
Proof.
  unfold setitem. simpl. f_equal.
  rewrite combine_map_map, map_map. reflexivity.
Qed.

Lemma has_column_add (cols : list string) (rs : list Row) (label : string)
    (objs : list string) :
  has_column {| columns := cols; rows := rs; object_columns := objs |} label
  = existsb (String.eqb label) cols.
Proof. reflexivity. Qed.

Ltac cells :=
  cbn [date revenue qty set_date set_is_outlier set_avg_price set_month
       set_day_of_week set_week fst snd].

Lemma clean_frame_ok (parse_date : string -> option Timestamp)
    (raw : DataFrame) :
  has_column raw "date" = true ->
  has_column raw "revenue" = true ->
  has_column raw "qty" = true ->
  Forall (parses parse_date) (map date (rows raw)) ->
  clean_frame parse_date raw = (Ok tt, normalize parse_date raw).
Proof.
  intros Hd Hr Hq Hp. destruct raw as [cols l]. cbn [rows] in Hp.
  unfold has_column in Hd, Hr, Hq. cbn [columns] in Hd, Hr, Hq.
  assert (Hstamps : dt (map (fun r => stamp parse_date (date r)) l)
                    = Ok (map (fun r => stamp_date (stamp parse_date (date r)))
                              l)).
  { rewrite <- (map_map date (stamp parse_date)).
    rewrite (dt_stamps parse_date _ Hp). now rewrite map_map. }
  unfold clean_frame.
  rewrite get_present by exact Hd. cbn [rows].
  rewrite (to_datetime_parses _ _ Hp), lift_ok, set_then.
  rewrite map_map. rewrite <- (map_id l) at 1.
  rewrite setitem_pointwise.
  rewrite get_present
    by (rewrite has_column_add, existsb_app_single, Hr; reflexivity).
  cbn [rows]. rewrite !map_map. cells.
  rewrite set_then, setitem_pointwise.
  rewrite get_present
    by (rewrite has_column_add, !existsb_app_single, Hr; reflexivity).
  rewrite get_present
    by (rewrite has_column_add, !existsb_app_single, Hq; reflexivity).
  cbn [rows]. rewrite !map_map, combine_map_map, map_map.
  rewrite set_then, setitem_pointwise.
  rewrite get_present
    by (rewrite has_column_add, !existsb_app_single, Hd; reflexivity).
  cbn [rows]. rewrite !map_map. cells.
  rewrite Hstamps, lift_ok, set_then, map_map, setitem_pointwise.
  rewrite get_present
    by (rewrite has_column_add, !existsb_app_single, Hd; reflexivity).
  cbn [rows]. rewrite !map_map. cells.
  rewrite Hstamps, lift_ok, set_then, map_map, setitem_pointwise.
  rewrite get_present
    by (rewrite has_column_add, !existsb_app_single, Hd; reflexivity).
  cbn [rows]. rewrite !map_map. cells.
  rewrite Hstamps, lift_ok. unfold set at 1. rewrite map_map, setitem_pointwise.
  unfold normalize. cbn [rows columns]. reflexivity.
Qed.

Lemma clean_frame_raises (parse_date : string -> option Timestamp)
    (raw : DataFrame) :
  has_column raw "date" = false \/ has_column raw "revenue" = false \/
  has_column raw "qty" = false \/
  ~ Forall (parses parse_date) (map date (rows raw)) ->
  exists e f',
    clean_frame parse_date raw = (Raise e, f') /\
    (has_column raw "date" = false \/
     ~ Forall (parses parse_date) (map date (rows raw)) -> f' = raw).
Proof.
  intros H. unfold clean_frame.
  destruct (has_column raw "date") eqn:Hd.
  2:{ rewrite get_absent by exact Hd. eauto. }
  rewrite get_present by exact Hd.
  destruct (to_datetime parse_date (map date (rows raw))) as [stamps|e] eqn:Et.
  2:{ rewrite lift_raise. eauto. }
  apply to_datetime_stamps in Et. destruct Et as [_ Hp].
  rewrite lift_ok, set_then.
  destruct (has_column raw "revenue") eqn:Hr.
  2:{ rewrite get_absent by (rewrite has_column_setitem, Hr; reflexivity).
      do 2 eexists. split; [reflexivity|]. intros [?|?]; [discriminate|tauto]. }
  rewrite get_present by (rewrite has_column_setitem, Hr; reflexivity).
  rewrite set_then.
  rewrite get_present by (rewrite !has_column_setitem, Hr; reflexivity).
  destruct (has_column raw "qty") eqn:Hq.
  2:{ rewrite get_absent by (rewrite !has_column_setitem, Hq; reflexivity).
      do 2 eexists. split; [reflexivity|]. intros [?|?]; [discriminate|tauto]. }
  exfalso. destruct H as [H|[H|[H|H]]]; try discriminate. tauto.
Qed.

Lemma clean_frame_inv (parse_date : string -> option Timestamp)
    (raw f : DataFrame) :
  clean_frame parse_date raw = (Ok tt, f) ->
  has_column raw "date" = true /\ has_column raw "revenue" = true /\
  has_column raw "qty" = true /\
  Forall (parses parse_date) (map date (rows raw)) /\
  f = normalize parse_date raw.
Proof.
  intros H.
  destruct (has_column raw "date") eqn:Hd;
    [|destruct (clean_frame_raises parse_date raw) as (e & f' & E & _);
      [tauto|congruence]].
  destruct (has_column raw "revenue") eqn:Hr;
    [|destruct (clean_frame_raises parse_date raw) as (e & f' & E & _);
      [tauto|congruence]].
  destruct (has_column raw "qty") eqn:Hq;
    [|destruct (clean_frame_raises parse_date raw) as (e & f' & E & _);
      [tauto|congruence]].
  destruct (to_datetime parse_date (map date (rows raw))) as [stamps|e] eqn:Et.
  - apply to_datetime_stamps in Et. destruct Et as [_ Hp].
    rewrite (clean_frame_ok _ _ Hd Hr Hq Hp) in H. inversion H. auto.
  - destruct (clean_frame_raises parse_date raw) as (e' & f' & E & _);
      [|congruence].
    right; right; right. intros Hp.
    rewrite (to_datetime_parses _ _ Hp) in Et. discriminate.
Qed.

Lemma has_column_normalize (parse_date : string -> option Timestamp)
    (raw : DataFrame) (label : string) :
  has_column (normalize parse_date raw) label
  = orb (has_column raw label)
        (existsb (String.eqb label) derived_columns).
Proof.
  unfold has_column, normalize, derived_columns. cbn [columns fold_left].
  rewrite !existsb_app_single. cbn [existsb].
  rewrite orb_false_r, <- !orb_assoc. reflexivity.
Qed.

Lemma normalized_columns (parse_date : string -> option Timestamp)
    (f : DataFrame) :
  normalized parse_date f ->
  forall label,
    In label (required_columns ++ derived_columns) ->
    has_column f label = true.
Proof.
  intros (raw & Hreq & H) label Hin. apply clean_frame_inv in H.
  destruct H as (_ & _ & _ & _ & ->).
  rewrite has_column_normalize. apply in_app_or in Hin.
  destruct Hin as [Hin|Hin].
  - now rewrite (Hreq label Hin).
  - apply orb_true_iff. right. apply existsb_exists. exists label.
    split; [exact Hin|apply String.eqb_refl].
Qed.

Lemma normalized_rows (parse_date : string -> option Timestamp)
    (f : DataFrame) :
  normalized parse_date f ->
  exists raw, rows f = map (normalize_row parse_date (map revenue (rows raw)))
                           (rows raw)
              /\ Forall (parses parse_date) (map date (rows raw)).
Proof.
  intros (raw & _ & H). apply clean_frame_inv in H.
  destruct H as (_ & _ & _ & Hp & ->). exists raw.
  split; [reflexivity|exact Hp].
Qed.


Lemma getitem_present {A : Type} (f : DataFrame) (label : string)
    (field : Row -> A) :
  has_column f label = true -> getitem f label field = Ok (map field (rows f)).
Proof. intros H. unfold getitem. now rewrite H. Qed.

Lemma getitem_absent {A : Type} (f : DataFrame) (label : string)
    (field : Row -> A) :
  has_column f label = false -> getitem f label field = Raise (KeyError label).
Proof. intros H. unfold getitem. now rewrite H. Qed.

(** Reading a column of a normalized table. *)
Ltac present H :=
  rewrite getitem_present
    by (apply (normalized_columns _ _ H); simpl; auto 15).

Lemma summarize_needs (f : DataFrame) (s : Summary) :
  summarize f = Ok s ->
  has_column f "store" = true /\ has_column f "menu_item" = true /\
  has_column f "customer_segment" = true.
Proof.
  unfold summarize. intros H.
  destruct (has_column f "store") eqn:Hs;
    [|rewrite (getitem_absent f "store") in H by exact Hs].
  destruct (has_column f "menu_item") eqn:Hm;
    [|rewrite (getitem_absent f "menu_item") in H by exact Hm].
  destruct (has_column f "customer_segment") eqn:Hc;
    [|rewrite (getitem_absent f "customer_segment") in H by exact Hc].
  1: auto.
  all: exfalso; unfold bind in H;
    repeat match type of H with
           | match ?x with _ => _ end = _ => destruct x; try discriminate
           end.
Qed.

(** ** Loading *)

Lemma load_dataset_clean_raises (parse_date : string -> option Timestamp)
    (raw f' : DataFrame) (e : exn) (self : DataProcessor) :
  clean_frame parse_date raw = (Raise e, f') ->
  load_dataset parse_date (Ok raw) self
  = (Raise e, {| df := Some f'; data_summary := data_summary self |}).
Proof.
  intros H. unfold load_dataset, mbind, _clean_data. cbn [df data_summary].
  now rewrite H.
Qed.

Lemma load_dataset_summary_raises (parse_date : string -> option Timestamp)
    (raw f : DataFrame) (e : exn) (self : DataProcessor) :
  clean_frame parse_date raw = (Ok tt, f) ->
  summarize f = Raise e ->
  load_dataset parse_date (Ok raw) self
  = (Raise e, {| df := Some f; data_summary := data_summary self |}).
Proof.
  intros H E. unfold load_dataset, mbind, _clean_data, _generate_summary.
  cbn [df data_summary]. rewrite H. cbn [df data_summary]. now rewrite E.
Qed.

Lemma to_datetime_error (parse_date : string -> option Timestamp)
    (cells : list datecell) (e : exn) :
  to_datetime parse_date cells = Raise e ->
  exists s, e = DateParseError s /\ In (DText s) cells /\ parse_date s = None.
Proof.
  induction cells as [|c cells IH]; simpl; [discriminate|].
  destruct c as [s|d|].
  - destruct (parse_date s) eqn:E.
    + destruct (to_datetime parse_date cells) as [ds|e'];
        [discriminate|]. simpl. intros H. inversion H; subst.
      destruct (IH eq_refl) as (s' & -> & Hin & Hs'). eauto 6.
    + intros H. inversion H; subst. eauto 6.
  - destruct (to_datetime parse_date cells) as [ds|e'];
      [discriminate|]. simpl. intros H. inversion H; subst.
    destruct (IH eq_refl) as (s' & -> & Hin & Hs'). eauto 6.
  - destruct (to_datetime parse_date cells) as [ds|e'];
      [discriminate|]. simpl. intros H. inversion H; subst.
    destruct (IH eq_refl) as (s' & -> & Hin & Hs'). eauto 6.
Qed.

(** Where [_clean_data] stops, and on which table. *)
Lemma clean_frame_stops (parse_date : string -> option Timestamp)
    (raw : DataFrame) :
  (has_column raw "date" = false ->
   clean_frame parse_date raw = (Raise (KeyError "date"), raw)) /\
  (has_column raw "date" = true ->
   ~ Forall (parses parse_date) (map date (rows raw)) ->
   exists s, clean_frame parse_date raw = (Raise (DateParseError s), raw)) /\
  (has_column raw "date" = true ->
   Forall (parses parse_date) (map date (rows raw)) ->
   has_column raw "revenue" = false ->
   clean_frame parse_date raw
   = (Raise (KeyError "revenue"), with_dates parse_date raw)) /\
  (has_column raw "date" = true ->
   Forall (parses parse_date) (map date (rows raw)) ->
   has_column raw "revenue" = true ->
   has_column raw "qty" = false ->
   clean_frame parse_date raw
   = (Raise (KeyError "qty"), with_outliers parse_date raw)).
Proof.
  split; [|split; [|split]].
  - intros Hd. unfold clean_frame. now rewrite get_absent by exact Hd.
  - intros Hd Hp. unfold clean_frame. rewrite get_present by exact Hd.
    destruct (to_datetime parse_date (map date (rows raw))) as [stamps|e]
      eqn:Et.
    + apply to_datetime_stamps in Et. tauto.
    + rewrite lift_raise.
      destruct (to_datetime_error _ _ _ Et) as (s & -> & _). eauto.
  - intros Hd Hp Hr. unfold clean_frame. rewrite get_present by exact Hd.
    rewrite (to_datetime_parses _ _ Hp), lift_ok, set_then.
    rewrite get_absent by (rewrite has_column_setitem, Hr; reflexivity).
    reflexivity.
  - intros Hd Hp Hr Hq. unfold clean_frame. rewrite get_present by exact Hd.
    rewrite (to_datetime_parses _ _ Hp), lift_ok, set_then.
    rewrite get_present by (rewrite has_column_setitem, Hr; reflexivity).
    rewrite set_then.
    rewrite get_present by (rewrite !has_column_setitem, Hr; reflexivity).
    rewrite get_absent by (rewrite !has_column_setitem, Hq; reflexivity).
    reflexivity.
Qed.

(** C3, as the code has it: a raw table that lacks a required column or
    holds a date that does not parse makes [load_dataset] raise, and
    [data_summary] stays what it was; [self.df], assigned before the
    cleaning, is the table that was read, cleaned up to the failing step:
    untouched when the failure is in the [date] column, with its dates
    converted when [revenue] is missing, with [is_outlier] added to that
    when [qty] is missing, and cleaned in full when the column missing is
    [store], [menu_item] or [customer_segment], which only the summary
    reads. *)
Theorem C3_invalid_input_raises (parse_date : string -> option Timestamp)
    (raw : DataFrame) (self : DataProcessor) :
  missing_required raw \/ unparseable_date parse_date raw ->
  exists e f',
    load_dataset parse_date (Ok raw) self
    = (Raise e, {| df := Some f'; data_summary := data_summary self |}) /\
    (has_column raw "date" = false \/ unparseable_date parse_date raw ->
     f' = raw) /\
    (has_column raw "date" = true ->
     Forall (parses parse_date) (map date (rows raw)) ->
     (has_column raw "revenue" = false -> f' = with_dates parse_date raw) /\
     (has_column raw "revenue" = true -> has_column raw "qty" = false ->
      f' = with_outliers parse_date raw) /\
     (has_column raw "revenue" = true -> has_column raw "qty" = true ->
      f' = normalize parse_date raw)).
Proof.
  intros H.
  destruct (clean_frame_stops parse_date raw) as (S1 & S2 & S3 & S4).
  destruct (clean_frame parse_date raw) as [[[]|e] f] eqn:E.
  - apply clean_frame_inv in E as E'.
    destruct E' as (Hd & Hr & Hq & Hp & ->).
    destruct (summarize (normalize parse_date raw)) as [s|e] eqn:Es.
    + exfalso. apply summarize_needs in Es.
      rewrite !has_column_normalize in Es. cbn [existsb derived_columns] in Es.
      destruct Es as (Hs & Hm & Hc).
      destruct H as [(label & Hin & Hl)|[_ Hn]]; [|tauto].
      unfold required_columns in Hin. cbn [In] in Hin.
      destruct Hin as [<-|[<-|[<-|[<-|[<-|[<-|[]]]]]]];
        rewrite Hl in *; try discriminate;
        cbn in Hs, Hm, Hc; discriminate.
    + exists e, (normalize parse_date raw). split; [|split].
      * now apply load_dataset_summary_raises.
      * intros [Hd'|[_ Hn]]; [congruence|tauto].
      * intros _ _. split; [congruence|]. split; [congruence|auto].
  - exists e, f. split; [now apply load_dataset_clean_raises|]. split.
    + intros [Hd|[Hd Hn]].
      * specialize (S1 Hd). now inversion S1.
      * destruct (S2 Hd Hn) as [s Es]. now inversion Es.
    + intros Hd Hp. split; [|split].
      * intros Hr. specialize (S3 Hd Hp Hr). now inversion S3.
      * intros Hr Hq. specialize (S4 Hd Hp Hr Hq). now inversion S4.
      * intros Hr Hq. rewrite (clean_frame_ok _ _ Hd Hr Hq Hp) in E.
        discriminate.
Qed.

Lemma C3_invalid_input_raises_witness :
  missing_required no_qty_frame /\
  exists e f',
    load_dataset parse_iso (Ok no_qty_frame) init
    = (Raise e, {| df := Some f'; data_summary := data_summary init |}) /\
    f' = with_outliers parse_iso no_qty_frame.
Proof.
  assert (H : missing_required no_qty_frame).
  { exists "qty". split; [simpl; tauto|reflexivity]. }
  split; [exact H|].
  destruct (C3_invalid_input_raises parse_iso no_qty_frame init
              (or_introl H)) as (e & f' & Hload & _ & Hstep).
  exists e, f'. split; [exact Hload|].
  apply Hstep; try reflexivity.
  repeat constructor; vm_compute; discriminate.
Defined.

(** C3 as stated fails: loading the scenario table without its [qty]
    column raises, yet the processor, which held no table, now holds the
    partly cleaned one ([is_outlier] is there, [avg_price] is not). *)
Lemma C3_counterexample :
  missing_required no_qty_frame /\
  fst (load_dataset parse_iso (Ok no_qty_frame) init)
  = Raise (KeyError "qty") /\
  df (snd (load_dataset parse_iso (Ok no_qty_frame) init)) <> df init /\
  exists partial,
    df (snd (load_dataset parse_iso (Ok no_qty_frame) init)) = Some partial /\
    has_column partial "is_outlier" = true /\
    has_column partial "avg_price" = false.
Proof.
  split; [exists "qty"; split; [simpl; tauto|reflexivity]|].
  split; [reflexivity|].
  split; [vm_compute; discriminate|].
  eexists. split; [vm_compute; reflexivity|]. split; reflexivity.
Qed.

(** ** The analyses only read the table

    Unlike [_clean_data], which assigns columns of [self.df], the analyses
    are made of reads of it: column look-ups, [groupby] and selections of
    rows into new frames. *)

Lemma reads_bind {A B : Type} (m : M DataFrame A) (k : A -> M DataFrame B) :
  reads m -> (forall a, reads (k a)) -> reads (mbind m k).
Proof.
  intros Hm Hk f. unfold mbind. specialize (Hm f).
  destruct (m f) as [[a|e] f']; cbn [snd] in *; subst f'.
  - apply Hk.
  - reflexivity.
Qed.

Lemma reads_get {A : Type} (label : string) (field : Row -> A) :
  reads (get label field).
Proof. intros f. reflexivity. Qed.

Lemma reads_table : reads table.
Proof. intros f. reflexivity. Qed.

Lemma reads_lift {A : Type} (r : result A) : reads (lift r).
Proof. intros f. reflexivity. Qed.

Lemma reads_mret {A : Type} (a : A) : reads (mret a).
Proof. intros f. reflexivity. Qed.

Lemma reads_str_accessor (label : string) : reads (str_accessor label).
Proof. intros f. reflexivity. Qed.

Lemma reads_select_rows (mask : list bool) : reads (select_rows mask).
Proof. intros f. reflexivity. Qed.

Create HintDb reads.
#[local] Hint Resolve reads_get reads_table reads_lift reads_mret
  reads_str_accessor reads_select_rows : reads.

Ltac reading :=
  repeat first [ progress auto with reads
               | apply reads_bind; [|intros ?] ].

Lemma sales_trends_reads : reads sales_trends_body.
Proof. unfold sales_trends_body. reading. Qed.

Lemma menu_performance_reads : reads menu_performance_body.
Proof. unfold menu_performance_body. reading. Qed.

Lemma customer_segments_reads : reads customer_segments_body.
Proof. unfold customer_segments_body. reading. Qed.

Lemma store_performance_reads : reads store_performance_body.
Proof. unfold store_performance_body. reading. Qed.

Lemma correlation_reads : reads correlation_body.
Proof. unfold correlation_body. reading. Qed.

Lemma str_lower_contains_reads (re_search : string -> option (string -> bool))
    (label : string) (field : Row -> option string) (query : string) :
  reads (str_lower_contains re_search label field query).
Proof. unfold str_lower_contains. reading. Qed.

Lemma search_reads (re_search : string -> option (string -> bool))
    (query : string) :
  reads (search_body re_search query).
Proof.
  unfold search_body.
  repeat (apply reads_bind; [apply str_lower_contains_reads|intros ?]).
  apply reads_select_rows.
Qed.

(** By contrast, [_clean_data] writes: on the scenario table it leaves
    another frame than it found. *)
Lemma clean_frame_writes : ~ reads (clean_frame parse_iso).
Proof.
  intros H. specialize (H (raw_frame scenario_rows)).
  vm_compute in H. discriminate.
Qed.

Lemma analysing_reads {A : Type} (body : M DataFrame A)
    (self : DataProcessor) :
  reads body -> snd (analysing body self) = self.
Proof.
  intros H. unfold analysing. destruct self as [[f|] summary]; cbn [df];
    [|reflexivity].
  specialize (H f). destruct (body f) as [r f']. cbn [snd] in *.
  now subst f'.
Qed.

Lemma search_data_reads (re_search : string -> option (string -> bool))
    (query : string) (self : DataProcessor) :
  snd (search_data re_search query self) = self.
Proof.
  unfold search_data. destruct self as [[f|] summary]; cbn [df];
    [|reflexivity].
  pose proof (search_reads re_search query f) as H.
  destruct (search_body re_search query f) as [r f']. cbn [snd] in *.
  now subst f'.
Qed.

Lemma reads_repeatable {A : Type} (m : M DataProcessor A) :
  (forall self, snd (m self) = self) -> repeatable m.
Proof.
  intros H self. pose proof (H self) as H1.
  destruct (m self) as [r1 self1] eqn:E1. simpl in H1. subst self1.
  rewrite E1. auto.
Qed.

(** What an analysis returns, as a function of the table. *)
Ltac body_value :=
  unfold mbind, get, table, lift, mret, getitem, bind;
  repeat match goal with
         | |- context [has_column ?f ?l] => destruct (has_column f l)
         end;
  cbn [fst snd]; try reflexivity.

Lemma sales_trends_eq (f : DataFrame) :
  sales_trends f
  = (_ <- getitem f "date" date ;;
     _ <- getitem f "revenue" revenue ;;
     _ <- getitem f "qty" qty ;;
     _ <- getitem f "month" month ;;
     _ <- getitem f "day_of_week" day_of_week ;;
     Ok {| daily_trends := daily_sales (rows f);
           monthly_trends := monthly_sales (rows f);
           weekly_patterns := weekly_pattern (rows f) |}).
Proof. unfold sales_trends, sales_trends_body. body_value. Qed.

Lemma menu_performance_of_eq (f : DataFrame) :
  menu_performance_of f
  = (_ <- getitem f "menu_item" menu_item ;;
     _ <- getitem f "revenue" revenue ;;
     _ <- getitem f "qty" qty ;;
     _ <- getitem f "avg_price" avg_price ;;
     let groups := menu_groups (rows f) in
     let totals := map (fun kg => isum (map revenue (snd kg))) groups in
     let max_frequency :=
       zmax (map (fun kg => Z.of_nat (List.length (snd kg))) groups) in
     let categories :=
       apply_axis1 (fun kg => categorize_performance totals
                                (of_int (isum (map revenue (snd kg)))))
                   groups in
     let menu_analysis :=
       map (menu_row max_frequency) (combine groups categories) in
     _ <- numeric_totals (rows f) ;;
     Ok {| menu_performance := menu_analysis;
           top_performers :=
             map brief (nlargest 10 mp_total_revenue menu_analysis);
           low_performers :=
             map brief (nsmallest 5 mp_total_revenue menu_analysis) |}).
Proof.
  unfold menu_performance_of, menu_performance_body. body_value.
  cbv zeta. destruct (numeric_totals (rows f)); reflexivity.
Qed.

Lemma customer_segments_of_eq (f : DataFrame) :
  customer_segments_of f
  = (_ <- getitem f "customer_segment" customer_segment ;;
     _ <- getitem f "revenue" revenue ;;
     _ <- getitem f "qty" qty ;;
     _ <- getitem f "avg_price" avg_price ;;
     comparison <- describe_groups (rows f) ;;
     Ok {| segment_performance :=
             map (segment_row (isum (map revenue (rows f))))
                 (segment_groups (rows f));
           comparison_statistics := describe_statistics (rows f);
           segment_comparison := comparison |}).
Proof.
  unfold customer_segments_of, customer_segments_body. body_value.
  cbv zeta. destruct (describe_groups (rows f)); reflexivity.
Qed.

Lemma store_performance_of_eq (f : DataFrame) :
  store_performance_of f
  = (_ <- getitem f "store" store ;;
     _ <- getitem f "revenue" revenue ;;
     _ <- getitem f "qty" qty ;;
     _ <- getitem f "menu_item" menu_item ;;
     dates <- getitem f "date" date ;;
     Ok {| store_performance :=
             map (store_row (nunique datecell_eqb (map some_date dates)))
                 (groupby String.compare store (rows f));
           store_popular_items :=
             map (fun s => (s, nlargest 5 snd
                                 (group_sums menu_item qty
                                    (filter (store_is s) (rows f)))))
                 (unique (option_eqb String.eqb) (map store (rows f))) |}).
Proof. unfold store_performance_of, store_performance_body. body_value. Qed.

Lemma correlation_of_eq (f : DataFrame) :
  correlation_of f
  = (rev <- getitem f "revenue" revenue ;;
     q <- getitem f "qty" qty ;;
     price <- getitem f "avg_price" avg_price ;;
     let numerical_cols :=
       [("revenue", map (fun z => Some (IZR z)) rev);
        ("qty", map (fun z => Some (IZR z)) q);
        ("avg_price", map to_real price)] in
     let correlation_matrix :=
       map (fun c => (fst c, map (fun r => (fst r, rround 3 (snd r)))
                                 (snd c)))
           (corr numerical_cols) in
     Ok {| correlation_matrix := correlation_matrix;
           insights :=
             {| price_qty_correlation :=
                  loc correlation_matrix "avg_price" "qty";
                price_revenue_correlation :=
                  loc correlation_matrix "avg_price" "revenue";
                qty_revenue_correlation :=
                  loc correlation_matrix "qty" "revenue" |} |}).
Proof. unfold correlation_of, correlation_body. body_value. Qed.

(** C9: each of the six analyses, called twice in succession on the same
    processor, returns the same result both times and leaves the
    processor, its table included, unchanged. *)
Theorem C9_analyses_repeatable (re_search : string -> option (string -> bool))
    (query : string) :
  repeatable get_sales_trends /\
  repeatable analyze_menu_performance /\
  repeatable analyze_customer_segments /\
  repeatable analyze_store_performance /\
  repeatable get_correlation_analysis /\
  repeatable (search_data re_search query).
Proof.
  repeat split; apply reads_repeatable; intros self;
    first [ apply search_data_reads
          | apply analysing_reads;
            first [ apply sales_trends_reads | apply menu_performance_reads
                  | apply customer_segments_reads
                  | apply store_performance_reads
                  | apply correlation_reads ] ].
Qed.

Lemma mbind_ok {S A B : Type} (m : M S A) (k : A -> M S B) (s s' : S)
    (a : A) :
  m s = (Ok a, s') -> mbind m k s = k a s'.
Proof. intros H. unfold mbind. now rewrite H. Qed.

Lemma mbind_raise {S A B : Type} (m : M S A) (k : A -> M S B) (s s' : S)
    (e : exn) :
  m s = (Raise e, s') -> mbind m k s = (Raise e, s').
Proof. intros H. unfold mbind. now rewrite H. Qed.

Lemma str_lower_contains_value
    (re_search : string -> option (string -> bool)) (label : string)
    (field : Row -> option string) (query : string) (f : DataFrame)
    (matches : string -> bool) :
  has_column f label = true ->
  is_object f label = true ->
  compile re_search query = Ok matches ->
  str_lower_contains re_search label field query f
  = (Ok (map (cell_matches matches) (map field (rows f))), f).
Proof.
  intros Hc Ho Hq.
  unfold str_lower_contains, str_accessor, mbind, get, lift, mret, getitem.
  now rewrite Hc, Ho, Hq.
Qed.

(** ** No table, or a table without rows *)

Lemma analysing_value {A : Type} (body : M DataFrame A) (f : DataFrame)
    (summary : pydict Summary) :
  fst (analysing body {| df := Some f; data_summary := summary |})
  = (a <- fst (body f) ;; Ok (Dict a)).
Proof. unfold analysing. cbn [df]. now destruct (body f). Qed.

Lemma search_data_value (re_search : string -> option (string -> bool))
    (query : string) (f : DataFrame) (summary : pydict Summary) :
  fst (search_data re_search query {| df := Some f; data_summary := summary |})
  = search_frame re_search query f.
Proof.
  unfold search_data, search_frame. cbn [df].
  now destruct (search_body re_search query f).
Qed.

Lemma raw_frame_csv_typed (l : list Row) : csv_typed (raw_frame l).
Proof.
  unfold csv_typed, is_object, raw_frame, inferred_objects.
  cbn [object_columns rows].
  destruct (holds_text store l), (holds_text menu_item l),
    (holds_text customer_segment l); repeat split; reflexivity.
Qed.

Lemma csv_typed_empty (f : DataFrame) :
  csv_typed f -> rows f = [] ->
  is_object f "store" = true /\ is_object f "menu_item" = true /\
  is_object f "customer_segment" = true.
Proof. intros (H1 & H2 & H3) E. rewrite H1, H2, H3, E. auto. Qed.

Lemma empty_table_normalized :
  exists f, df empty_table_state = Some f /\ normalized parse_iso f /\
            csv_typed f /\ rows f = [].
Proof.
  eexists. split; [vm_compute; reflexivity|].
  split; [|split; [|reflexivity]].
  - exists (raw_frame []). split.
    + intros label Hin. unfold required_columns in Hin. cbn [In] in Hin.
      destruct Hin as [<-|[<-|[<-|[<-|[<-|[<-|[]]]]]]]; reflexivity.
    + vm_compute. reflexivity.
  - repeat split.
Qed.

(** C2, as the code has it.  With no table loaded each of the six
    operations returns an empty result, [{}] or the empty frame, and the
    processor is left alone.  On a table without rows, as read from a file
    that holds the header only, the trends and the segment and store
    analyses return collections that are all empty, [segment_comparison]
    keeping the four statistic keys [describe] has for a column of dtype
    object; the correlation matrix holds NaN in every place; and search
    returns no rows for every query that compiles as a regular
    expression.  (Nothing is said here of the menu analysis on such a
    table.) *)
Theorem C2_absent_or_empty (parse_date : string -> option Timestamp)
    (re_search : string -> option (string -> bool)) (query : string)
    (summary : pydict Summary) :
  (let self := {| df := None; data_summary := summary |} in
   get_sales_trends self = (Ok EmptyDict, self) /\
   analyze_menu_performance self = (Ok EmptyDict, self) /\
   analyze_customer_segments self = (Ok EmptyDict, self) /\
   analyze_store_performance self = (Ok EmptyDict, self) /\
   get_correlation_analysis self = (Ok EmptyDict, self) /\
   search_data re_search query self = (Ok empty_frame, self)) /\
  (forall f, normalized parse_date f -> csv_typed f -> rows f = [] ->
   let self := {| df := Some f; data_summary := summary |} in
   get_sales_trends self
   = (Ok (Dict {| daily_trends := []; monthly_trends := [];
                  weekly_patterns := [] |}), self) /\
   analyze_customer_segments self
   = (Ok (Dict {| segment_performance := [];
                  comparison_statistics :=
                    ["count"; "unique"; "top"; "freq"];
                  segment_comparison := [] |}), self) /\
   analyze_store_performance self
   = (Ok (Dict {| store_performance := []; store_popular_items := [] |}),
      self) /\
   (exists ins,
      get_correlation_analysis self
      = (Ok (Dict {| correlation_matrix := nan_matrix; insights := ins |}),
         self)) /\
   (forall matches, compile re_search (lower query) = Ok matches ->
      search_data re_search query self
      = (Ok {| columns := columns f; rows := [];
               object_columns := object_columns f |}, self))).
Proof.
  split; [repeat split|].
  intros f H Ht Hrows self. subst self.
  assert (Hpair : forall {A : Type} (m : M DataProcessor A) self (r : result A),
            snd (m self) = self -> fst (m self) = r -> m self = (r, self)).
  { intros A m self r H1 H2. destruct (m self). cbn in *. congruence. }
  destruct (csv_typed_empty f Ht Hrows) as (Os & Om & Oc).
  unfold get_sales_trends, analyze_customer_segments,
    analyze_store_performance, get_correlation_analysis.
  split; [|split; [|split; [|split]]].
  - apply Hpair; [apply analysing_reads, sales_trends_reads|].
    rewrite analysing_value. fold (sales_trends f). rewrite sales_trends_eq.
    repeat present H. rewrite Hrows. reflexivity.
  - apply Hpair; [apply analysing_reads, customer_segments_reads|].
    rewrite analysing_value. fold (customer_segments_of f).
    rewrite customer_segments_of_eq. repeat present H. rewrite Hrows.
    reflexivity.
  - apply Hpair; [apply analysing_reads, store_performance_reads|].
    rewrite analysing_value. fold (store_performance_of f).
    rewrite store_performance_of_eq. repeat present H. rewrite Hrows.
    reflexivity.
  - eexists. apply Hpair; [apply analysing_reads, correlation_reads|].
    rewrite analysing_value. fold (correlation_of f).
    rewrite correlation_of_eq. repeat present H. rewrite Hrows.
    reflexivity.
  - intros matches Hc. apply Hpair; [apply search_data_reads|].
    rewrite search_data_value.
    unfold search_frame, search_body.
    rewrite (mbind_ok _ _ _ _ _
               (str_lower_contains_value re_search "menu_item" menu_item _ f
                  matches
                  (normalized_columns _ _ H "menu_item"
                     ltac:(simpl; auto 15))
                  Om Hc)).
    rewrite (mbind_ok _ _ _ _ _
               (str_lower_contains_value re_search "store" store _ f
                  matches
                  (normalized_columns _ _ H "store" ltac:(simpl; auto 15))
                  Os Hc)).
    rewrite (mbind_ok _ _ _ _ _
               (str_lower_contains_value re_search "customer_segment"
                  customer_segment _ f matches
                  (normalized_columns _ _ H "customer_segment"
                     ltac:(simpl; auto 15)) Oc Hc)).
    unfold select_rows. cbn [fst]. rewrite Hrows. reflexivity.
Qed.

Lemma C2_absent_or_empty_witness :
  exists f, df empty_table_state = Some f /\
    normalized parse_iso f /\ csv_typed f /\ rows f = [] /\
    fst (analyze_customer_segments empty_table_state)
    = Ok (Dict {| segment_performance := [];
                  comparison_statistics :=
                    ["count"; "unique"; "top"; "freq"];
                  segment_comparison := [] |}) /\
    fst (search_data re_fragment "es teh" empty_table_state)
    = Ok {| columns := columns f; rows := [];
            object_columns := object_columns f |}.
Proof.
  destruct empty_table_normalized as (f & Hf & Hn & Ht & Hr).
  exists f. split; [exact Hf|]. split; [exact Hn|]. split; [exact Ht|].
  split; [exact Hr|].
  destruct (C2_absent_or_empty parse_iso re_fragment "es teh"
              (data_summary empty_table_state)) as [_ H].
  specialize (H f Hn Ht Hr). cbn zeta in H.
  destruct H as (_ & Hseg & _ & _ & Hs).
  replace empty_table_state
    with {| df := Some f; data_summary := data_summary empty_table_state |}
    by (destruct empty_table_state as [d s]; simpl in Hf |- *; now rewrite Hf).
  rewrite Hseg. split; [reflexivity|].
  cbn [data_summary]. erewrite Hs; reflexivity.
Defined.

(** C2 as stated fails on a table without rows.  [load_dataset] of a file
    with a header and no rows leaves such a table in the processor.  What
    [get_correlation_analysis] returns on it is not empty, it is the
    three-by-three matrix of NaN; [analyze_menu_performance] raises on it,
    the [TypeError] of [nlargest] on a column of dtype object; and
    [search_data] raises on it when the query is not a regular
    expression. *)
Lemma C2_counterexample :
  (exists f, df empty_table_state = Some f /\ rows f = []) /\
  (exists ins,
     fst (get_correlation_analysis empty_table_state)
     = Ok (Dict {| correlation_matrix := nan_matrix; insights := ins |})) /\
  nan_matrix <> [] /\
  (exists msg,
     fst (analyze_menu_performance empty_table_state)
     = Raise (PyTypeError msg)) /\
  fst (search_data re_fragment "(" empty_table_state) = Raise (ReError "(").
Proof.
  split; [|split; [|split; [|split]]].
  - eexists. split; [vm_compute; reflexivity|reflexivity].
  - eexists. reflexivity.
  - discriminate.
  - eexists. vm_compute. reflexivity.
  - vm_compute. reflexivity.
Qed.

(** ** groupby *)

Lemma zsum_app (l1 l2 : list Z) : zsum (l1 ++ l2) = zsum l1 + zsum l2.
Proof. induction l1; simpl; lia. Qed.

Section GroupByFacts.
Context {K A : Type} (cmp : K -> K -> comparison).

(** Grouping is a partition of the rows that have a key: no order law is
    needed for that. *)
Lemma groups_total_insert (w : A -> Z) (k : K) (a : A)
    (gs : list (K * list A)) :
  groups_total w (insert_group cmp k a gs) = groups_total w gs + w a.
Proof.
  unfold groups_total. induction gs as [|[k' g] rest IH]; simpl.
  - lia.
  - destruct (cmp k k'); simpl.
    + rewrite map_app, zsum_app. simpl. lia.
    + lia.
    + rewrite IH. lia.
Qed.

Lemma groups_total_fold (w : A -> Z) (key : A -> option K) (l : list A)
    (gs : list (K * list A)) :
  groups_total w
    (fold_left (fun gs a => match key a with
                            | Some k => insert_group cmp k a gs
                            | None => gs
                            end) l gs)
  = groups_total w gs + zsum (map w (filter (has_key key) l)).
Proof.
  revert gs. induction l as [|a l IH]; intros gs; simpl.
  - lia.
  - rewrite IH. unfold has_key at 2. destruct (key a); simpl.
    + rewrite groups_total_insert. lia.
    + lia.
Qed.

Theorem groupby_partition (w : A -> Z) (key : A -> option K) (l : list A) :
  groups_total w (groupby cmp key l) = zsum (map w (filter (has_key key) l)).
Proof. unfold groupby. rewrite groups_total_fold. reflexivity. Qed.

Hypothesis laws : order_laws cmp.

Lemma cmp_refl (k : K) : cmp k k = Eq.
Proof. now apply (cmp_eq cmp laws). Qed.

Lemma cmp_gt_lt (a b : K) : cmp a b = Gt -> cmp b a = Lt.
Proof. intros H. now rewrite (cmp_antisym cmp laws a b), H. Qed.

Lemma cmp_lt_gt (a b : K) : cmp a b = Lt -> cmp b a = Gt.
Proof. intros H. now rewrite (cmp_antisym cmp laws a b), H. Qed.

Lemma insert_group_keys (P : K -> Prop) (k : K) (a : A)
    (gs : list (K * list A)) :
  P k -> Forall (fun kg => P (fst kg)) gs ->
  Forall (fun kg => P (fst kg)) (insert_group cmp k a gs).
Proof.
  intros Hk. induction 1 as [|[k' g] rest Hh Ht IH]; simpl.
  - constructor; auto.
  - destruct (cmp k k'); constructor; auto.
Qed.

Lemma insert_group_ascending (k : K) (a : A) (gs : list (K * list A)) :
  ascending_keys cmp gs -> ascending_keys cmp (insert_group cmp k a gs).
Proof.
  unfold ascending_keys.
  induction 1 as [|[k' g] rest Hs IH Hf]; simpl.
  - constructor; constructor.
  - destruct (cmp k k') eqn:E.
    + constructor; assumption.
    + constructor.
      * constructor; assumption.
      * constructor; [exact E|].
        eapply Forall_impl; [|exact Hf]. intros [k2 g2] H2. simpl in *.
        eapply (cmp_trans cmp laws); eassumption.
    + constructor; [exact IH|].
      apply (insert_group_keys (fun x => cmp k' x = Lt)).
      * now apply cmp_gt_lt.
      * exact Hf.
Qed.

Lemma fold_ascending (key : A -> option K) (l : list A)
    (gs : list (K * list A)) :
  ascending_keys cmp gs ->
  ascending_keys cmp
    (fold_left (fun gs a => match key a with
                            | Some k => insert_group cmp k a gs
                            | None => gs
                            end) l gs).
Proof.
  revert gs. induction l as [|a l IH]; intros gs H; simpl; [exact H|].
  apply IH. destruct (key a); [now apply insert_group_ascending|exact H].
Qed.

(** The groups come out in ascending key order. *)
Theorem groupby_ascending (key : A -> option K) (l : list A) :
  ascending_keys cmp (groupby cmp key l).
Proof. apply fold_ascending. constructor. Qed.

Lemma group_of_below (k : K) (gs : list (K * list A)) :
  Forall (fun kg => cmp k (fst kg) = Lt) gs -> group_of cmp k gs = [].
Proof.
  induction 1 as [|[k' g] rest Hh Ht IH]; simpl; [reflexivity|].
  simpl in Hh. now rewrite Hh.
Qed.

Lemma group_of_insert (k0 k : K) (a : A) (gs : list (K * list A)) :
  ascending_keys cmp gs ->
  group_of cmp k0 (insert_group cmp k a gs)
  = match cmp k0 k with
    | Eq => group_of cmp k0 gs ++ [a]
    | _ => group_of cmp k0 gs
    end.
Proof.
  unfold ascending_keys.
  induction 1 as [|[k' g] rest Hs IH Hf]; simpl.
  - now destruct (cmp k0 k).
  - destruct (cmp k k') eqn:E.
    + apply (cmp_eq cmp laws) in E. subst k'. simpl.
      now destruct (cmp k0 k).
    + simpl. destruct (cmp k0 k) eqn:E0; try reflexivity.
      apply (cmp_eq cmp laws) in E0. subst k0. rewrite E.
      rewrite group_of_below; [reflexivity|].
      eapply Forall_impl; [|exact Hf]. intros [k2 g2] H2. simpl in *.
      eapply (cmp_trans cmp laws); eassumption.
    + simpl. destruct (cmp k0 k') eqn:E1.
      * apply (cmp_eq cmp laws) in E1. subst k0.
        rewrite (cmp_antisym cmp laws k k'), E. reflexivity.
      * exact IH.
      * exact IH.
Qed.

Lemma group_of_fold (key : A -> option K) (k0 : K) (l : list A)
    (gs : list (K * list A)) :
  ascending_keys cmp gs ->
  group_of cmp k0
    (fold_left (fun gs a => match key a with
                            | Some k => insert_group cmp k a gs
                            | None => gs
                            end) l gs)
  = group_of cmp k0 gs ++ filter (key_is cmp key k0) l.
Proof.
  revert gs. induction l as [|a l IH]; intros gs H; simpl.
  - now rewrite app_nil_r.
  - assert (Ha : key_is cmp key k0 a
                 = match key a with
                   | Some k => match cmp k0 k with Eq => true | _ => false end
                   | None => false
                   end) by reflexivity.
    rewrite Ha. clear Ha. destruct (key a) as [k|].
    + rewrite IH by now apply insert_group_ascending.
      rewrite group_of_insert by exact H.
      destruct (cmp k0 k); [now rewrite <- app_assoc|reflexivity..].
    + now apply IH.
Qed.

(** A key's group holds exactly the rows with that key, in table
    order. *)
Theorem group_of_groupby (key : A -> option K) (k0 : K) (l : list A) :
  group_of cmp k0 (groupby cmp key l) = filter (key_is cmp key k0) l.
Proof. unfold groupby. rewrite group_of_fold; [reflexivity|constructor]. Qed.

Lemma in_group_of (k : K) (g : list A) (gs : list (K * list A)) :
  ascending_keys cmp gs -> In (k, g) gs -> group_of cmp k gs = g.
Proof.
  unfold ascending_keys.
  induction 1 as [|[k' g'] rest Hs IH Hf]; simpl; [tauto|].
  intros [H|H].
  - inversion H; subst. now rewrite cmp_refl.
  - rewrite Forall_forall in Hf. specialize (Hf _ H). simpl in Hf.
    rewrite (cmp_lt_gt _ _ Hf). now apply IH.
Qed.

Theorem groupby_group (key : A -> option K) (k : K) (g : list A)
    (l : list A) :
  In (k, g) (groupby cmp key l) -> g = filter (key_is cmp key k) l.
Proof.
  intros H. rewrite <- group_of_groupby.
  symmetry. apply in_group_of; [apply groupby_ascending|exact H].
Qed.

Lemma group_of_in (k : K) (gs : list (K * list A)) :
  group_of cmp k gs <> [] -> In (k, group_of cmp k gs) gs.
Proof.
  induction gs as [|[k' g] rest IH]; simpl; [tauto|].
  destruct (cmp k k') eqn:E; intros H.
  - apply (cmp_eq cmp laws) in E. subst. now left.
  - right. now apply IH.
  - right. now apply IH.
Qed.

(** Every row with a key is in the group of its key. *)
Theorem groupby_complete (key : A -> option K) (k : K) (a : A)
    (l : list A) :
  In a l -> key a = Some k ->
  In (k, filter (key_is cmp key k) l) (groupby cmp key l).
Proof.
  intros Hin Hk. rewrite <- group_of_groupby. apply group_of_in.
  rewrite group_of_groupby. intros E.
  assert (Ha : In a (filter (key_is cmp key k) l)).
  { apply filter_In. split; [exact Hin|].
    unfold key_is. now rewrite Hk, cmp_refl. }
  rewrite E in Ha. exact Ha.
Qed.
End GroupByFacts.

(** ** The orders the tables are grouped by *)

Lemma ascii_compare_trans (a b c : ascii) :
  Ascii.compare a b = Lt -> Ascii.compare b c = Lt -> Ascii.compare a c = Lt.
Proof.
  unfold Ascii.compare. rewrite !N.compare_lt_iff. apply N.lt_trans.
Qed.

Lemma string_compare_trans (s1 s2 s3 : string) :
  String.compare s1 s2 = Lt -> String.compare s2 s3 = Lt ->
  String.compare s1 s3 = Lt.
Proof.
  revert s2 s3. induction s1 as [|c1 s1 IH]; intros [|c2 s2] [|c3 s3];
    simpl; try congruence.
  destruct (Ascii.compare c1 c2) eqn:E12; try discriminate;
    destruct (Ascii.compare c2 c3) eqn:E23; try discriminate; intros H1 H2.
  - apply Ascii.compare_eq_iff in E12, E23. subst.
    replace (Ascii.compare c3 c3) with Eq
      by (symmetry; unfold Ascii.compare; apply N.compare_refl).
    eapply IH; eassumption.
  - apply Ascii.compare_eq_iff in E12. subst. now rewrite E23.
  - apply Ascii.compare_eq_iff in E23. subst. now rewrite E12.
  - now rewrite (ascii_compare_trans _ _ _ E12 E23).
Qed.

Lemma string_compare_refl (s : string) : String.compare s s = Eq.
Proof.
  induction s as [|c s IH]; simpl; [reflexivity|].
  unfold Ascii.compare. now rewrite N.compare_refl.
Qed.

Lemma string_order : order_laws String.compare.
Proof.
  constructor.
  - intros a b. split; [apply String.compare_eq_iff|].
    intros ->. apply string_compare_refl.
  - intros a b. apply String.compare_antisym.
  - apply string_compare_trans.
Qed.

Lemma Z_order : order_laws Z.compare.
Proof.
  constructor.
  - apply Z.compare_eq_iff.
  - intros a b. apply Z.compare_antisym.
  - intros a b c. rewrite !Z.compare_lt_iff. lia.
Qed.

Lemma date_order : order_laws date_compare.
Proof.
  constructor.
  - intros [y m d] [y' m' d']. unfold date_compare. simpl.
    destruct (Z.compare_spec y y'), (Z.compare_spec m m'),
      (Z.compare_spec d d'); split; intros E; try discriminate;
      subst; try reflexivity; inversion E; lia.
  - intros [y m d] [y' m' d']. unfold date_compare. simpl.
    rewrite (Z.compare_antisym y y'), (Z.compare_antisym m m'),
      (Z.compare_antisym d d').
    destruct (y ?= y'); simpl; try reflexivity.
    destruct (m ?= m'); simpl; reflexivity.
  - intros [y m d] [y' m' d'] [y2 m2 d2]. unfold date_compare. simpl.
    destruct (Z.compare_spec y y'), (Z.compare_spec m m'),
      (Z.compare_spec d d'), (Z.compare_spec y' y2), (Z.compare_spec m' m2),
      (Z.compare_spec d' d2); intros; try discriminate; subst;
      repeat match goal with
             | |- context [?a ?= ?b] => destruct (Z.compare_spec a b)
             end; try reflexivity; lia.
Qed.

Lemma datecell_order : order_laws datecell_compare.
Proof.
  constructor.
  - intros [s|d|] [s'|d'|]; simpl; split; intros H; try discriminate;
      try reflexivity.
    + apply (cmp_eq _ string_order) in H. now subst.
    + inversion H. now apply (cmp_eq _ string_order).
    + apply (cmp_eq _ date_order) in H. now subst.
    + inversion H. now apply (cmp_eq _ date_order).
  - intros [s|d|] [s'|d'|]; simpl; try reflexivity.
    + apply (cmp_antisym _ string_order).
    + apply (cmp_antisym _ date_order).
  - intros [s|d|] [s'|d'|] [s2|d2|]; simpl; try congruence.
    + apply (cmp_trans _ string_order).
    + apply (cmp_trans _ date_order).
Qed.

Section GroupsNonEmpty.
Context {K A : Type} (cmp : K -> K -> comparison).

Lemma insert_group_nonempty (k : K) (a : A) (gs : list (K * list A)) :
  Forall (fun kg => snd kg <> []) gs ->
  Forall (fun kg => snd kg <> []) (insert_group cmp k a gs).
Proof.
  induction 1 as [|[k' g] rest Hh Ht IH]; simpl.
  - constructor; [discriminate|constructor].
  - destruct (cmp k k'); constructor; auto; simpl.
    + now destruct g.
    + discriminate.
Qed.

Lemma groupby_nonempty_groups (key : A -> option K) (l : list A) :
  Forall (fun kg => snd kg <> []) (groupby cmp key l).
Proof.
  unfold groupby. generalize (@nil (K * list A)) (Forall_nil
    (fun kg : K * list A => snd kg <> [])).
  induction l as [|a l IH]; intros gs H; simpl; [exact H|].
  apply IH. destruct (key a); [now apply insert_group_nonempty|exact H].
Qed.

(** Every group is the group of one of the table's keys. *)
Lemma groupby_key_occurs (laws : order_laws cmp) (key : A -> option K)
    (k : K) (g : list A) (l : list A) :
  In (k, g) (groupby cmp key l) -> exists a, In a l /\ key a = Some k.
Proof.
  intros H. pose proof (groupby_nonempty_groups key l) as Hne.
  rewrite Forall_forall in Hne. specialize (Hne _ H). simpl in Hne.
  pose proof (groupby_group cmp laws key k g l H) as Hg.
  destruct g as [|a g]; [congruence|].
  assert (Ha : In a (filter (key_is cmp key k) l))
    by (rewrite <- Hg; now left).
  apply filter_In in Ha. destruct Ha as [Hin Hk]. exists a. split; [exact Hin|].
  unfold key_is in Hk. destruct (key a) as [k'|]; [|discriminate].
  destruct (cmp k k') eqn:E; try discriminate.
  apply (cmp_eq cmp laws) in E. now subst.
Qed.
End GroupsNonEmpty.

Lemma combine_map_r {A B : Type} (c : A -> B) (l : list A) :
  combine l (map c l) = map (fun a => (a, c a)) l.
Proof. induction l; simpl; congruence. Qed.

Lemma filter_all {A : Type} (p : A -> bool) (l : list A) :
  (forall a, In a l -> p a = true) -> filter p l = l.
Proof.
  induction l as [|a l IH]; simpl; intros H; [reflexivity|].
  rewrite (H a) by now left. f_equal. apply IH. intros b Hb. apply H. now right.
Qed.

(** ** Sums within int64 *)

Lemma int64_small (z : Z) : - 2 ^ 63 <= z < 2 ^ 63 -> int64 z = z.
Proof.
  intros H. unfold int64. rewrite Z.mod_small; [lia|].
  change (2 ^ 64) with (2 ^ 63 + 2 ^ 63). lia.
Qed.

Lemma zsum_abs (l : list Z) : Z.abs (zsum l) <= zsum (map Z.abs l).
Proof. induction l as [|a l IH]; cbn [zsum fold_right map]; unfold zsum in *; lia. Qed.

Lemma fits_filter {A : Type} (w : A -> Z) (p : A -> bool) (l : list A) :
  fits (map w l) -> fits (map w (filter p l)).
Proof.
  unfold fits. intros H.
  assert (Hle : zsum (map Z.abs (map w (filter p l)))
                <= zsum (map Z.abs (map w l))); [|lia].
  clear H. induction l as [|a l IH]; [reflexivity|].
  cbn [filter]. destruct (p a); cbn [map zsum fold_right];
    unfold zsum in *; lia.
Qed.

Lemma isum_fits (l : list Z) : fits l -> isum l = zsum l.
Proof.
  unfold fits, isum. intros H. apply int64_small.
  pose proof (zsum_abs l). lia.
Qed.

Lemma isum_filter {A : Type} (w : A -> Z) (p : A -> bool) (l : list A) :
  fits (map w l) -> isum (map w (filter p l)) = zsum (map w (filter p l)).
Proof. intros H. apply isum_fits. now apply fits_filter. Qed.

Section GroupSums.
Context {K : Type} (cmp : K -> K -> comparison).
Hypothesis laws : order_laws cmp.

(** The sum of a group does not wrap around when the column's does
    not. *)
Lemma isum_group (w : Row -> Z) (key : Row -> option K) (l : list Row)
    (k : K) (g : list Row) :
  fits (map w l) -> In (k, g) (groupby cmp key l) ->
  isum (map w g) = zsum (map w g).
Proof.
  intros H Hin. rewrite (groupby_group cmp laws key k g l Hin).
  now apply isum_filter.
Qed.

Lemma isum_groups_total (w : Row -> Z) (key : Row -> option K)
    (l : list Row) :
  fits (map w l) ->
  zsum (map (fun kg => isum (map w (snd kg))) (groupby cmp key l))
  = zsum (map w (filter (has_key key) l)).
Proof.
  intros H. rewrite <- (groupby_partition cmp w key l). unfold groups_total.
  f_equal. apply map_ext_in. intros [k g] Hin. cbn [snd].
  exact (isum_group w key l k g H Hin).
Qed.
End GroupSums.

(** ** Rounding to two decimals, and sums of decimals *)

Lemma round_half_even_close (q : Q) :
  (- (1 # 2) <= inject_Z (round_half_even q) - q <= 1 # 2)%Q.
Proof.
  unfold round_half_even.
  pose proof (Qfloor_le q) as Hlo. pose proof (Qlt_floor q) as Hhi.
  rewrite inject_Z_plus in Hhi. change (inject_Z 1) with 1%Q in Hhi.
  destruct ((q - inject_Z (Qfloor q)) ?= (1 # 2))%Q eqn:E.
  - apply Qeq_alt in E. destruct (Z.even (Qfloor q));
      rewrite ?inject_Z_plus; change (inject_Z 1) with 1%Q; lra.
  - apply Qlt_alt in E. lra.
  - apply Qgt_alt in E. rewrite inject_Z_plus.
    change (inject_Z 1) with 1%Q. lra.
Qed.

Lemma qround_2_close (q : Q) : (Qabs (qround 2 q - q) <= 1 # 200)%Q.
Proof.
  unfold qround. rewrite Qred_correct.
  change (inject_Z (10 ^ Z.of_nat 2)) with 100%Q.
  pose proof (round_half_even_close (q * 100)) as H.
  apply Qabs_Qle_condition.
  set (n := inject_Z (round_half_even (q * 100))) in *.
  assert (E : (n / 100 - q == (n - q * 100) / 100)%Q) by field.
  rewrite E. unfold Qdiv. change (/ 100)%Q with (1 # 100)%Q.
  lra.
Qed.

Lemma qsum_cons (a : Q) (l : list Q) : qsum (a :: l) = (a + qsum l)%Q.
Proof. reflexivity. Qed.

Lemma qsum_app (l1 l2 : list Q) : (qsum (l1 ++ l2) == qsum l1 + qsum l2)%Q.
Proof.
  induction l1 as [|a l1 IH]; cbn [app].
  - change (qsum []) with 0%Q. ring.
  - rewrite !qsum_cons, IH. ring.
Qed.

Section QGroups.
Context {K A : Type} (cmp : K -> K -> comparison).

Lemma qgroups_total_insert (w : A -> Q) (k : K) (a : A)
    (gs : list (K * list A)) :
  (qgroups_total w (insert_group cmp k a gs) == qgroups_total w gs + w a)%Q.
Proof.
  unfold qgroups_total.
  induction gs as [|[k' g] rest IH]; cbn [insert_group map snd].
  - rewrite !qsum_cons. change (qsum []) with 0%Q. ring.
  - destruct (cmp k k'); cbn [map snd]; rewrite ?qsum_cons.
    + rewrite map_app, qsum_app. cbn [map]. rewrite qsum_cons.
      change (qsum []) with 0%Q. ring.
    + change (qsum []) with 0%Q. ring.
    + rewrite IH. ring.
Qed.

Lemma qgroups_total_fold (w : A -> Q) (key : A -> option K) (l : list A)
    (gs : list (K * list A)) :
  (qgroups_total w
    (fold_left (fun gs a => match key a with
                            | Some k => insert_group cmp k a gs
                            | None => gs
                            end) l gs)
   == qgroups_total w gs + qsum (map w (filter (has_key key) l)))%Q.
Proof.
  revert gs. induction l as [|a l IH]; intros gs; cbn [fold_left filter map].
  - change (qsum []) with 0%Q. ring.
  - rewrite IH. unfold has_key at 2. destruct (key a); cbn [map].
    + rewrite qgroups_total_insert, qsum_cons. ring.
    + reflexivity.
Qed.

Lemma groupby_qpartition (w : A -> Q) (key : A -> option K) (l : list A) :
  (qgroups_total w (groupby cmp key l)
   == qsum (map w (filter (has_key key) l)))%Q.
Proof.
  unfold groupby. rewrite qgroups_total_fold.
  unfold qgroups_total. cbn [map]. change (qsum []) with 0%Q. ring.
Qed.
End QGroups.

Lemma qsum_close_by (b : Q) (exact approx : list Q) :
  Forall2 (fun a e => (Qabs (a - e) <= b)%Q) approx exact ->
  (Qabs (qsum approx - qsum exact)
   <= b * inject_Z (Z.of_nat (List.length approx)))%Q.
Proof.
  induction 1 as [|a e approx exact Hae _ IH].
  - change (qsum []) with 0%Q. cbn [List.length].
    apply Qabs_Qle_condition. change (inject_Z (Z.of_nat 0)) with 0%Q.
    split; lra.
  - rewrite !qsum_cons. cbn [List.length].
    rewrite Nat2Z.inj_succ. unfold Z.succ. rewrite inject_Z_plus.
    change (inject_Z 1) with 1%Q.
    apply Qabs_Qle_condition in Hae, IH. apply Qabs_Qle_condition.
    set (n := inject_Z (Z.of_nat (List.length approx))) in *.
    set (x := qsum approx) in *. set (y := qsum exact) in *.
    split; nra.
Qed.

Lemma qsum_scaled (c : Q) (l : list Q) :
  (qsum (map (fun x => x * c) l) == qsum l * c)%Q.
Proof.
  induction l as [|a l IH]; cbn [map].
  - change (qsum []) with 0%Q. ring.
  - rewrite !qsum_cons, IH. ring.
Qed.

Lemma decimal_totals_close (sales : list (option string * Q)) :
  (forall s, In s sales -> fst s <> None) ->
  (Qabs (qsum (map snd (decimal_totals sales)) - qsum (map snd sales))
   <= (1 # 200) * inject_Z (Z.of_nat (List.length (decimal_totals sales))))%Q.
Proof.
  intros Hkeys. unfold decimal_totals.
  set (gs := groupby String.compare fst sales).
  assert (E : (qsum (map snd sales)
               == qsum (map (fun kg : string * list (option string * Q) =>
                               qsum (map snd (snd kg))) gs))%Q).
  { pose proof (groupby_qpartition String.compare snd fst sales) as H.
    unfold qgroups_total in H. fold gs in H. rewrite H.
    rewrite filter_all; [reflexivity|].
    intros s Hs. unfold has_key. specialize (Hkeys s Hs).
    now destruct (fst s). }
  rewrite E, map_map. cbn [snd].
  rewrite length_map.
  rewrite <- (length_map (fun kg : string * list (option string * Q) =>
                  qround 2 (qsum (map snd (snd kg)))) gs).
  apply (qsum_close_by (1 # 200)).
  clear. induction gs as [|kg gs IH]; cbn [map]; constructor; [|exact IH].
  apply qround_2_close.
Qed.

Lemma share_close (t total : Q) :
  ~ (total == 0)%Q ->
  (Qabs (qround 2 (qround 2 t / total * 100) - t / total * 100)
   <= (1 # 200) + (1 # 2) / Qabs total)%Q.
Proof.
  intros Hne.
  pose proof (qround_2_close (qround 2 t / total * 100)) as H1.
  pose proof (qround_2_close t) as H2.
  set (r := qround 2 t) in *. set (x := (r / total * 100)%Q) in *.
  set (s := qround 2 x) in *.
  assert (Habs : (0 < Qabs total)%Q).
  { destruct (Qlt_le_dec 0 (Qabs total)) as [Hp|Hn]; [exact Hp|].
    exfalso. apply Hne. apply Qabs_Qle_condition in Hn. lra. }
  assert (E : (s - t / total * 100 == (s - x) + (r - t) * (100 / total))%Q).
  { unfold x. field. exact Hne. }
  rewrite E.
  eapply Qle_trans; [apply Qabs_triangle|].
  apply Qplus_le_compat; [exact H1|].
  rewrite Qabs_Qmult.
  assert (E2 : (Qabs (100 / total) == 100 / Qabs total)%Q).
  { unfold Qdiv. rewrite Qabs_Qmult, Qabs_Qinv. reflexivity. }
  rewrite E2.
  assert (E3 : ((1 # 2) / Qabs total == (1 # 200) * (100 / Qabs total))%Q).
  { field. lra. }
  rewrite E3.
  apply Qmult_le_compat_r; [exact H2|].
  apply Qle_shift_div_l; [exact Habs|]. lra.
Qed.

Lemma decimal_shares_close (sales : list (option string * Q)) :
  (forall s, In s sales -> fst s <> None) ->
  ~ (qsum (map snd sales) == 0)%Q ->
  (Qabs (qsum (map snd (decimal_shares sales)) - 100)
   <= ((1 # 200) + (1 # 2) / Qabs (qsum (map snd sales)))
      * inject_Z (Z.of_nat (List.length (decimal_shares sales))))%Q.
Proof.
  intros Hkeys Hne. unfold decimal_shares, decimal_totals. cbv zeta.
  set (total := qsum (map snd sales)) in *.
  set (gs := groupby String.compare fst sales).
  set (t := fun kg : string * list (option string * Q) =>
              qsum (map snd (snd kg))).
  assert (E : (qsum (map (fun kg => t kg / total * 100) gs) == 100)%Q).
  { assert (Es : (qsum (map (fun kg => t kg / total * 100) gs)
                  == qsum (map t gs) * (/ total * 100))%Q).
    { rewrite <- qsum_scaled, map_map.
      clear. induction gs as [|kg gs IH]; cbn [map]; [reflexivity|].
      rewrite !qsum_cons, IH. unfold Qdiv. ring. }
    rewrite Es.
    pose proof (groupby_qpartition String.compare snd fst sales) as H.
    unfold qgroups_total in H. fold gs in H. fold t in H. rewrite H.
    rewrite filter_all.
    - fold total. field. exact Hne.
    - intros s Hs. unfold has_key. specialize (Hkeys s Hs).
      now destruct (fst s). }
  rewrite <- E. rewrite !map_map. cbn [fst snd]. rewrite length_map.
  rewrite <- (length_map (fun kg : string * list (option string * Q) =>
                  qround 2 (qround 2 (t kg) / total * 100)) gs).
  apply qsum_close_by.
  clear E. induction gs as [|kg gs IH]; cbn [map]; constructor; [|exact IH].
  now apply share_close.
Qed.

(** ** Menu performance *)

Lemma menu_performance_of_groups (parse_date : string -> option Timestamp)
    (f : DataFrame) :
  normalized parse_date f ->
  rows f <> [] ->
  exists ma,
    menu_performance_of f = Ok ma /\
    exists max_frequency category,
      menu_performance ma
      = map (fun kg => menu_row max_frequency (kg, category kg))
            (menu_groups (rows f)).
Proof.
  intros H Hne. rewrite menu_performance_of_eq. repeat present H.
  cbn [bind]. cbv zeta. unfold apply_axis1.
  destruct (rows f) as [|r0 l0] eqn:E; [congruence|]. cbn [numeric_totals].
  eexists. split; [reflexivity|].
  cbn [menu_performance]. rewrite combine_map_r, map_map.
  do 2 eexists. reflexivity.
Qed.

(** C4, as the code has it.  On a table that has rows, whose revenues are
    whole numbers (an int64 column) with sums within int64, and in which
    every row names its menu item, the per-item [total_revenue] figures of
    [menu_performance] add up to the sum of the [revenue] column.  On a
    column of decimals the per-item totals are rounded to two decimals,
    and add up to the sum of the column to within 0.005 per item.  (A row
    without a menu item belongs to no group.) *)
Theorem C4_menu_revenue_partition (parse_date : string -> option Timestamp) :
  (forall f,
     normalized parse_date f ->
     rows f <> [] ->
     within_int64 f ->
     (forall r, In r (rows f) -> menu_item r <> None) ->
     exists ma,
       menu_performance_of f = Ok ma /\
       zsum (map mp_total_revenue (menu_performance ma))
       = zsum (map revenue (rows f)) /\
       isum (map revenue (rows f)) = zsum (map revenue (rows f))) /\
  (forall sales,
     (forall s, In s sales -> fst s <> None) ->
     (Qabs (qsum (map snd (decimal_totals sales)) - qsum (map snd sales))
      <= (1 # 200)
         * inject_Z (Z.of_nat (List.length (decimal_totals sales))))%Q).
Proof.
  split; [|exact decimal_totals_close].
  intros f H Hne [Hfit _] Hitems.
  destruct (menu_performance_of_groups parse_date f H Hne)
    as (ma & Hma & mf & cat & Hmp).
  exists ma. split; [exact Hma|]. split; [|now apply isum_fits].
  rewrite Hmp, map_map. cbn [menu_row mp_total_revenue fst snd].
  unfold menu_groups.
  rewrite (isum_groups_total String.compare string_order revenue menu_item
             (rows f) Hfit).
  rewrite filter_all; [reflexivity|].
  intros r Hr. unfold has_key. specialize (Hitems r Hr).
  now destruct (menu_item r).
Qed.

Lemma scenario_normalized :
  exists f, df (loaded scenario_rows) = Some f /\ normalized parse_iso f /\
            rows f <> [] /\
            (forall r, In r (rows f) -> menu_item r <> None) /\
            (forall r, In r (rows f) -> customer_segment r <> None).
Proof.
  eexists. split; [vm_compute; reflexivity|]. split; [|split; [|split]].
  - exists (raw_frame scenario_rows). split.
    + intros label Hin. unfold required_columns in Hin. cbn [In] in Hin.
      destruct Hin as [<-|[<-|[<-|[<-|[<-|[<-|[]]]]]]]; reflexivity.
    + vm_compute. reflexivity.
  - discriminate.
  - intros r Hr. cbn [rows In] in Hr.
    destruct Hr as [<-|[<-|[<-|[]]]]; discriminate.
  - intros r Hr. cbn [rows In] in Hr.
    destruct Hr as [<-|[<-|[<-|[]]]]; discriminate.
Qed.

Lemma scenario_within_int64 :
  forall f, df (loaded scenario_rows) = Some f -> within_int64 f.
Proof.
  intros f Hf. vm_compute in Hf. injection Hf as <-.
  split; vm_compute; reflexivity.
Qed.

Lemma C4_menu_revenue_partition_witness :
  (exists f, df (loaded scenario_rows) = Some f /\
     exists ma,
       menu_performance_of f = Ok ma /\
       zsum (map mp_total_revenue (menu_performance ma))
       = zsum (map revenue (rows f))) /\
  (Qabs (qsum (map snd (decimal_totals decimal_menu_sales))
         - qsum (map snd decimal_menu_sales))
   <= (1 # 200)
      * inject_Z (Z.of_nat
                    (List.length (decimal_totals decimal_menu_sales))))%Q.
Proof.
  split.
  - destruct scenario_normalized as (f & Hf & Hn & Hr & Hi & _).
    exists f. split; [exact Hf|].
    destruct (proj1 (C4_menu_revenue_partition parse_iso) f Hn Hr
                (scenario_within_int64 f Hf) Hi) as (ma & Hma & Hsum & _).
    exists ma. split; [exact Hma|exact Hsum].
  - apply (proj2 (C4_menu_revenue_partition parse_iso) decimal_menu_sales).
    intros s Hs. cbn [decimal_menu_sales In] in Hs.
    destruct Hs as [<-|[<-|[<-|[]]]]; discriminate.
Defined.

(** C4 as stated fails three times.  On a table with a row that names no
    menu item (an empty cell of the file) [groupby('menu_item')] leaves
    the row out, and the per-item totals add up to 50 while the [revenue]
    column adds up to 150.  On revenues whose sum leaves int64 the sum of
    the column wraps around: two items of 2^62 each, against a column sum
    of -2^63.  And on decimal revenues the totals are rounded: items of
    1.004, 2.004 and 0.002 have the totals 1, 2 and 0, while the column
    adds up to 3.01. *)
Lemma C4_counterexample :
  (exists f ma,
     df (loaded unlabelled_rows) = Some f /\ rows f <> [] /\
     fst (analyze_menu_performance (loaded unlabelled_rows)) = Ok (Dict ma) /\
     zsum (map mp_total_revenue (menu_performance ma)) = 50 /\
     isum (map revenue (rows f)) = 150) /\
  (exists f ma,
     df (loaded huge_rows) = Some f /\ rows f <> [] /\
     (forall r, In r (rows f) -> menu_item r <> None) /\
     fst (analyze_menu_performance (loaded huge_rows)) = Ok (Dict ma) /\
     map mp_total_revenue (menu_performance ma) = [2 ^ 62; 2 ^ 62] /\
     isum (map revenue (rows f)) = - 2 ^ 63) /\
  (forall s, In s decimal_menu_sales -> fst s <> None) /\
  map snd (decimal_totals decimal_menu_sales) = [1; 2; 0]%Q /\
  (qsum (map snd decimal_menu_sales) == 301 # 100)%Q.
Proof.
  split; [|split; [|split; [|split]]].
  - do 2 eexists. split; [vm_compute; reflexivity|].
    split; [discriminate|]. split; [vm_compute; reflexivity|].
    split; reflexivity.
  - do 2 eexists. split; [vm_compute; reflexivity|].
    split; [discriminate|]. split; [|split; [vm_compute; reflexivity|]].
    + intros r Hr. cbn [rows In] in Hr.
      destruct Hr as [<-|[<-|[]]]; discriminate.
    + split; vm_compute; reflexivity.
  - intros s Hs. cbn [decimal_menu_sales In] in Hs.
    destruct Hs as [<-|[<-|[<-|[]]]]; discriminate.
  - vm_compute. reflexivity.
  - vm_compute. reflexivity.
Qed.

(** ** Daily trends *)

Lemma normalized_dates (parse_date : string -> option Timestamp)
    (f : DataFrame) :
  normalized parse_date f ->
  forall r, In r (rows f) ->
    date r = DMissing \/ exists d, date r = DStamp d.
Proof.
  intros H r Hr. destruct (normalized_rows _ _ H) as (raw & Hrows & Hp).
  rewrite Hrows in Hr. apply in_map_iff in Hr. destruct Hr as (r0 & <- & Hr0).
  rewrite Forall_forall in Hp.
  specialize (Hp (date r0) (in_map date _ _ Hr0)).
  cbn [normalize_row date]. destruct (date r0) as [s|d|]; simpl in *.
  - destruct (parse_date s) as [d|]; [right; now exists d|congruence].
  - right. now exists d.
  - now left.
Qed.

Lemma stamps_sorted (cells : list datecell) :
  StronglySorted (fun x y => datecell_compare x y = Lt) cells ->
  Forall (fun c => exists d, c = DStamp d) cells ->
  exists days, cells = map DStamp days /\ StronglySorted date_lt days.
Proof.
  induction 1 as [|c cells Hs IH Hf]; intros Hd.
  - exists []. split; [reflexivity|constructor].
  - inversion Hd as [|? ? [d ->] Hd']; subst.
    destruct (IH Hd') as (days & -> & Hsorted).
    exists (d :: days). split; [reflexivity|].
    constructor; [exact Hsorted|].
    rewrite Forall_forall in Hf |- *. intros d' Hd'in.
    exact (Hf (DStamp d') (in_map DStamp _ _ Hd'in)).
Qed.

Lemma StronglySorted_map {A B : Type} (R : B -> B -> Prop) (g : A -> B)
    (l : list A) :
  StronglySorted (fun x y => R (g x) (g y)) l -> StronglySorted R (map g l).
Proof.
  induction 1 as [|a l Hs IH Hf]; simpl; constructor; [exact IH|].
  rewrite Forall_forall in Hf |- *. intros b Hb.
  apply in_map_iff in Hb. destruct Hb as (a' & <- & Ha'). now apply Hf.
Qed.

Lemma daily_key_is (c : datecell) (r : Row) :
  c <> DMissing ->
  key_is datecell_compare (fun r => some_date (date r)) c r = on_date c r.
Proof.
  intros Hc. unfold key_is, on_date, datecell_eqb.
  destruct (date r) as [s|d|]; simpl; try reflexivity.
  destruct c; simpl; congruence.
Qed.

Lemma daily_sales_spec (l : list Row) :
  fits (map revenue l) -> fits (map qty l) ->
  (forall r, In r l -> date r = DMissing \/ exists d, date r = DStamp d) ->
  (exists days,
     map daily_date (daily_sales l) = map DStamp days /\
     StronglySorted date_lt days /\
     forall d, In d days <-> In (DStamp d) (map date l)) /\
  (forall e, In e (daily_sales l) ->
     daily_revenue e = zsum (map revenue (filter (on_date (daily_date e)) l)) /\
     daily_qty e = zsum (map qty (filter (on_date (daily_date e)) l))).
Proof.
  intros Hrev Hqty Hdates. unfold daily_sales.
  set (key := fun r : Row => some_date (date r)).
  set (gs := groupby datecell_compare key l).
  assert (Hkeys : forall k g, In (k, g) gs -> exists d, k = DStamp d).
  { intros k g Hin.
    destruct (groupby_key_occurs datecell_compare datecell_order key k g l Hin)
      as (r & Hr & Hk).
    unfold key in Hk. destruct (Hdates r Hr) as [E|[d E]]; rewrite E in Hk.
    - discriminate.
    - inversion Hk. now exists d. }
  assert (Hfst : map daily_date
                   (map (fun kg : datecell * list Row =>
                           {| daily_date := fst kg;
                              daily_revenue := isum (map revenue (snd kg));
                              daily_qty := isum (map qty (snd kg)) |}) gs)
                 = map fst gs)
    by (rewrite map_map; reflexivity).
  split.
  - destruct (stamps_sorted (map fst gs)) as (days & Edays & Hsorted).
    + apply StronglySorted_map.
      exact (groupby_ascending datecell_compare datecell_order key l).
    + apply Forall_forall. intros c Hc. apply in_map_iff in Hc.
      destruct Hc as ([k g] & <- & Hin). exact (Hkeys k g Hin).
    + exists days. rewrite Hfst. split; [exact Edays|].
      split; [exact Hsorted|]. intros d. split.
      * intros Hd. apply (in_map DStamp) in Hd. rewrite <- Edays in Hd.
        apply in_map_iff in Hd. destruct Hd as ([k g] & E & Hin).
        cbn [fst] in E. subst k.
        destruct (groupby_key_occurs datecell_compare datecell_order key
                    _ g l Hin) as (r & Hr & Hk).
        unfold key in Hk. apply in_map_iff. exists r. split; [|exact Hr].
        destruct (date r); cbn in Hk; congruence.
      * intros Hd. apply in_map_iff in Hd. destruct Hd as (r & E & Hr).
        assert (Hk : key r = Some (DStamp d)) by (unfold key; now rewrite E).
        pose proof (groupby_complete datecell_compare datecell_order key
                      (DStamp d) r l Hr Hk) as Hin.
        apply (in_map fst) in Hin. cbn [fst] in Hin. fold gs in Hin.
        rewrite Edays in Hin. apply in_map_iff in Hin.
        destruct Hin as (d' & E' & Hd'). now inversion E'; subst.
  - intros e He. apply in_map_iff in He. destruct He as ([k g] & <- & Hin).
    cbn [daily_date daily_revenue daily_qty fst snd].
    destruct (Hkeys k g Hin) as [d ->].
    rewrite (isum_group datecell_compare datecell_order revenue key l _ g
               Hrev Hin).
    rewrite (isum_group datecell_compare datecell_order qty key l _ g
               Hqty Hin).
    rewrite (groupby_group datecell_compare datecell_order key _ g l Hin).
    assert (Hd : DStamp d <> DMissing) by discriminate.
    rewrite (filter_ext _ _ (fun r => daily_key_is (DStamp d) r Hd)).
    split; reflexivity.
Qed.

(** C5, as the code has it: on every normalized table whose sums of
    [revenue] and of [qty] stay within int64, [get_sales_trends] returns
    [daily_trends] with exactly one entry for each date of the table, in
    strictly ascending date order, and each entry holds the sums of
    [revenue] and of [qty] over the rows of exactly its date; on the three
    rows of the scenario they are 2024-01-15 with 163000 and 9, then
    2024-01-16 with 15000 and 10. *)
Theorem C5_daily_trends :
  (forall (parse_date : string -> option Timestamp) (f : DataFrame),
     normalized parse_date f ->
     within_int64 f ->
     exists t,
       sales_trends f = Ok t /\
       (exists days,
          map daily_date (daily_trends t) = map DStamp days /\
          StronglySorted date_lt days /\
          forall d, In d days <-> dated f d) /\
       (forall e, In e (daily_trends t) ->
          daily_revenue e
          = zsum (map revenue (filter (on_date (daily_date e)) (rows f))) /\
          daily_qty e
          = zsum (map qty (filter (on_date (daily_date e)) (rows f))))) /\
  (exists t,
     fst (get_sales_trends (loaded scenario_rows)) = Ok (Dict t) /\
     daily_trends t
     = [{| daily_date := DStamp (mkdate 2024 1 15);
           daily_revenue := 163000; daily_qty := 9 |};
        {| daily_date := DStamp (mkdate 2024 1 16);
           daily_revenue := 15000; daily_qty := 10 |}]).
Proof.
  split.
  - intros parse_date f H [Hrev Hqty]. rewrite sales_trends_eq.
    repeat present H.
    eexists. split; [reflexivity|]. cbn [daily_trends].
    apply daily_sales_spec; [exact Hrev|exact Hqty|].
    exact (normalized_dates _ _ H).
  - eexists. split; [vm_compute; reflexivity|reflexivity].
Qed.

Lemma C5_daily_trends_witness :
  exists f, df (loaded scenario_rows) = Some f /\
    exists t,
      sales_trends f = Ok t /\
      (exists days,
         map daily_date (daily_trends t) = map DStamp days /\
         StronglySorted date_lt days /\
         forall d, In d days <-> dated f d) /\
      (forall e, In e (daily_trends t) ->
         daily_revenue e
         = zsum (map revenue (filter (on_date (daily_date e)) (rows f))) /\
         daily_qty e
         = zsum (map qty (filter (on_date (daily_date e)) (rows f)))).
Proof.
  destruct scenario_normalized as (f & Hf & Hn & _).
  exists f. split; [exact Hf|].
  exact (proj1 C5_daily_trends parse_iso f Hn (scenario_within_int64 f Hf)).
Defined.

(** C5 as stated fails where a sum leaves int64, since the sums of
    [groupby] wrap around: two sales of 2^62 on one day make a daily
    revenue of -2^63, while the revenues of that date add up to 2^63. *)
Lemma C5_counterexample :
  exists f t e,
    df (loaded huge_rows) = Some f /\ rows f <> [] /\
    fst (get_sales_trends (loaded huge_rows)) = Ok (Dict t) /\
    daily_trends t = [e] /\
    daily_revenue e = - 2 ^ 63 /\
    zsum (map revenue (filter (on_date (daily_date e)) (rows f))) = 2 ^ 63.
Proof.
  do 3 eexists. split; [vm_compute; reflexivity|].
  split; [discriminate|]. split; [vm_compute; reflexivity|].
  split; [reflexivity|]. split; vm_compute; reflexivity.
Qed.

(** ** Search *)

Lemma prefix_append (p s : string) :
  prefix p s = true <-> exists after, s = String.append p after.
Proof.
  revert s. induction p as [|c p IH]; intros s.
  - destruct s; simpl; split; eauto.
  - destruct s as [|c' s]; cbn [prefix String.append].
    + split; [discriminate|]. intros [after H]. discriminate.
    + destruct (ascii_dec c c') as [->|Hne].
      * split.
        -- intros H. apply IH in H. destruct H as [after ->]. now exists after.
        -- intros [after H]. apply IH. exists after. congruence.
      * split; [discriminate|]. intros [after H]. congruence.
Qed.

Lemma contains_occurs (pat s : string) :
  contains pat s = true <-> occurs_in pat s.
Proof.
  unfold occurs_in. split.
  - induction s as [|c s IH]; cbn [contains].
    + destruct (prefix pat "") eqn:E; [|discriminate]. intros _.
      apply prefix_append in E. destruct E as [after E].
      exists "", after. exact E.
    + destruct (prefix pat (String c s)) eqn:E.
      * intros _. apply prefix_append in E. destruct E as [after E].
        exists "", after. exact E.
      * intros H. destruct (IH H) as (before & after & E').
        exists (String c before), after. cbn [String.append]. now rewrite E'.
  - intros (before & after & E). subst s.
    induction before as [|c before IH].
    + cbn [String.append].
      assert (E : prefix pat (String.append pat after) = true)
        by (apply prefix_append; now exists after).
      destruct (String.append pat after); cbn [contains]; now rewrite E.
    + cbn [String.append contains]. rewrite IH.
      now destruct (prefix pat (String c (String.append before
                                            (String.append pat after)))).
Qed.


Lemma is_meta_lower (c : ascii) : is_meta (lower_ascii c) = is_meta c.
Proof.
  destruct c as [[] [] [] [] [] [] [] []]; vm_compute; reflexivity.
Qed.

Lemma is_literal_lower (q : string) : is_literal (lower q) = is_literal q.
Proof.
  unfold is_literal. f_equal.
  induction q as [|c q IH]; simpl; [reflexivity|].
  now rewrite is_meta_lower, IH.
Qed.

Lemma compile_literal (re_search : string -> option (string -> bool))
    (q : string) :
  is_literal q = true ->
  compile re_search (lower q) = Ok (contains (lower q)).
Proof. intros H. unfold compile. now rewrite is_literal_lower, H. Qed.

Lemma select_mask {A : Type} (p : A -> bool) (l : list A) :
  select l (map p l) = filter p l.
Proof.
  induction l as [|a l IH]; simpl; [reflexivity|].
  destruct (p a); now rewrite IH.
Qed.

Lemma search_frame_compiled (re_search : string -> option (string -> bool))
    (f : DataFrame) (query : string) (matches : string -> bool) :
  searchable f ->
  text_typed f ->
  compile re_search (lower query) = Ok matches ->
  search_frame re_search query f
  = Ok {| columns := columns f;
          rows := filter (row_matches matches) (rows f);
          object_columns := object_columns f |}.
Proof.
  intros (Hm & Hs & Hc) (Om & Os & Oc) Hq. unfold search_frame, search_body.
  rewrite (mbind_ok _ _ _ _ _
             (str_lower_contains_value re_search "menu_item" menu_item _ f
                matches Hm Om Hq)).
  rewrite (mbind_ok _ _ _ _ _
             (str_lower_contains_value re_search "store" store _ f
                matches Hs Os Hq)).
  rewrite (mbind_ok _ _ _ _ _
             (str_lower_contains_value re_search "customer_segment"
                customer_segment _ f matches Hc Oc Hq)).
  unfold select_rows. cbn [fst].
  rewrite !map_map, !combine_map_map, map_map. cbn [fst snd].
  now rewrite select_mask.
Qed.

(** What one column contributes: a mask, or the first failure among the
    label, the dtype and the pattern. *)
Lemma str_lower_contains_cases
    (re_search : string -> option (string -> bool)) (label : string)
    (field : Row -> option string) (query : string) (f : DataFrame) :
  (exists matches,
     has_column f label = true /\ is_object f label = true /\
     compile re_search query = Ok matches /\
     str_lower_contains re_search label field query f
     = (Ok (map (cell_matches matches) (map field (rows f))), f)) \/
  (exists e, str_lower_contains re_search label field query f = (Raise e, f)).
Proof.
  unfold str_lower_contains, str_accessor, mbind, get, lift, mret, getitem.
  destruct (has_column f label); [|right; eauto].
  destruct (is_object f label); [|right; eauto].
  destruct (compile re_search query) as [matches|e]; [|right; eauto].
  left. exists matches. auto.
Qed.

Lemma search_frame_found (re_search : string -> option (string -> bool))
    (f found : DataFrame) (query : string) :
  search_frame re_search query f = Ok found ->
  searchable f /\ text_typed f /\
  exists matches,
    compile re_search (lower query) = Ok matches /\
    found = {| columns := columns f;
               rows := filter (row_matches matches) (rows f);
               object_columns := object_columns f |}.
Proof.
  intros H. unfold search_frame, search_body in H.
  destruct (str_lower_contains_cases re_search "menu_item" menu_item
              (lower query) f) as [(m1 & Hm & Om & Hq & E1)|[e E1]];
    [rewrite (mbind_ok _ _ _ _ _ E1) in H
    |rewrite (mbind_raise _ _ _ _ _ E1) in H; discriminate].
  destruct (str_lower_contains_cases re_search "store" store
              (lower query) f) as [(m2 & Hs & Os & Hq2 & E2)|[e E2]];
    [rewrite (mbind_ok _ _ _ _ _ E2) in H
    |rewrite (mbind_raise _ _ _ _ _ E2) in H; discriminate].
  destruct (str_lower_contains_cases re_search "customer_segment"
              customer_segment (lower query) f)
    as [(m3 & Hc & Oc & Hq3 & E3)|[e E3]];
    [rewrite (mbind_ok _ _ _ _ _ E3) in H
    |rewrite (mbind_raise _ _ _ _ _ E3) in H; discriminate].
  assert (m2 = m1) by congruence. assert (m3 = m1) by congruence.
  subst m2 m3.
  assert (Hsearch : searchable f) by (unfold searchable; auto).
  assert (Htyped : text_typed f) by (unfold text_typed; auto).
  split; [exact Hsearch|]. split; [exact Htyped|].
  exists m1. split; [exact Hq|].
  pose proof (search_frame_compiled re_search f query m1 Hsearch Htyped Hq)
    as E.
  unfold search_frame, search_body in E.
  rewrite (mbind_ok _ _ _ _ _ E1) in E.
  rewrite (mbind_ok _ _ _ _ _ E2) in E.
  rewrite (mbind_ok _ _ _ _ _ E3) in E.
  congruence.
Qed.


Lemma row_matches_text (matches : string -> bool) (r : Row) :
  row_matches matches r = true <->
  exists s, text_of r s /\ matches (lower s) = true.
Proof.
  unfold row_matches, text_of, cell_matches. rewrite !orb_true_iff. split.
  - intros [[H|H]|H].
    + destruct (menu_item r) as [s|]; [eauto|discriminate].
    + destruct (store r) as [s|]; [eauto 6|discriminate].
    + destruct (customer_segment r) as [s|]; [eauto 6|discriminate].
  - intros (s & [E|[E|E]] & H); rewrite E; auto.
Qed.











(** ** Revenue shares *)

Lemma revenue_share_value (total_revenue : Z) (kg : string * list Row) :
  total_revenue <> 0 ->
  sp_revenue_share (segment_row total_revenue kg)
  = Fin (qround 2
           (Qred (Qred (inject_Z (isum (map revenue (snd kg)))
                        / inject_Z total_revenue) * 100))).
Proof.
  intros H. cbn [sp_revenue_share segment_row].
  unfold truediv, fdiv, of_int.
  destruct (Qeq_bool (inject_Z total_revenue) 0) eqn:E.
  - apply Qeq_bool_iff in E. change 0%Q with (inject_Z 0) in E.
    apply (proj1 (inject_Z_injective _ _)) in E. contradiction.
  - reflexivity.
Qed.

Lemma qsum_exact_shares (total_revenue : Z) (gs : list (string * list Row)) :
  (qsum (map (fun kg => inject_Z (zsum (map revenue (snd kg)))
                        / inject_Z total_revenue * 100) gs)
   == inject_Z (groups_total revenue gs) / inject_Z total_revenue * 100)%Q.
Proof.
  unfold groups_total. induction gs as [|kg gs IH]; simpl.
  - unfold Qdiv. ring.
  - rewrite IH, inject_Z_plus. unfold Qdiv. ring.
Qed.

(** A table in which some row carries a segment has a group to describe. *)
Lemma describe_groups_returns (l : list Row) :
  (forall r, In r l -> customer_segment r <> None) ->
  exists comparison, describe_groups l = Ok comparison.
Proof.
  intros H. unfold describe_groups. destruct l as [|r l]; [eexists; reflexivity|].
  destruct (segment_groups (r :: l)) as [|kg gs] eqn:E;
    [|eexists; reflexivity].
  exfalso. destruct (customer_segment r) as [k|] eqn:Ek.
  - pose proof (groupby_complete String.compare string_order
                  customer_segment k r (r :: l) (or_introl eq_refl) Ek) as Hin.
    unfold segment_groups in E. rewrite E in Hin. destruct Hin.
  - apply (H r); [now left|exact Ek].
Qed.

(** C7, as the code has it.  On a table of whole-number revenues (an
    int64 column) with sums within int64, whose [revenue] column does not
    add up to zero and in which every row carries a customer segment, the
    [revenue_share] figures are finite and their sum is within 0.005 per
    segment of 100.  On a column of decimals the shares are taken of
    segment totals rounded to two decimals, and their sum is within
    0.005 + 0.5 / |total revenue| per segment of 100.  (A row without a
    segment belongs to no group, while its revenue is in the grand
    total.) *)
Theorem C7_revenue_shares_sum (parse_date : string -> option Timestamp) :
  (forall f,
     normalized parse_date f ->
     within_int64 f ->
     zsum (map revenue (rows f)) <> 0 ->
     (forall r, In r (rows f) -> customer_segment r <> None) ->
     exists sa shares,
       customer_segments_of f = Ok sa /\
       map sp_revenue_share (segment_performance sa) = map Fin shares /\
       List.length shares = List.length (segment_groups (rows f)) /\
       (Qabs (qsum shares - 100)
        <= (1 # 200) * inject_Z (Z.of_nat (List.length shares)))%Q) /\
  (forall sales,
     (forall s, In s sales -> fst s <> None) ->
     ~ (qsum (map snd sales) == 0)%Q ->
     (Qabs (qsum (map snd (decimal_shares sales)) - 100)
      <= ((1 # 200) + (1 # 2) / Qabs (qsum (map snd sales)))
         * inject_Z (Z.of_nat (List.length (decimal_shares sales))))%Q).
Proof.
  split; [|exact decimal_shares_close].
  intros f H [Hfit _] Htotal Hsegs. rewrite customer_segments_of_eq.
  repeat present H. cbn [bind].
  destruct (describe_groups_returns (rows f) Hsegs) as [comparison ->].
  cbn [bind]. rewrite (isum_fits _ Hfit).
  set (total := zsum (map revenue (rows f))) in *.
  assert (Hgs : forall kg, In kg (segment_groups (rows f)) ->
                  isum (map revenue (snd kg)) = zsum (map revenue (snd kg))).
  { intros [k g] Hin. cbn [snd].
    exact (isum_group String.compare string_order revenue customer_segment
             (rows f) k g Hfit Hin). }
  set (gs := segment_groups (rows f)) in *.
  set (exact := fun kg : string * list Row =>
                  (inject_Z (zsum (map revenue (snd kg)))
                   / inject_Z total * 100)%Q).
  set (share := fun kg : string * list Row =>
                  qround 2 (Qred (Qred (inject_Z (zsum (map revenue (snd kg)))
                                        / inject_Z total) * 100))).
  eexists. exists (map share gs). split; [reflexivity|].
  cbn [segment_performance]. split; [|split].
  - rewrite !map_map. apply map_ext_in. intros kg Hin.
    rewrite (revenue_share_value total kg Htotal), (Hgs kg Hin).
    reflexivity.
  - apply length_map.
  - assert (Hexact : (qsum (map exact gs) == 100)%Q).
    { unfold exact. rewrite qsum_exact_shares. unfold gs, segment_groups.
      rewrite groupby_partition, filter_all.
      - fold total. field. change 0%Q with (inject_Z 0).
        rewrite inject_Z_injective. exact Htotal.
      - intros r Hr. unfold has_key. specialize (Hsegs r Hr).
        now destruct (customer_segment r). }
    rewrite <- Hexact.
    apply (qsum_close_by (1 # 200)). clear Hexact Hgs.
    induction gs as [|kg gs IH]; cbn [map].
    + constructor.
    + constructor; [|exact IH]. cbv beta. unfold share, exact.
      set (x := (inject_Z (zsum (map revenue (snd kg))) / inject_Z total)%Q).
      pose proof (qround_2_close (Qred (Qred x * 100))) as Hc.
      assert (E : (Qred (Qred x * 100) == x * 100)%Q)
        by (now rewrite !Qred_correct).
      apply Qabs_Qle_condition in Hc.
      apply (proj2 (Qabs_Qle_condition _ _)).
      set (y := qround 2 (Qred (Qred x * 100))) in *.
      set (z := Qred (Qred x * 100)) in *. lra.
Qed.

Lemma C7_revenue_shares_sum_witness :
  (exists f, df (loaded scenario_rows) = Some f /\
     exists sa shares,
       customer_segments_of f = Ok sa /\
       map sp_revenue_share (segment_performance sa) = map Fin shares /\
       List.length shares = List.length (segment_groups (rows f)) /\
       (Qabs (qsum shares - 100)
        <= (1 # 200) * inject_Z (Z.of_nat (List.length shares)))%Q) /\
  (Qabs (qsum (map snd (decimal_shares decimal_menu_sales)) - 100)
   <= ((1 # 200) + (1 # 2) / Qabs (qsum (map snd decimal_menu_sales)))
      * inject_Z (Z.of_nat
                    (List.length (decimal_shares decimal_menu_sales))))%Q.
Proof.
  split.
  - destruct scenario_normalized as (f & Hf & Hn & Hr & _ & Hs).
    exists f. split; [exact Hf|].
    apply (proj1 (C7_revenue_shares_sum parse_iso) f Hn
             (scenario_within_int64 f Hf)); [|exact Hs].
    destruct (loaded scenario_rows) as [d s] eqn:E. simpl in Hf. subst d.
    vm_compute in E. inversion E. vm_compute. discriminate.
  - apply (proj2 (C7_revenue_shares_sum parse_iso) decimal_menu_sales).
    + intros s Hs. cbn [decimal_menu_sales In] in Hs.
      destruct Hs as [<-|[<-|[<-|[]]]]; discriminate.
    + vm_compute. discriminate.
Defined.

(** C7 as stated fails three times.  On a table with a row that carries
    no customer segment: of a grand total of 150, the only segment holds
    50, and the single [revenue_share] is 33.33.  On revenues whose sum
    leaves int64: two segments of 2^62 each against a grand total wrapped
    to -2^63 have a share of -50 each.  And on decimal revenues: three
    segments of 0.004 each have totals rounded to 0, and shares of 0. *)
Lemma C7_counterexample :
  (exists f sa,
     df (loaded unlabelled_rows) = Some f /\
     zsum (map revenue (rows f)) = 150 /\
     fst (analyze_customer_segments (loaded unlabelled_rows))
     = Ok (Dict sa) /\
     map sp_revenue_share (segment_performance sa) = [Fin (3333 # 100)] /\
     ~ (Qabs (qsum [3333 # 100] - 100) <= (1 # 200) * 1)%Q) /\
  (exists f sa,
     df (loaded huge_segment_rows) = Some f /\
     (forall r, In r (rows f) -> customer_segment r <> None) /\
     isum (map revenue (rows f)) = - 2 ^ 63 /\
     fst (analyze_customer_segments (loaded huge_segment_rows))
     = Ok (Dict sa) /\
     map sp_revenue_share (segment_performance sa)
     = [Fin (- 50); Fin (- 50)]) /\
  (forall s, In s decimal_segment_sales -> fst s <> None) /\
  (qsum (map snd decimal_segment_sales) == 12 # 1000)%Q /\
  map snd (decimal_shares decimal_segment_sales) = [0; 0; 0]%Q.
Proof.
  split; [|split; [|split; [|split]]].
  - do 2 eexists. split; [vm_compute; reflexivity|]. split; [reflexivity|].
    split; [vm_compute; reflexivity|]. split; [reflexivity|].
    intros H. vm_compute in H. apply H. reflexivity.
  - do 2 eexists. split; [vm_compute; reflexivity|]. split; [|split].
    + intros r Hr. cbn [rows In] in Hr.
      destruct Hr as [<-|[<-|[]]]; discriminate.
    + vm_compute. reflexivity.
    + split; vm_compute; reflexivity.
  - intros s Hs. cbn [decimal_segment_sales In] in Hs.
    destruct Hs as [<-|[<-|[<-|[]]]]; discriminate.
  - vm_compute. reflexivity.
  - vm_compute. reflexivity.
Qed.

(** ** Rows sold in quantity zero *)

Lemma truediv_zero (rev : Z) : truediv rev 0 = zero_qty_price rev.
Proof.
  unfold truediv, fdiv, of_int, zero_qty_price, signed_inf. cbn [Qeq_bool].
  change (Qeq_bool (inject_Z 0) 0) with true. cbv iota.
  unfold Qcompare. cbn [Qnum Qden inject_Z]. rewrite !Z.mul_1_r.
  destruct (Z.compare_spec rev 0) as [->|H|H].
  - reflexivity.
  - destruct (Z.ltb_spec 0 rev); [lia|].
    destruct (Z.ltb_spec rev 0); [reflexivity|lia].
  - destruct (Z.ltb_spec 0 rev); [reflexivity|lia].
Qed.

Lemma truediv_finite (rev q : Z) : q <> 0 -> isfinite (truediv rev q) = true.
Proof.
  intros H. unfold truediv, fdiv, of_int.
  destruct (Qeq_bool (inject_Z q) 0) eqn:E; [|reflexivity].
  apply Qeq_bool_iff in E. change 0%Q with (inject_Z 0) in E.
  apply (proj1 (inject_Z_injective _ _)) in E. contradiction.
Qed.

Lemma fmean_skips_nan (l : list fval) : fmean l = fmean (filter notna l).
Proof.
  unfold fmean, fcount, fsum.
  assert (E : filter notna (filter notna l) = filter notna l).
  { induction l as [|x l IH]; simpl; [reflexivity|].
    destruct (notna x) eqn:Ex; simpl; [now rewrite Ex, IH|exact IH]. }
  now rewrite E.
Qed.

Lemma filter_map_comm {A B : Type} (g : A -> B) (p : B -> bool) (l : list A) :
  filter p (map g l) = map g (filter (fun a => p (g a)) l).
Proof.
  induction l as [|a l IH]; simpl; [reflexivity|].
  destruct (p (g a)); simpl; now rewrite IH.
Qed.

Lemma fmean_priced (g : list Row) : fmean (map avg_price g) = price_mean g.
Proof.
  unfold price_mean. rewrite fmean_skips_nan, filter_map_comm. reflexivity.
Qed.

Lemma fold_fadd_pinf (l : list fval) (acc : fval) :
  Forall (fun x => x <> NaN /\ x <> NInf) l ->
  acc <> NaN -> acc <> NInf ->
  acc = PInf \/ In PInf l ->
  fold_left fadd l acc = PInf.
Proof.
  revert acc. induction l as [|x l IH]; intros acc Hl Ha1 Ha2 H; simpl.
  - destruct H as [H|[]]. exact H.
  - inversion Hl as [|? ? [Hx1 Hx2] Hl']; subst.
    apply IH; [exact Hl'|..].
    + destruct acc, x; cbv [fadd fin]; congruence.
    + destruct acc, x; cbv [fadd fin]; congruence.
    + destruct H as [->|[->|H]].
      * left. destruct x; cbv [fadd fin]; congruence.
      * left. destruct acc; cbv [fadd fin]; congruence.
      * now right.
Qed.

Lemma fmean_pinf (l : list fval) :
  In PInf l -> ~ In NInf l -> fmean l = PInf.
Proof.
  intros Hp Hn. unfold fmean, fcount, fsum.
  assert (Hin : In PInf (filter notna l)) by (apply filter_In; auto).
  destruct (filter notna l) as [|x xs] eqn:E; [destruct Hin|].
  rewrite <- E.
  assert (Hc : (Z.of_nat (List.length (filter notna l)) =? 0) = false)
    by (rewrite E; reflexivity).
  rewrite Hc, fold_fadd_pinf.
  - unfold fdiv, of_int. rewrite E. reflexivity.
  - apply Forall_forall. intros y Hy. apply filter_In in Hy.
    destruct Hy as [Hy1 Hy2]. split; intros ->; [discriminate|contradiction].
  - discriminate.
  - discriminate.
  - right. rewrite E. exact Hin.
Qed.

Lemma normalized_avg_price (parse_date : string -> option Timestamp)
    (f : DataFrame) :
  normalized parse_date f ->
  forall r, In r (rows f) -> avg_price r = truediv (revenue r) (qty r).
Proof.
  intros H r Hr. destruct (normalized_rows _ _ H) as (raw & Hrows & _).
  rewrite Hrows in Hr. apply in_map_iff in Hr. destruct Hr as (r0 & <- & _).
  reflexivity.
Qed.

Lemma sold_for_nothing_mean (parse_date : string -> option Timestamp)
    (f : DataFrame) (g : list Row) :
  normalized parse_date f ->
  (forall r, In r g -> In r (rows f)) ->
  sold_for_nothing g ->
  fmean (map avg_price g) = PInf.
Proof.
  intros H Hsub [(r & Hr & Hq & Hrev) Hnone].
  pose proof (normalized_avg_price _ _ H) as Hprice.
  apply fmean_pinf.
  - apply in_map_iff. exists r. split; [|exact Hr].
    rewrite (Hprice r (Hsub r Hr)), Hq, truediv_zero. unfold zero_qty_price.
    destruct (Z.ltb_spec 0 (revenue r)); [reflexivity|lia].
  - intros Hin. apply in_map_iff in Hin. destruct Hin as (r' & E & Hr').
    rewrite (Hprice r' (Hsub r' Hr')) in E.
    destruct (Z.eq_dec (qty r') 0) as [Hz|Hz].
    + rewrite Hz, truediv_zero in E. unfold zero_qty_price in E.
      specialize (Hnone r' Hr' Hz).
      destruct (Z.ltb_spec 0 (revenue r')); [discriminate|].
      destruct (Z.ltb_spec (revenue r') 0); [lia|discriminate].
    + pose proof (truediv_finite (revenue r') (qty r') Hz) as Hf.
      rewrite E in Hf. discriminate.
Qed.

Lemma menu_entry_rows (rows_ : list Row) (k : string) (g : list Row) :
  In (k, g) (menu_groups rows_) -> g = item_rows k rows_.
Proof. apply (groupby_group String.compare string_order). Qed.

Lemma segment_entry_rows (rows_ : list Row) (k : string) (g : list Row) :
  In (k, g) (segment_groups rows_) -> g = segment_rows k rows_.
Proof. apply (groupby_group String.compare string_order). Qed.

Lemma filter_sub {A : Type} (p : A -> bool) (l : list A) (a : A) :
  In a (filter p l) -> In a l.
Proof. intros H. now apply filter_In in H. Qed.

Lemma fround_pinf (x : fval) (n : nat) : x = PInf -> fround n x = PInf.
Proof. now intros ->. Qed.

Lemma fround_to_cents (m : fval) : to_cents m (fround 2 m).
Proof. destruct m; cbn [to_cents fround]; auto. apply qround_2_close. Qed.

Lemma menu_performance_inv (f : DataFrame) (ma : MenuAnalysis) :
  menu_performance_of f = Ok ma ->
  exists category,
    menu_performance ma
    = map (fun kg =>
             menu_row (zmax (map (fun kg => Z.of_nat (List.length (snd kg)))
                                 (menu_groups (rows f))))
                      (kg, category kg))
          (menu_groups (rows f)).
Proof.
  rewrite menu_performance_of_eq. unfold bind. intros H.
  destruct (getitem f "menu_item" menu_item); [|discriminate].
  destruct (getitem f "revenue" revenue); [|discriminate].
  destruct (getitem f "qty" qty); [|discriminate].
  destruct (getitem f "avg_price" avg_price); [|discriminate].
  cbv zeta in H. destruct (numeric_totals (rows f)); [|discriminate].
  inversion H. cbn [menu_performance]. unfold apply_axis1.
  rewrite combine_map_r, map_map. eexists. reflexivity.
Qed.

Lemma customer_segments_inv (f : DataFrame) (sa : SegmentAnalysis) :
  customer_segments_of f = Ok sa ->
  sa = {| segment_performance :=
            map (segment_row (isum (map revenue (rows f))))
                (segment_groups (rows f));
          comparison_statistics := describe_statistics (rows f);
          segment_comparison :=
            map (fun kg => (fst kg, describe (map avg_price (snd kg))))
                (segment_groups (rows f)) |}.
Proof.
  rewrite customer_segments_of_eq. unfold getitem, bind. intros H.
  destruct (has_column f "customer_segment"); [|discriminate].
  destruct (has_column f "revenue"); [|discriminate].
  destruct (has_column f "qty"); [|discriminate].
  destruct (has_column f "avg_price"); [|discriminate].
  unfold describe_groups in H.
  destruct (rows f) as [|r l]; [now inversion H|].
  destruct (segment_groups (r :: l)); [discriminate|]. now inversion H.
Qed.

(** A table that has rows, one of them carrying a segment, is analysed. *)
Lemma customer_segments_of_returns (parse_date : string -> option Timestamp)
    (f : DataFrame) (r : Row) (seg : string) :
  normalized parse_date f ->
  In r (rows f) -> customer_segment r = Some seg ->
  returns (customer_segments_of f).
Proof.
  intros H Hr Hseg. rewrite customer_segments_of_eq. repeat present H.
  cbn [bind]. unfold describe_groups.
  pose proof (groupby_complete String.compare string_order customer_segment
                seg r (rows f) Hr Hseg) as Hin.
  fold (segment_groups (rows f)) in Hin.
  destruct (rows f) as [|r0 l]; [destruct Hr|].
  destruct (segment_groups (r0 :: l)); [destruct Hin|].
  eexists. reflexivity.
Qed.

(** C1, as the code has it.  A row with [qty = 0] does not make
    [_clean_data] raise; its [avg_price] is [revenue / 0], that is plus or
    minus infinity by the sign of the revenue and NaN only for a zero
    revenue.  The means of [avg_price] (per menu item, per segment, and in
    [describe]) run over the rows whose price is not NaN: the row is left
    out when its revenue is zero and counted otherwise, and an infinite
    price, when no negative infinity stands against it, makes the mean
    infinite.  The menu analysis has an entry for the item of the row, the
    segment analysis one for its segment, and the [revenue] and [qty]
    totals of these are the int64 sums over all rows of the group, the
    row among them.  The means are reported to the cent. *)
Theorem C1_zero_qty (parse_date : string -> option Timestamp)
    (raw : DataFrame) :
  (forall label, In label required_columns -> has_column raw label = true) ->
  Forall (parses parse_date) (map date (rows raw)) ->
  exists f,
    clean_frame parse_date raw = (Ok tt, f) /\
    (forall r, In r (rows f) -> qty r = 0 ->
       avg_price r = zero_qty_price (revenue r) /\
       (priced r = true <-> revenue r <> 0) /\
       (forall item, menu_item r = Some item ->
          In r (item_rows item (rows f)) /\
          exists ma e,
            menu_performance_of f = Ok ma /\
            In e (menu_performance ma) /\ mp_menu_item e = item) /\
       (forall seg, customer_segment r = Some seg ->
          In r (segment_rows seg (rows f)) /\
          exists sa e d,
            customer_segments_of f = Ok sa /\
            In e (segment_performance sa) /\ sp_customer_segment e = seg /\
            In (seg, d) (segment_comparison sa))) /\
    (forall ma, menu_performance_of f = Ok ma ->
       forall e, In e (menu_performance ma) ->
         let g := item_rows (mp_menu_item e) (rows f) in
         mp_total_revenue e = isum (map revenue g) /\
         mp_total_qty e = isum (map qty g) /\
         to_cents (price_mean g) (mp_avg_price e) /\
         (sold_for_nothing g -> mp_avg_price e = PInf)) /\
    (forall sa, customer_segments_of f = Ok sa ->
       (forall e, In e (segment_performance sa) ->
          let g := segment_rows (sp_customer_segment e) (rows f) in
          sp_total_revenue e = isum (map revenue g) /\
          sp_total_qty e = isum (map qty g) /\
          to_cents (price_mean g) (sp_avg_price_per_item e) /\
          (sold_for_nothing g -> sp_avg_price_per_item e = PInf)) /\
       (forall seg d, In (seg, d) (segment_comparison sa) ->
          let g := segment_rows seg (rows f) in
          d_count d = Z.of_nat (List.length (filter priced g)) /\
          d_mean d = price_mean g /\
          (sold_for_nothing g -> d_mean d = PInf))).
Proof.
  intros Hreq Hp.
  assert (Hclean : clean_frame parse_date raw
                   = (Ok tt, normalize parse_date raw)).
  { apply clean_frame_ok; [apply Hreq; simpl; auto 10..|exact Hp]. }
  set (f := normalize parse_date raw) in *.
  assert (H : normalized parse_date f) by (exists raw; auto).
  exists f. split; [exact Hclean|]. split; [|split].
  - intros r Hr Hq.
    assert (Hprice : avg_price r = zero_qty_price (revenue r)).
    { rewrite (normalized_avg_price _ _ H r Hr), Hq. apply truediv_zero. }
    split; [exact Hprice|]. split; [|split].
    + unfold priced. rewrite Hprice. unfold zero_qty_price.
      destruct (Z.ltb_spec 0 (revenue r)); [cbn [notna]; split; [lia|auto]|].
      destruct (Z.ltb_spec (revenue r) 0); cbn [notna];
        split; try lia; try discriminate; auto.
    + intros item Hitem.
      assert (Hg : In r (item_rows item (rows f))).
      { apply filter_In. split; [exact Hr|]. unfold key_is.
        now rewrite Hitem, (cmp_refl String.compare string_order). }
      split; [exact Hg|].
      assert (Hne : rows f <> []) by (intros E; rewrite E in Hr; destruct Hr).
      destruct (menu_performance_of_groups parse_date f H Hne)
        as (ma & Hma & mf & cat & Hmp).
      exists ma. eexists. split; [exact Hma|]. rewrite Hmp.
      split; [|shelve].
      apply in_map_iff. eexists. split; [reflexivity|].
      exact (groupby_complete String.compare string_order menu_item item r
               (rows f) Hr Hitem).
      Unshelve. reflexivity.
    + intros seg Hseg.
      assert (Hg : In r (segment_rows seg (rows f))).
      { apply filter_In. split; [exact Hr|]. unfold key_is.
        now rewrite Hseg, (cmp_refl String.compare string_order). }
      split; [exact Hg|].
      destruct (customer_segments_of_returns parse_date f r seg H Hr Hseg)
        as [sa Hsa].
      pose proof (groupby_complete String.compare string_order
                    customer_segment seg r (rows f) Hr Hseg) as Hin.
      fold (segment_groups (rows f)) in Hin.
      exists sa. do 2 eexists. split; [exact Hsa|].
      rewrite (customer_segments_inv f sa Hsa).
      cbn [segment_performance segment_comparison].
      split; [|split]; [| |apply in_map_iff; eexists; split;
                            [|exact Hin]; reflexivity].
      * apply in_map_iff. eexists. split; [reflexivity|exact Hin].
      * reflexivity.
  - intros ma Hma e He.
    destruct (menu_performance_inv f ma Hma) as [cat Hmp].
    rewrite Hmp in He.
    apply in_map_iff in He. destruct He as ([k g] & <- & Hin).
    cbn [menu_row mp_menu_item mp_total_revenue mp_total_qty mp_avg_price
         fst snd].
    rewrite <- (menu_entry_rows _ _ _ Hin), fmean_priced. cbv zeta.
    split; [reflexivity|]. split; [reflexivity|].
    split; [apply fround_to_cents|].
    intros Hs. apply fround_pinf. rewrite <- fmean_priced.
    apply (sold_for_nothing_mean parse_date f g H); [|exact Hs].
    intros r' Hr'. rewrite (menu_entry_rows _ _ _ Hin) in Hr'.
    exact (filter_sub _ _ _ Hr').
  - intros sa Hsa. rewrite (customer_segments_inv f sa Hsa).
    cbn [segment_performance segment_comparison]. split.
    + intros e He. apply in_map_iff in He. destruct He as ([k g] & <- & Hin).
      cbn [segment_row sp_customer_segment sp_total_revenue sp_total_qty
           sp_avg_price_per_item fst snd].
      rewrite <- (segment_entry_rows _ _ _ Hin), fmean_priced. cbv zeta.
      split; [reflexivity|]. split; [reflexivity|].
      split; [apply fround_to_cents|].
      intros Hs. apply fround_pinf. rewrite <- fmean_priced.
      apply (sold_for_nothing_mean parse_date f g H); [|exact Hs].
      intros r' Hr'. rewrite (segment_entry_rows _ _ _ Hin) in Hr'.
      exact (filter_sub _ _ _ Hr').
    + intros seg d Hd. apply in_map_iff in Hd.
      destruct Hd as ([k g] & E & Hin). cbn [fst snd] in E.
      inversion E; subst seg d. clear E.
      rewrite <- (segment_entry_rows _ _ _ Hin). cbv zeta.
      cbn [describe d_count d_mean]. rewrite fmean_priced.
      split; [|split].
      * unfold fcount. now rewrite filter_map_comm, length_map.
      * reflexivity.
      * intros Hs. rewrite <- fmean_priced.
        apply (sold_for_nothing_mean parse_date f g H); [|exact Hs].
        intros r' Hr'. rewrite (segment_entry_rows _ _ _ Hin) in Hr'.
        exact (filter_sub _ _ _ Hr').
Qed.

Lemma raw_frame_required (l : list Row) (label : string) :
  In label required_columns -> has_column (raw_frame l) label = true.
Proof.
  intros Hin. unfold required_columns in Hin. cbn [In] in Hin.
  destruct Hin as [<-|[<-|[<-|[<-|[<-|[<-|[]]]]]]]; reflexivity.
Qed.

Lemma C1_zero_qty_witness :
  Forall (parses parse_iso) (map date (rows (raw_frame zero_qty_rows))) /\
  exists f,
    clean_frame parse_iso (raw_frame zero_qty_rows) = (Ok tt, f) /\
    (exists r, In r (rows f) /\ qty r = 0) /\
    forall r, In r (rows f) -> qty r = 0 ->
      avg_price r = zero_qty_price (revenue r).
Proof.
  assert (Hp : Forall (parses parse_iso)
                 (map date (rows (raw_frame zero_qty_rows)))).
  { repeat constructor; vm_compute; discriminate. }
  split; [exact Hp|].
  destruct (C1_zero_qty parse_iso (raw_frame zero_qty_rows)
              (raw_frame_required zero_qty_rows) Hp)
    as (f & Hf & Hrow & _).
  exists f. split; [exact Hf|]. split.
  - vm_compute in Hf. inversion Hf. eexists. split; [now left|reflexivity].
  - intros r Hr Hq. exact (proj1 (Hrow r Hr Hq)).
Defined.

(** C1 as stated fails where the revenue of the row is not zero.  Nasi
    Goreng sold once in quantity zero for 85000 and once at 17000 a piece:
    the first row's [avg_price] is plus infinity, not a marker for a
    missing value; the item's and the segment's mean price is infinite,
    where the mean without that row is 17000; and [describe] counts two
    prices. *)
Lemma C1_counterexample :
  exists f ma sa,
    df (loaded zero_qty_rows) = Some f /\
    map qty (rows f) = [0; 2] /\
    map avg_price (rows f) = [PInf; Fin 17000] /\
    fround 2 (fmean (map avg_price
                       (filter (fun r => negb (qty r =? 0)) (rows f))))
    = Fin 17000 /\
    fst (analyze_menu_performance (loaded zero_qty_rows)) = Ok (Dict ma) /\
    map mp_avg_price (menu_performance ma) = [PInf] /\
    fst (analyze_customer_segments (loaded zero_qty_rows)) = Ok (Dict sa) /\
    map sp_avg_price_per_item (segment_performance sa) = [PInf] /\
    map (fun kd => (d_count (snd kd), d_mean (snd kd)))
        (segment_comparison sa) = [(2, PInf)].
Proof.
  do 3 eexists. split; [vm_compute; reflexivity|].
  split; [reflexivity|]. split; [reflexivity|]. split; [reflexivity|].
  split; [vm_compute; reflexivity|]. split; [reflexivity|].
  split; [vm_compute; reflexivity|]. split; reflexivity.
Qed.

(** ** Correlation *)

Lemma complete_pairs_swap (xs ys : list (option R)) :
  complete_pairs ys xs = map swap (complete_pairs xs ys).
Proof.
  revert ys. induction xs as [|x xs IH]; intros [|y ys];
    try (destruct x); try (destruct y); simpl; try reflexivity;
    now rewrite IH.
Qed.

Lemma codeviation_swap (ps : list (R * R)) :
  codeviation (map swap ps) = codeviation ps.
Proof.
  unfold codeviation.
  assert (E1 : map fst (map swap ps) = map snd ps)
    by (rewrite map_map; apply map_ext; reflexivity).
  assert (E2 : map snd (map swap ps) = map fst ps)
    by (rewrite map_map; apply map_ext; reflexivity).
  rewrite E1, E2, map_map. f_equal. apply map_ext. intros [x y].
  cbn [swap fst snd]. ring.
Qed.

Lemma pearson_swap (ps : list (R * R)) : pearson (map swap ps) = pearson ps.
Proof.
  destruct ps as [|p ps]; [reflexivity|].
  unfold pearson. cbn [map]. rewrite <- !map_cons.
  rewrite codeviation_swap, !map_map.
  assert (E1 : map (fun x => diag_fst (swap x)) (p :: ps)
               = map diag_snd (p :: ps)) by reflexivity.
  assert (E2 : map (fun x => diag_snd (swap x)) (p :: ps)
               = map diag_fst (p :: ps)) by reflexivity.
  rewrite E1, E2, Rmult_comm. reflexivity.
Qed.

Lemma pearson_symmetric (xs ys : list (option R)) :
  pearson (complete_pairs ys xs) = pearson (complete_pairs xs ys).
Proof. rewrite complete_pairs_swap. apply pearson_swap. Qed.

Lemma complete_pairs_diag (xs : list (option R)) :
  map diag_fst (complete_pairs xs xs) = complete_pairs xs xs /\
  map diag_snd (complete_pairs xs xs) = complete_pairs xs xs.
Proof.
  induction xs as [|[x|] xs [IH1 IH2]]; simpl; auto.
  unfold diag_fst at 1, diag_snd at 1. cbn [fst snd].
  now rewrite IH1, IH2.
Qed.

Lemma rsum_squares_nonneg (l : list R) (m : R) :
  (0 <= rsum (map (fun x => Rsqr (x - m)) l))%R.
Proof.
  induction l as [|x l IH]; cbn [map rsum fold_right]; [lra|].
  apply Rplus_le_le_0_compat; [apply Rle_0_sqr|exact IH].
Qed.

Lemma diag_deviations (xs : list (option R)) (m : R) :
  map snd (complete_pairs xs xs) = map fst (complete_pairs xs xs) /\
  map (fun p : R * R => ((fst p - m) * (snd p - m))%R) (complete_pairs xs xs)
  = map (fun x => Rsqr (x - m)) (map fst (complete_pairs xs xs)).
Proof.
  induction xs as [|[x|] xs [IH1 IH2]]; simpl; auto.
  split; [now rewrite IH1|now rewrite IH2].
Qed.

Lemma codeviation_diag_nonneg (xs : list (option R)) :
  (0 <= codeviation (complete_pairs xs xs))%R.
Proof.
  unfold codeviation.
  destruct (diag_deviations xs (rmean (map fst (complete_pairs xs xs))))
    as [E E'].
  rewrite E, E'. apply rsum_squares_nonneg.
Qed.

Lemma pearson_diag (xs : list (option R)) :
  nondegenerate xs -> pearson (complete_pairs xs xs) = RFin 1.
Proof.
  unfold nondegenerate. intros H.
  pose proof (codeviation_diag_nonneg xs) as Hpos.
  destruct (complete_pairs_diag xs) as [E1 E2].
  unfold pearson. rewrite E1, E2.
  destruct (complete_pairs xs xs) as [|p ps] eqn:E.
  - exfalso. apply H. unfold codeviation. simpl. reflexivity.
  - set (S := codeviation (p :: ps)) in *.
    assert (Hs : sqrt (S * S) = S) by (apply sqrt_square; exact Hpos).
    rewrite Hs. destruct (Req_dec_T S 0) as [Hz|Hz]; [contradiction|].
    f_equal. now field.
Qed.

Lemma R_round_half_even_int (n : Z) : R_round_half_even (IZR n) = n.
Proof.
  unfold R_round_half_even.
  assert (E : Zfloor (IZR n) = n) by (apply Zfloor_eq; lra).
  rewrite E. destruct (Rlt_dec (IZR n - IZR n) (1 / 2)) as [_|H];
    [reflexivity|]. exfalso. apply H. lra.
Qed.

Lemma rround_one : rround 3 (RFin 1) = RFin 1.
Proof.
  unfold rround. change (10 ^ Z.of_nat 3) with 1000.
  replace (1 * IZR 1000)%R with (IZR 1000) by ring.
  rewrite R_round_half_even_int. f_equal. field.
Qed.

Lemma correlation_of_normalized (parse_date : string -> option Timestamp)
    (f : DataFrame) :
  normalized parse_date f ->
  exists ca,
    correlation_of f = Ok ca /\
    forall a b, In a numerical_labels -> In b numerical_labels ->
      loc (correlation_matrix ca) a b
      = rround 3 (pearson (complete_pairs (numerical_column f a)
                                          (numerical_column f b))).
Proof.
  intros H. rewrite correlation_of_eq. repeat present H. cbn [bind].
  eexists. split; [reflexivity|]. cbn [correlation_matrix].
  intros a b Ha Hb. unfold numerical_labels in Ha, Hb. cbn [In] in Ha, Hb.
  destruct Ha as [<-|[<-|[<-|[]]]]; destruct Hb as [<-|[<-|[<-|[]]]];
    reflexivity.
Qed.

(** C8: on every normalized table [get_correlation_analysis] returns a
    matrix that is symmetric, and whose diagonal entry is 1 for each of
    [revenue], [qty] and [avg_price] whose finite values are not all
    equal.  (Stated over the reals: the entries are exact, so no
    tolerance is needed.) *)
Theorem C8_correlation_matrix (parse_date : string -> option Timestamp)
    (f : DataFrame) :
  normalized parse_date f ->
  exists ca,
    correlation_of f = Ok ca /\
    (forall a b, In a numerical_labels -> In b numerical_labels ->
       loc (correlation_matrix ca) a b = loc (correlation_matrix ca) b a) /\
    (forall c, In c numerical_labels ->
       nondegenerate (numerical_column f c) ->
       loc (correlation_matrix ca) c c = RFin 1).
Proof.
  intros H. destruct (correlation_of_normalized parse_date f H)
    as (ca & Hca & Hloc).
  exists ca. split; [exact Hca|]. split.
  - intros a b Ha Hb. rewrite (Hloc a b Ha Hb), (Hloc b a Hb Ha).
    now rewrite pearson_symmetric.
  - intros c Hc Hnd. rewrite (Hloc c c Hc Hc), (pearson_diag _ Hnd).
    apply rround_one.
Qed.

Lemma scenario_table_normalized : normalized parse_iso scenario_table.
Proof.
  exists (raw_frame scenario_rows). split; [apply raw_frame_required|].
  apply clean_frame_ok; try reflexivity.
  repeat constructor; vm_compute; discriminate.
Qed.

Lemma scenario_revenue_nondegenerate :
  nondegenerate (numerical_column scenario_table "revenue").
Proof.
  unfold nondegenerate.
  change (numerical_column scenario_table "revenue")
    with [Some (IZR 85000); Some (IZR 78000); Some (IZR 15000)].
  unfold codeviation, rmean. cbn [complete_pairs map fst snd rsum fold_right
                                  List.length INR].
  intros H. field_simplify in H. lra.
Qed.

Lemma C8_correlation_matrix_witness :
  nondegenerate (numerical_column scenario_table "revenue") /\
  exists ca,
    correlation_of scenario_table = Ok ca /\
    loc (correlation_matrix ca) "qty" "avg_price"
    = loc (correlation_matrix ca) "avg_price" "qty" /\
    loc (correlation_matrix ca) "revenue" "revenue" = RFin 1.
Proof.
  split; [exact scenario_revenue_nondegenerate|].
  destruct (C8_correlation_matrix parse_iso scenario_table
              scenario_table_normalized) as (ca & Hca & Hsym & Hdiag).
  exists ca. split; [exact Hca|]. split.
  - apply Hsym; simpl; auto.
  - apply Hdiag; [simpl; auto|exact scenario_revenue_nondegenerate].
Defined.


(** * Further properties of the processor *)

(** ** Sorting, [nlargest] and [nsmallest] *)

Section SortFacts.
Context {A : Type} (leb : A -> A -> bool).
Hypothesis leb_total : forall a b, leb a b = true \/ leb b a = true.
Hypothesis leb_trans :
  forall a b c, leb a b = true -> leb b c = true -> leb a c = true.

Lemma insert_sorted_perm (a : A) (l : list A) :
  Permutation (insert_sorted leb a l) (a :: l).
Proof.
  induction l as [|b l IH]; simpl; [reflexivity|].
  destruct (leb b a); [|reflexivity].
  rewrite IH. apply perm_swap.
Qed.

Lemma stable_sort_fold_perm (l acc : list A) :
  Permutation (fold_left (fun acc a => insert_sorted leb a acc) l acc)
              (acc ++ l).
Proof.
  revert acc. induction l as [|a l IH]; intros acc; simpl.
  - now rewrite app_nil_r.
  - rewrite IH, insert_sorted_perm. apply Permutation_middle.
Qed.

Lemma stable_sort_perm (l : list A) : Permutation (stable_sort leb l) l.
Proof. unfold stable_sort. now rewrite stable_sort_fold_perm. Qed.

Lemma insert_sorted_sorted (a : A) (l : list A) :
  StronglySorted (fun x y => leb x y = true) l ->
  StronglySorted (fun x y => leb x y = true) (insert_sorted leb a l).
Proof.
  induction 1 as [|b l Hs IH Hf]; simpl.
  - constructor; constructor.
  - destruct (leb b a) eqn:E.
    + constructor; [exact IH|].
      rewrite (Forall_forall (fun y => leb b y = true)) in Hf |- *.
      intros y Hy.
      apply (Permutation_in _ (insert_sorted_perm a l)) in Hy.
      destruct Hy as [<-|Hy]; [exact E|now apply Hf].
    + assert (Hab : leb a b = true)
        by (destruct (leb_total a b) as [H|H]; congruence).
      constructor; [now constructor|].
      constructor; [exact Hab|].
      eapply Forall_impl; [|exact Hf]. intros y Hy.
      eapply leb_trans; eassumption.
Qed.

Lemma stable_sort_sorted (l : list A) :
  StronglySorted (fun x y => leb x y = true) (stable_sort leb l).
Proof.
  unfold stable_sort.
  generalize (@nil A) (SSorted_nil (fun x y : A => leb x y = true)).
  induction l as [|a l IH]; intros acc H; simpl; [exact H|].
  apply IH. now apply insert_sorted_sorted.
Qed.

Lemma firstn_sorted (R : A -> A -> Prop) (n : nat) (l : list A) :
  StronglySorted R l -> StronglySorted R (firstn n l).
Proof.
  intros H. revert n. induction H as [|a l Hs IH Hf]; intros [|n]; simpl;
    try constructor.
  - apply IH.
  - rewrite Forall_forall in Hf |- *. intros y Hy. apply Hf.
    eapply (In_nth_error _) in Hy. destruct Hy as [i Hi].
    rewrite nth_error_firstn in Hi. destruct (Nat.ltb i n); [|discriminate].
    eapply nth_error_In; eassumption.
Qed.

Lemma sorted_split (R : A -> A -> Prop) (n : nat) (l : list A) :
  StronglySorted R l ->
  forall x y, In x (firstn n l) -> In y (skipn n l) -> R x y.
Proof.
  intros H. revert n. induction H as [|a l Hs IH Hf]; intros [|n] x y;
    simpl; try tauto.
  intros [<-|Hx] Hy.
  - rewrite Forall_forall in Hf. apply Hf.
    rewrite <- (firstn_skipn n l). apply in_or_app. now right.
  - now apply (IH n).
Qed.
End SortFacts.

Lemma StronglySorted_impl {A : Type} (R R' : A -> A -> Prop) (l : list A) :
  (forall a b, R a b -> R' a b) -> StronglySorted R l -> StronglySorted R' l.
Proof.
  intros H. induction 1 as [|a l Hs IH Hf]; constructor; [exact IH|].
  eapply Forall_impl; [|exact Hf]. intros b. apply H.
Qed.

Lemma nlargest_spec {A : Type} (n : nat) (score : A -> Z) (l : list A) :
  List.length (nlargest n score l) = Nat.min n (List.length l) /\
  StronglySorted (fun a b => score b <= score a) (nlargest n score l) /\
  exists rest,
    Permutation l (nlargest n score l ++ rest) /\
    forall x y, In x (nlargest n score l) -> In y rest -> score y <= score x.
Proof.
  unfold nlargest. set (leb := fun a b : A => score b <=? score a).
  assert (Htotal : forall a b, leb a b = true \/ leb b a = true)
    by (intros a b; unfold leb; rewrite !Z.leb_le; lia).
  assert (Htrans : forall a b c,
             leb a b = true -> leb b c = true -> leb a c = true)
    by (intros a b c; unfold leb; rewrite !Z.leb_le; lia).
  pose proof (stable_sort_sorted leb Htotal Htrans l) as Hs.
  pose proof (stable_sort_perm leb l) as Hp.
  assert (Hs' : StronglySorted (fun a b => score b <= score a)
                  (stable_sort leb l)).
  { eapply StronglySorted_impl; [|exact Hs].
    intros a b Hab. now apply Z.leb_le. }
  split; [|split].
  - rewrite length_firstn, (Permutation_length Hp). reflexivity.
  - now apply firstn_sorted.
  - exists (skipn n (stable_sort leb l)). split.
    + rewrite firstn_skipn. now symmetry.
    + intros x y Hx Hy. exact (sorted_split _ n _ Hs' x y Hx Hy).
Qed.

Lemma nsmallest_spec {A : Type} (n : nat) (score : A -> Z) (l : list A) :
  List.length (nsmallest n score l) = Nat.min n (List.length l) /\
  StronglySorted (fun a b => score a <= score b) (nsmallest n score l) /\
  exists rest,
    Permutation l (nsmallest n score l ++ rest) /\
    forall x y, In x (nsmallest n score l) -> In y rest -> score x <= score y.
Proof.
  assert (E : nsmallest n score l = nlargest n (fun a => - score a) l).
  { unfold nsmallest, nlargest, stable_sort. f_equal.
    assert (Ei : forall a acc,
               insert_sorted (fun a0 b => score a0 <=? score b) a acc
               = insert_sorted (fun a0 b => - score b <=? - score a0) a acc).
    { intros a acc. induction acc as [|b acc IH]; simpl; [reflexivity|].
      rewrite IH.
      replace (- score a <=? - score b) with (score b <=? score a)
        by (apply Bool.eq_true_iff_eq; rewrite !Z.leb_le; lia).
      reflexivity. }
    generalize (@nil A).
    induction l as [|a l IH]; intros acc; simpl; [reflexivity|].
    now rewrite Ei, IH. }
  destruct (nlargest_spec n (fun a => - score a) l)
    as (Hl & Hs & rest & Hp & Hr).
  rewrite E. split; [exact Hl|]. split.
  - eapply StronglySorted_impl; [|exact Hs]. intros a b Hab. simpl in Hab. lia.
  - exists rest. split; [exact Hp|]. intros x y Hx Hy.
    specialize (Hr x y Hx Hy). simpl in Hr. lia.
Qed.

(** ** Top and low performers *)

Lemma scenario_table_rows : rows scenario_table <> [].
Proof. discriminate. Qed.


Lemma menu_analysis_lists (f : DataFrame) (ma : MenuAnalysis) :
  menu_performance_of f = Ok ma ->
  top_performers ma
  = map brief (nlargest 10 mp_total_revenue (menu_performance ma)) /\
  low_performers ma
  = map brief (nsmallest 5 mp_total_revenue (menu_performance ma)).
Proof.
  rewrite menu_performance_of_eq. unfold bind. intros H.
  destruct (getitem f "menu_item" menu_item); [|discriminate].
  destruct (getitem f "revenue" revenue); [|discriminate].
  destruct (getitem f "qty" qty); [|discriminate].
  destruct (getitem f "avg_price" avg_price); [|discriminate].
  cbv zeta in H. destruct (numeric_totals (rows f)); [|discriminate].
  inversion H. split; reflexivity.
Qed.

(** X1: [top_performers] holds the ten menu items of largest total revenue
    (all of them when there are fewer), largest first, and
    [low_performers] the five of smallest total revenue, smallest first:
    no item left out of a list beats an item in it. *)
Theorem menu_top_and_low_performers (f : DataFrame) (ma : MenuAnalysis) :
  menu_performance_of f = Ok ma ->
  (exists kept rest,
     top_performers ma = map brief kept /\
     List.length kept = Nat.min 10 (List.length (menu_performance ma)) /\
     StronglySorted (fun a b => mp_total_revenue b <= mp_total_revenue a)
                    kept /\
     Permutation (menu_performance ma) (kept ++ rest) /\
     forall x y, In x kept -> In y rest ->
                 mp_total_revenue y <= mp_total_revenue x) /\
  (exists kept rest,
     low_performers ma = map brief kept /\
     List.length kept = Nat.min 5 (List.length (menu_performance ma)) /\
     StronglySorted (fun a b => mp_total_revenue a <= mp_total_revenue b)
                    kept /\
     Permutation (menu_performance ma) (kept ++ rest) /\
     forall x y, In x kept -> In y rest ->
                 mp_total_revenue x <= mp_total_revenue y).
Proof.
  intros H. destruct (menu_analysis_lists f ma H) as [Htop Hlow]. split.
  - destruct (nlargest_spec 10 mp_total_revenue (menu_performance ma))
      as (Hlen & Hsorted & rest & Hperm & Hrest).
    exists (nlargest 10 mp_total_revenue (menu_performance ma)), rest.
    auto.
  - destruct (nsmallest_spec 5 mp_total_revenue (menu_performance ma))
      as (Hlen & Hsorted & rest & Hperm & Hrest).
    exists (nsmallest 5 mp_total_revenue (menu_performance ma)), rest.
    auto.
Qed.

Lemma menu_top_and_low_performers_witness :
  exists ma,
    menu_performance_of scenario_table = Ok ma /\
    exists kept rest,
      top_performers ma = map brief kept /\
      List.length kept = Nat.min 10 (List.length (menu_performance ma)) /\
      StronglySorted (fun a b => mp_total_revenue b <= mp_total_revenue a)
                     kept /\
      Permutation (menu_performance ma) (kept ++ rest) /\
      forall x y, In x kept -> In y rest ->
                  mp_total_revenue y <= mp_total_revenue x.
Proof.
  destruct (menu_performance_of_groups parse_iso scenario_table
              scenario_table_normalized scenario_table_rows) as (ma & Hma & _).
  exists ma. split; [exact Hma|].
  exact (proj1 (menu_top_and_low_performers scenario_table ma Hma)).
Defined.

(** ** The summary *)

Lemma summarize_fields (f : DataFrame) (s : Summary) :
  summarize f = Ok s ->
  date_bound date_min (map date (rows f)) = Ok (dr_start (date_range s)) /\
  date_bound date_max (map date (rows f)) = Ok (dr_end (date_range s)) /\
  total_records s = Z.of_nat (List.length (rows f)) /\
  total_revenue s = isum (map revenue (rows f)) /\
  total_qty_sold s = isum (map qty (rows f)) /\
  avg_transaction_value s = zmean (map revenue (rows f)) /\
  stores s = unique (option_eqb String.eqb) (map store (rows f)) /\
  customer_segments s
  = unique (option_eqb String.eqb) (map customer_segment (rows f)) /\
  unique_menu_items s = nunique String.eqb (map menu_item (rows f)) /\
  top_selling_items s = nlargest 5 snd (group_sums menu_item qty (rows f)) /\
  revenue_by_store s = group_sums store revenue (rows f) /\
  revenue_by_segment s = group_sums customer_segment revenue (rows f).
Proof.
  unfold summarize, getitem. intros H.
  destruct (has_column f "date"); [|discriminate]. cbn [bind] in H.
  destruct (date_bound date_min (map date (rows f))) as [d1|];
    [|discriminate]. cbn [bind] in H.
  destruct (date_bound date_max (map date (rows f))) as [d2|];
    [|discriminate]. cbn [bind] in H.
  destruct (has_column f "revenue"); [|discriminate]. cbn [bind] in H.
  destruct (has_column f "qty"); [|discriminate]. cbn [bind] in H.
  destruct (has_column f "store"); [|discriminate]. cbn [bind] in H.
  destruct (has_column f "customer_segment"); [|discriminate].
  cbn [bind] in H.
  destruct (has_column f "menu_item"); [|discriminate]. cbn [bind] in H.
  inversion H. cbn. repeat split; reflexivity.
Qed.

Lemma date_min_spec (l : list Timestamp) (m : Timestamp) :
  date_min l = Some m -> In m l /\ forall d, In d l -> date_le m d.
Proof.
  revert m. induction l as [|a l IH]; simpl; intros m H; [discriminate|].
  destruct (date_min l) as [m'|] eqn:E.
  - destruct (IH m' eq_refl) as [Hin Hle]. inversion H; subst. clear H.
    destruct (date_compare a m') eqn:C.
    + apply (cmp_eq _ date_order) in C. subst a. split; [now left|].
      intros d [<-|Hd]; [|now apply Hle].
      unfold date_le. now rewrite (cmp_refl _ date_order).
    + split; [now left|]. intros d [<-|Hd].
      * unfold date_le. now rewrite (cmp_refl _ date_order).
      * specialize (Hle d Hd). unfold date_le in *.
        destruct (date_compare m' d) eqn:C'; [| |congruence].
        -- apply (cmp_eq _ date_order) in C'. subst. congruence.
        -- rewrite (cmp_trans _ date_order _ _ _ C C'). discriminate.
    + split; [now right|]. intros d [<-|Hd]; [|now apply Hle].
      unfold date_le. rewrite (cmp_antisym _ date_order a m'), C. discriminate.
  - inversion H; subst. destruct l as [|b l]; [|simpl in E;
      destruct (date_min l); discriminate].
    split; [now left|]. intros d [<-|[]].
    unfold date_le. now rewrite (cmp_refl _ date_order).
Qed.

Lemma date_max_spec (l : list Timestamp) (m : Timestamp) :
  date_max l = Some m -> In m l /\ forall d, In d l -> date_le d m.
Proof.
  revert m. induction l as [|a l IH]; simpl; intros m H; [discriminate|].
  destruct (date_max l) as [m'|] eqn:E.
  - destruct (IH m' eq_refl) as [Hin Hle]. inversion H; subst. clear H.
    destruct (date_compare a m') eqn:C.
    + apply (cmp_eq _ date_order) in C. subst a. split; [now left|].
      intros d [<-|Hd]; [|now apply Hle].
      unfold date_le. now rewrite (cmp_refl _ date_order).
    + split; [now right|]. intros d [<-|Hd]; [|now apply Hle].
      unfold date_le. rewrite C. discriminate.
    + split; [now left|]. intros d [<-|Hd].
      * unfold date_le. now rewrite (cmp_refl _ date_order).
      * specialize (Hle d Hd). unfold date_le in *.
        apply (cmp_gt_lt _ date_order) in C.
        destruct (date_compare d m') eqn:C'; [| |congruence].
        -- apply (cmp_eq _ date_order) in C'. subst. rewrite C. discriminate.
        -- rewrite (cmp_trans _ date_order _ _ _ C' C). discriminate.
  - inversion H; subst. destruct l as [|b l]; [|simpl in E;
      destruct (date_max l); discriminate].
    split; [now left|]. intros d [<-|[]].
    unfold date_le. now rewrite (cmp_refl _ date_order).
Qed.

Lemma in_somes {A : Type} (a : A) (l : list (option A)) :
  In a (somes l) <-> In (Some a) l.
Proof.
  induction l as [|[b|] l IH]; simpl; [tauto| |].
  - rewrite IH. split; intros [H|H]; auto; left; congruence.
  - rewrite IH. split; [auto|]. intros [H|H]; [discriminate|exact H].
Qed.

Lemma date_bound_stamps (pick : list Timestamp -> option Timestamp)
    (cells : list datecell) (d : Timestamp) :
  date_bound pick cells = Ok d ->
  exists ds, pick ds = Some d /\ forall x, In x ds <-> In (DStamp x) cells.
Proof.
  unfold date_bound.
  destruct (existsb _ cells); [discriminate|].
  set (ds := somes (map (fun c => match c with DStamp d0 => Some d0
                                          | _ => None end) cells)).
  destruct (pick ds) as [m|] eqn:E; [|discriminate].
  intros H. inversion H; subst. exists ds. split; [exact E|].
  intros x. unfold ds. rewrite in_somes, in_map_iff. split.
  - intros ([s|y|] & Hy & Hin); try discriminate. now inversion Hy; subst.
  - intros Hin. now exists (DStamp x).
Qed.

(** X2: when [_generate_summary] builds a summary the table has at least
    one row, [date_range] starts at the earliest and ends at the latest
    date of the table: both are dates of rows, the start is not after the
    end, and every dated row lies between them. *)
Theorem summary_date_range (f : DataFrame) (s : Summary) :
  summarize f = Ok s ->
  let first := dr_start (date_range s) in
  let last_ := dr_end (date_range s) in
  0 < total_records s /\
  dated f first /\ dated f last_ /\ date_le first last_ /\
  forall d, dated f d -> date_le first d /\ date_le d last_.
Proof.
  intros H. destruct (summarize_fields f s H) as (Hmin & Hmax & Hn & _).
  cbv zeta.
  destruct (date_bound_stamps _ _ _ Hmin) as (ds & Emin & Hds).
  destruct (date_bound_stamps _ _ _ Hmax) as (ds' & Emax & Hds').
  apply date_min_spec in Emin. destruct Emin as [Hin1 Hle1].
  apply date_max_spec in Emax. destruct Emax as [Hin2 Hle2].
  assert (Hfirst : dated f (dr_start (date_range s))) by now apply Hds.
  assert (Hlast : dated f (dr_end (date_range s))) by now apply Hds'.
  split; [|split; [exact Hfirst|split; [exact Hlast|split]]].
  - rewrite Hn. unfold dated in Hfirst.
    destruct (rows f); [destruct Hfirst|simpl; lia].
  - apply Hle1. now apply Hds.
  - intros d Hd. split; [apply Hle1; now apply Hds|apply Hle2; now apply Hds'].
Qed.

Lemma scenario_summary : exists s, summarize scenario_table = Ok s.
Proof. eexists. vm_compute. reflexivity. Qed.

Lemma summary_date_range_witness :
  exists s,
    summarize scenario_table = Ok s /\
    0 < total_records s /\
    dated scenario_table (dr_start (date_range s)) /\
    date_le (dr_start (date_range s)) (dr_end (date_range s)).
Proof.
  destruct scenario_summary as [s Hs]. exists s. split; [exact Hs|].
  destruct (summary_date_range scenario_table s Hs) as (H1 & H2 & _ & H4 & _).
  auto.
Defined.

(** *** Breakdowns by store and by segment *)

Lemma group_sums_spec (key : Row -> option string) (value : Row -> Z)
    (l : list Row) :
  fits (map value l) ->
  ascending_labels (group_sums key value l) /\
  (forall k v, In (k, v) (group_sums key value l) ->
     v = zsum (map value (filter (key_is String.compare key k) l))) /\
  zsum (map snd (group_sums key value l))
  = zsum (map value (filter (has_key key) l)).
Proof.
  intros Hfit. unfold group_sums, ascending_labels. split; [|split].
  - pose proof (groupby_ascending String.compare string_order key l) as H.
    unfold ascending_keys in H.
    induction H as [|kg gs Hs IH Hf]; simpl; constructor; [exact IH|].
    rewrite Forall_forall in Hf |- *. intros x Hx.
    apply in_map_iff in Hx. destruct Hx as (kg' & <- & Hin). simpl.
    now apply Hf.
  - intros k v Hin. apply in_map_iff in Hin.
    destruct Hin as ([k' g] & E & Hin). cbn [fst snd] in E.
    inversion E; subst.
    rewrite (isum_group String.compare string_order value key l k g Hfit
               Hin).
    now rewrite (groupby_group String.compare string_order key k g l Hin).
  - rewrite map_map. cbn [snd].
    exact (isum_groups_total String.compare string_order value key l Hfit).
Qed.

Lemma scenario_table_within_int64 : within_int64 scenario_table.
Proof. split; vm_compute; reflexivity. Qed.

(** X3: on a table whose sums are within int64, [revenue_by_store] and
    [revenue_by_segment] of the summary list their labels in ascending
    order, each with the revenue of exactly the rows carrying that label;
    their totals equal [total_revenue] when no row lacks the label, and
    otherwise fall short by the revenue of the rows that lack it. *)
Theorem summary_revenue_breakdowns (f : DataFrame) (s : Summary) :
  summarize f = Ok s ->
  within_int64 f ->
  (ascending_labels (revenue_by_store s) /\
   (forall k v, In (k, v) (revenue_by_store s) ->
      v = zsum (map revenue (filter (key_is String.compare store k)
                                    (rows f)))) /\
   total_revenue s
   = zsum (map snd (revenue_by_store s))
     + zsum (map revenue (filter (fun r => negb (has_key store r))
                                 (rows f)))) /\
  (ascending_labels (revenue_by_segment s) /\
   (forall k v, In (k, v) (revenue_by_segment s) ->
      v = zsum (map revenue
                  (filter (key_is String.compare customer_segment k)
                          (rows f)))) /\
   total_revenue s
   = zsum (map snd (revenue_by_segment s))
     + zsum (map revenue
               (filter (fun r => negb (has_key customer_segment r))
                       (rows f)))).
Proof.
  intros H [Hfit _].
  destruct (summarize_fields f s H)
    as (_ & _ & _ & Ht & _ & _ & _ & _ & _ & _ & Hst & Hseg).
  rewrite (isum_fits _ Hfit) in Ht.
  assert (Hsplit : forall (p : Row -> bool) (l : list Row),
            zsum (map revenue l)
            = zsum (map revenue (filter p l))
              + zsum (map revenue (filter (fun r => negb (p r)) l))).
  { intros p l. induction l as [|r l IH]; simpl; [reflexivity|].
    destruct (p r); simpl; lia. }
  rewrite Hst, Hseg, Ht. split.
  - destruct (group_sums_spec store revenue (rows f) Hfit)
      as (Ha & Hg & Hs).
    split; [exact Ha|]. split; [exact Hg|]. rewrite Hs. apply Hsplit.
  - destruct (group_sums_spec customer_segment revenue (rows f) Hfit)
      as (Ha & Hg & Hs).
    split; [exact Ha|]. split; [exact Hg|]. rewrite Hs. apply Hsplit.
Qed.

Lemma summary_revenue_breakdowns_witness :
  exists s,
    summarize scenario_table = Ok s /\
    ascending_labels (revenue_by_store s) /\
    ascending_labels (revenue_by_segment s).
Proof.
  destruct scenario_summary as [s Hs]. exists s. split; [exact Hs|].
  destruct (summary_revenue_breakdowns scenario_table s Hs
              scenario_table_within_int64) as ((H1 & _) & (H2 & _)).
  auto.
Defined.



(** *** Distinct values *)

Section UniqueFacts.
Context {A : Type} (eqb : A -> A -> bool).
Hypothesis eqb_spec : forall a b, eqb a b = true <-> a = b.

Lemma unique_in (x : A) (l : list A) : In x (unique eqb l) <-> In x l.
Proof.
  induction l as [|a l IH]; simpl; [tauto|]. split.
  - intros [H|H]; [now left|]. apply filter_In in H. right. now apply IH.
  - intros [H|H]; [now left|].
    destruct (eqb a x) eqn:E; [left; now apply eqb_spec|].
    right. apply filter_In. split; [now apply IH|]. now rewrite E.
Qed.

Lemma unique_nodup (l : list A) : NoDup (unique eqb l).
Proof.
  induction l as [|a l IH]; simpl; constructor.
  - intros H. apply filter_In in H. destruct H as [_ H].
    assert (E : eqb a a = true) by now apply eqb_spec.
    now rewrite E in H.
  - now apply NoDup_filter.
Qed.
End UniqueFacts.

Lemma option_string_eqb_spec (a b : option string) :
  option_eqb String.eqb a b = true <-> a = b.
Proof.
  destruct a as [a|], b as [b|]; simpl; try (split; congruence).
  rewrite String.eqb_eq. split; congruence.
Qed.

(** X5: [stores] and [customer_segments] of the summary list every value
    of their column exactly once, a missing value (NaN) included. *)
Theorem summary_distinct_labels (f : DataFrame) (s : Summary) :
  summarize f = Ok s ->
  (NoDup (stores s) /\
   forall x, In x (stores s) <-> In x (map store (rows f))) /\
  (NoDup (customer_segments s) /\
   forall x, In x (customer_segments s)
             <-> In x (map customer_segment (rows f))).
Proof.
  intros H.
  destruct (summarize_fields f s H)
    as (_ & _ & _ & _ & _ & _ & Hst & Hseg & _).
  rewrite Hst, Hseg. split; (split;
    [apply unique_nodup|intros x; apply unique_in];
    apply option_string_eqb_spec).
Qed.

Lemma summary_distinct_labels_witness :
  exists s, summarize scenario_table = Ok s /\ NoDup (stores s).
Proof.
  destruct scenario_summary as [s Hs]. exists s. split; [exact Hs|].
  exact (proj1 (proj1 (summary_distinct_labels scenario_table s Hs))).
Defined.

Section GroupKeys.
Context {K A : Type} (cmp : K -> K -> comparison).
Hypothesis laws : order_laws cmp.

Lemma ascending_keys_nodup (gs : list (K * list A)) :
  ascending_keys cmp gs -> NoDup (map fst gs).
Proof.
  unfold ascending_keys. induction 1 as [|kg gs Hs IH Hf]; simpl;
    constructor; [|exact IH].
  intros Hin. apply in_map_iff in Hin. destruct Hin as (kg' & E & Hin').
  rewrite Forall_forall in Hf. specialize (Hf _ Hin'). rewrite E in Hf.
  rewrite (cmp_refl cmp laws) in Hf. discriminate.
Qed.

Lemma groupby_keys (key : A -> option K) (l : list A) (k : K) :
  In k (map fst (groupby cmp key l)) <-> In (Some k) (map key l).
Proof.
  split.
  - intros Hin. apply in_map_iff in Hin. destruct Hin as ([k' g] & E & Hin).
    simpl in E. subst k'.
    destruct (groupby_key_occurs cmp laws key k g l Hin) as (a & Ha & Hk).
    apply in_map_iff. now exists a.
  - intros Hin. apply in_map_iff in Hin. destruct Hin as (a & Hk & Ha).
    apply in_map_iff.
    exists (k, filter (key_is cmp key k) l). split; [reflexivity|].
    now apply (groupby_complete cmp laws key k a l).
Qed.
End GroupKeys.

Lemma nunique_groups (key : Row -> option string) (l : list Row) :
  nunique String.eqb (map key l)
  = Z.of_nat (List.length (groupby String.compare key l)).
Proof.
  unfold nunique. f_equal.
  rewrite <- (length_map fst (groupby String.compare key l)).
  apply Permutation_length. apply NoDup_Permutation.
  - apply unique_nodup. apply String.eqb_eq.
  - apply (ascending_keys_nodup String.compare string_order).
    apply (groupby_ascending String.compare string_order).
  - intros k. rewrite (unique_in String.eqb String.eqb_eq), in_somes.
    symmetry. apply (groupby_keys String.compare string_order).
Qed.

Lemma menu_analysis_length (f : DataFrame) (ma : MenuAnalysis) :
  menu_performance_of f = Ok ma ->
  List.length (menu_performance ma) = List.length (menu_groups (rows f)).
Proof.
  intros H. destruct (menu_performance_inv f ma H) as [category ->].
  now rewrite length_map.
Qed.

(** X6: the summary and the menu analysis agree on the number of menu
    items: [unique_menu_items] is the number of entries of
    [menu_performance], and no larger than [total_records]. *)
Theorem summary_counts_menu_items (f : DataFrame) (s : Summary)
    (ma : MenuAnalysis) :
  summarize f = Ok s ->
  menu_performance_of f = Ok ma ->
  unique_menu_items s = Z.of_nat (List.length (menu_performance ma)) /\
  unique_menu_items s <= total_records s.
Proof.
  intros Hs Hma.
  destruct (summarize_fields f s Hs)
    as (_ & _ & Hn & _ & _ & _ & _ & _ & Hu & _).
  rewrite Hu, Hn, nunique_groups, (menu_analysis_length f ma Hma).
  split; [reflexivity|]. apply inj_le. unfold menu_groups.
  set (gs := groupby String.compare menu_item (rows f)).
  assert (Hle : (List.length (map (@Some string) (map fst gs))
                 <= List.length (map menu_item (rows f)))%nat).
  { apply NoDup_incl_length.
    - apply Finite.Injective_map_NoDup; [intros a b E; now inversion E|].
      apply (ascending_keys_nodup String.compare string_order).
      apply (groupby_ascending String.compare string_order).
    - intros x Hx. apply in_map_iff in Hx. destruct Hx as (k & <- & Hk).
      now apply (groupby_keys String.compare string_order). }
  now rewrite !length_map in Hle.
Qed.

Lemma summary_counts_menu_items_witness :
  exists s ma,
    summarize scenario_table = Ok s /\
    menu_performance_of scenario_table = Ok ma /\
    unique_menu_items s = Z.of_nat (List.length (menu_performance ma)).
Proof.
  destruct scenario_summary as [s Hs].
  destruct (menu_performance_of_groups parse_iso scenario_table
              scenario_table_normalized scenario_table_rows) as (ma & Hma & _).
  exists s, ma. split; [exact Hs|]. split; [exact Hma|].
  exact (proj1 (summary_counts_menu_items scenario_table s ma Hs Hma)).
Defined.

(** ** Cleaning *)

Lemma stamp_idempotent (parse_date : string -> option Timestamp)
    (c : datecell) :
  stamp parse_date (stamp parse_date c) = stamp parse_date c.
Proof.
  destruct c as [s|d|]; simpl; try reflexivity.
  destruct (parse_date s) eqn:E; simpl; [reflexivity|now rewrite E].
Qed.

Lemma stamp_parses (parse_date : string -> option Timestamp) (c : datecell) :
  parses parse_date c -> parses parse_date (stamp parse_date c).
Proof.
  destruct c as [s|d|]; simpl; auto.
  destruct (parse_date s) eqn:E; simpl; [auto|congruence].
Qed.

Lemma add_label_present (labels : list string) (label : string) :
  existsb (String.eqb label) labels = true -> add_label labels label = labels.
Proof. intros H. unfold add_label. now rewrite H. Qed.

Lemma normalize_idempotent (parse_date : string -> option Timestamp)
    (raw : DataFrame) :
  normalize parse_date (normalize parse_date raw) = normalize parse_date raw.
Proof.
  unfold normalize. cbn [columns rows]. f_equal.
  - unfold derived_columns. cbn [fold_left].
    repeat (rewrite (add_label_present _ _);
            [|rewrite ?existsb_app_single;
              rewrite ?String.eqb_refl, ?orb_true_r; reflexivity]).
    reflexivity.
  - rewrite !map_map. cbn [normalize_row revenue].
    apply map_ext. intros r. unfold normalize_row. cbn.
    now rewrite !stamp_idempotent.
Qed.

(** X7: [_clean_data] is idempotent: cleaning a table it has already
    cleaned succeeds and leaves the table as it is. *)
Theorem clean_frame_idempotent (parse_date : string -> option Timestamp)
    (raw f : DataFrame) :
  clean_frame parse_date raw = (Ok tt, f) ->
  clean_frame parse_date f = (Ok tt, f).
Proof.
  intros H. apply clean_frame_inv in H.
  destruct H as (Hd & Hr & Hq & Hp & ->).
  rewrite <- (normalize_idempotent parse_date raw) at 2.
  apply clean_frame_ok.
  - rewrite has_column_normalize, Hd. reflexivity.
  - rewrite has_column_normalize, Hr. reflexivity.
  - rewrite has_column_normalize, Hq. reflexivity.
  - unfold normalize. cbn [rows]. rewrite map_map. cbn [normalize_row date].
    rewrite Forall_map in Hp |- *.
    eapply Forall_impl; [|exact Hp]. intros r. apply stamp_parses.
Qed.

Lemma scenario_clean :
  clean_frame parse_iso (raw_frame scenario_rows) = (Ok tt, scenario_table).
Proof.
  apply clean_frame_ok; try reflexivity.
  repeat constructor; vm_compute; discriminate.
Qed.

Lemma clean_frame_idempotent_witness :
  clean_frame parse_iso scenario_table = (Ok tt, scenario_table).
Proof.
  exact (clean_frame_idempotent parse_iso (raw_frame scenario_rows)
           scenario_table scenario_clean).
Defined.

Lemma day_name_is_a_day (d : Timestamp) : In (day_name d) day_names.
Proof.
  unfold day_name.
  assert (H : 0 <= weekday d < 7)
    by (unfold weekday; apply Z.mod_pos_bound; lia).
  assert (E : weekday d = 0 \/ weekday d = 1 \/ weekday d = 2 \/
              weekday d = 3 \/ weekday d = 4 \/ weekday d = 5 \/
              weekday d = 6) by lia.
  destruct E as [E|[E|[E|[E|[E|[E|E]]]]]]; rewrite E; simpl; auto 10.
Qed.

Lemma iso_weeks_in_year_range (y : Z) :
  iso_weeks_in_year y = 52 \/ iso_weeks_in_year y = 53.
Proof. unfold iso_weeks_in_year. destruct (_ || _)%bool; auto. Qed.

Lemma iso_week_range (d : Timestamp) : 1 <= iso_week d <= 53.
Proof.
  unfold iso_week.
  set (w := (days_from_civil d - days_from_civil (mkdate (d_year d) 1 1) + 1
             - (weekday d + 1) + 10) / 7).
  destruct (Z.ltb_spec w 1).
  - destruct (iso_weeks_in_year_range (d_year d - 1)); lia.
  - rewrite Z.gtb_ltb. destruct (Z.ltb_spec (iso_weeks_in_year (d_year d)) w).
    + lia.
    + destruct (iso_weeks_in_year_range (d_year d)); lia.
Qed.

(** X8: in a cleaned table the three calendar columns follow the date of
    their row: without a date all three are missing; with one, [month] is
    its month, [day_of_week] is one of the seven English day names and
    [week] lies between 1 and 53. *)
Theorem clean_frame_calendar_columns (parse_date : string -> option Timestamp)
    (raw f : DataFrame) :
  clean_frame parse_date raw = (Ok tt, f) ->
  forall r, In r (rows f) ->
    (date r = DMissing /\ month r = None /\ day_of_week r = None /\
     week r = None) \/
    (exists d name w,
       date r = DStamp d /\ month r = Some (d_month d) /\
       day_of_week r = Some name /\ In name day_names /\
       week r = Some w /\ 1 <= w <= 53).
Proof.
  intros H r Hr. apply clean_frame_inv in H.
  destruct H as (_ & _ & _ & Hp & ->).
  unfold normalize in Hr. cbn [rows] in Hr. apply in_map_iff in Hr.
  destruct Hr as (r0 & <- & Hr0).
  rewrite Forall_map, Forall_forall in Hp. specialize (Hp r0 Hr0).
  cbn [normalize_row date month day_of_week week].
  destruct (date r0) as [s|d|] eqn:E; simpl in Hp |- *.
  - destruct (parse_date s) as [d|]; [|congruence]. right.
    exists d, (day_name d), (iso_week d). simpl.
    repeat split; try apply day_name_is_a_day; apply iso_week_range.
  - right. exists d, (day_name d), (iso_week d).
    repeat split; try apply day_name_is_a_day; apply iso_week_range.
  - left. auto.
Qed.

Lemma clean_frame_calendar_columns_witness :
  clean_frame parse_iso (raw_frame scenario_rows) = (Ok tt, scenario_table) /\
  forall r, In r (rows scenario_table) ->
    (date r = DMissing /\ month r = None /\ day_of_week r = None /\
     week r = None) \/
    (exists d name w,
       date r = DStamp d /\ month r = Some (d_month d) /\
       day_of_week r = Some name /\ In name day_names /\
       week r = Some w /\ 1 <= w <= 53).
Proof.
  split; [exact scenario_clean|].
  exact (clean_frame_calendar_columns parse_iso (raw_frame scenario_rows)
           scenario_table scenario_clean).
Defined.

Lemma source_cells_setitem {A : Type} (f : DataFrame) (label : string)
    (update : Row -> A -> Row) (g : Row -> A) :
  (forall r v, source_cells (update r v) = source_cells r) ->
  map source_cells (rows (setitem f label update (map g (rows f))))
  = map source_cells (rows f).
Proof.
  intros H. rewrite rows_setitem, map_map. apply map_ext. intros r. apply H.
Qed.

(** X9: whether [_clean_data] succeeds or raises, the table it leaves has
    the rows it found, in the same order, each with the store, menu item,
    revenue, quantity and customer segment it had: outliers are flagged,
    never removed. *)
Theorem clean_frame_keeps_source_cells
    (parse_date : string -> option Timestamp) (raw f' : DataFrame)
    (r : result unit) :
  clean_frame parse_date raw = (r, f') ->
  map source_cells (rows f') = map source_cells (rows raw) /\
  List.length (rows f') = List.length (rows raw).
Proof.
  intros H.
  assert (Hcells : map source_cells (rows f') = map source_cells (rows raw)).
  2:{ split; [exact Hcells|].
      now rewrite <- (length_map source_cells), Hcells, length_map. }
  pose proof H as H0. revert H. unfold clean_frame.
  destruct (has_column raw "date") eqn:Hd.
  2:{ rewrite get_absent by exact Hd. intros H. now inversion H. }
  rewrite get_present by exact Hd.
  destruct (to_datetime parse_date (map date (rows raw))) as [stamps|e] eqn:Et.
  2:{ rewrite lift_raise. intros H. now inversion H. }
  apply to_datetime_stamps in Et. destruct Et as [-> Hp].
  rewrite lift_ok, set_then, map_map.
  set (f1 := setitem raw "date" set_date
               (map (fun x => stamp parse_date (date x)) (rows raw))).
  assert (H1 : map source_cells (rows f1) = map source_cells (rows raw))
    by (apply source_cells_setitem; reflexivity).
  destruct (has_column raw "revenue") eqn:Hr.
  2:{ rewrite get_absent
        by (unfold f1; rewrite has_column_setitem, Hr; reflexivity).
      intros H. inversion H; subst. exact H1. }
  rewrite get_present
    by (unfold f1; rewrite has_column_setitem, Hr; reflexivity).
  rewrite set_then, map_map.
  match goal with
  | |- context [setitem f1 "is_outlier" set_is_outlier (map ?g (rows f1))] =>
      set (f2 := setitem f1 "is_outlier" set_is_outlier (map g (rows f1)))
  end.
  assert (H2 : map source_cells (rows f2) = map source_cells (rows raw))
    by (rewrite <- H1; apply source_cells_setitem; reflexivity).
  rewrite get_present
    by (unfold f2, f1; rewrite !has_column_setitem, Hr; reflexivity).
  destruct (has_column raw "qty") eqn:Hq.
  2:{ rewrite get_absent
        by (unfold f2, f1; rewrite !has_column_setitem, Hq; reflexivity).
      intros H. inversion H; subst. exact H2. }
  intros _.
  pose proof (clean_frame_ok parse_date raw Hd Hr Hq Hp) as Hok.
  rewrite H0 in Hok. inversion Hok; subst.
  unfold normalize. cbn [rows]. rewrite map_map. reflexivity.
Qed.

Lemma clean_frame_keeps_source_cells_witness :
  exists r f',
    clean_frame parse_iso no_qty_frame = (r, f') /\
    map source_cells (rows f') = map source_cells (rows no_qty_frame) /\
    List.length (rows f') = List.length (rows no_qty_frame).
Proof.
  destruct (clean_frame parse_iso no_qty_frame) as [r f'] eqn:E.
  exists r, f'. split; [reflexivity|].
  exact (clean_frame_keeps_source_cells parse_iso no_qty_frame f' r E).
Defined.

(** ** Loading *)

Lemma date_min_some (l : list Timestamp) :
  l <> [] -> exists d, date_min l = Some d.
Proof.
  destruct l as [|a l]; [congruence|]. intros _. simpl.
  destruct (date_min l); eauto.
Qed.

Lemma date_max_some (l : list Timestamp) :
  l <> [] -> exists d, date_max l = Some d.
Proof.
  destruct l as [|a l]; [congruence|]. intros _. simpl.
  destruct (date_max l); eauto.
Qed.

Lemma date_bound_ok (pick : list Timestamp -> option Timestamp)
    (cells : list datecell) :
  (forall l, l <> [] -> exists d, pick l = Some d) ->
  (forall s, ~ In (DText s) cells) ->
  (exists d, In (DStamp d) cells) ->
  exists d, date_bound pick cells = Ok d.
Proof.
  intros Hpick Htext [d Hd]. unfold date_bound.
  destruct (existsb _ cells) eqn:E.
  - apply existsb_exists in E. destruct E as ([s| |] & Hin & Hc);
      try discriminate. now elim (Htext s).
  - destruct (Hpick (somes (map (fun c => match c with
                                          | DStamp d0 => Some d0
                                          | _ => None
                                          end) cells))) as [m Hm].
    + intros Hnil.
      assert (Hin : In d (somes (map (fun c => match c with
                                               | DStamp d0 => Some d0
                                               | _ => None
                                               end) cells))).
      { apply in_somes. apply in_map_iff. now exists (DStamp d). }
      rewrite Hnil in Hin. exact Hin.
    + rewrite Hm. now exists m.
Qed.

Lemma summarize_ok (f : DataFrame) :
  (forall label, In label required_columns -> has_column f label = true) ->
  (forall s, ~ In (DText s) (map date (rows f))) ->
  (exists d, dated f d) ->
  exists s, summarize f = Ok s.
Proof.
  intros Hcols Htext Hdated. unfold summarize.
  rewrite !getitem_present by (apply Hcols; simpl; auto 10).
  cbn [bind].
  destruct (date_bound_ok date_min _ date_min_some Htext Hdated) as [d1 E1].
  destruct (date_bound_ok date_max _ date_max_some Htext Hdated) as [d2 E2].
  rewrite E1, E2. cbn [bind]. eexists. reflexivity.
Qed.

Lemma normalize_dates (parse_date : string -> option Timestamp)
    (raw : DataFrame) :
  Forall (parses parse_date) (map date (rows raw)) ->
  (forall s, ~ In (DText s) (map date (rows (normalize parse_date raw)))) /\
  ((exists d, dated (normalize parse_date raw) d) <-> has_a_date raw).
Proof.
  intros Hp. rewrite Forall_map, Forall_forall in Hp.
  unfold dated, has_a_date, normalize. cbn [rows]. rewrite map_map.
  cbn [normalize_row date]. split; [|split].
  - intros s Hin. apply in_map_iff in Hin. destruct Hin as (r & E & Hr).
    specialize (Hp r Hr). destruct (date r) as [s'|d|]; simpl in *;
      try discriminate.
    destruct (parse_date s'); [discriminate|congruence].
  - intros [d Hin]. apply in_map_iff in Hin. destruct Hin as (r & E & Hr).
    exists r. split; [exact Hr|]. intros Hm. rewrite Hm in E. discriminate.
  - intros (r & Hr & Hm). specialize (Hp r Hr).
    destruct (date r) as [s|d|] eqn:E; [| |congruence].
    + simpl in Hp. destruct (parse_date s) as [d|] eqn:Es; [|congruence].
      exists d. apply in_map_iff. exists r. split; [|exact Hr].
      rewrite E. simpl. now rewrite Es.
    + exists d. apply in_map_iff. exists r. split; [|exact Hr]. now rewrite E.
Qed.

Lemma summarize_dated (f : DataFrame) (s : Summary) :
  summarize f = Ok s -> exists d, dated f d.
Proof.
  intros H. destruct (summarize_fields f s H) as (Hmin & _).
  destruct (date_bound_stamps _ _ _ Hmin) as (ds & Emin & Hds).
  apply date_min_spec in Emin. destruct Emin as [Hin _].
  eexists. apply Hds. exact Hin.
Qed.

Lemma load_dataset_succeeds (parse_date : string -> option Timestamp)
    (raw : DataFrame) (self : DataProcessor) :
  loadable parse_date raw ->
  exists s,
    summarize (normalize parse_date raw) = Ok s /\
    load_dataset parse_date (Ok raw) self
    = (Ok (Some (normalize parse_date raw)),
       {| df := Some (normalize parse_date raw); data_summary := Dict s |}).
Proof.
  intros (Hcols & Hp & Hdate).
  assert (Hclean : clean_frame parse_date raw
                   = (Ok tt, normalize parse_date raw))
    by (apply clean_frame_ok; [apply Hcols; simpl; auto 10..|exact Hp]).
  destruct (normalize_dates parse_date raw Hp) as [Htext Hdated].
  destruct (summarize_ok (normalize parse_date raw)) as [s Hs].
  - intros label Hin. rewrite has_column_normalize, (Hcols label Hin).
    reflexivity.
  - exact Htext.
  - now apply Hdated.
  - exists s. split; [exact Hs|].
    unfold load_dataset, mbind, _clean_data, _generate_summary.
    cbn [df data_summary]. rewrite Hclean. cbn [df data_summary].
    rewrite Hs. reflexivity.
Qed.

Lemma load_dataset_fails (parse_date : string -> option Timestamp)
    (raw : DataFrame) (self : DataProcessor) :
  ~ loadable parse_date raw ->
  exists e f',
    load_dataset parse_date (Ok raw) self
    = (Raise e, {| df := Some f'; data_summary := data_summary self |}).
Proof.
  intros Hnot.
  destruct (clean_frame parse_date raw) as [[[]|e] f] eqn:E.
  - apply clean_frame_inv in E as E'.
    destruct E' as (Hd & Hr & Hq & Hp & ->).
    destruct (summarize (normalize parse_date raw)) as [s|e] eqn:Es.
    + exfalso. apply Hnot. split; [|split; [exact Hp|]].
      * pose proof (summarize_needs _ _ Es) as (Hs & Hm & Hc).
        rewrite !has_column_normalize in Hs, Hm, Hc.
        cbn [existsb derived_columns] in Hs, Hm, Hc.
        intros label Hin. unfold required_columns in Hin. cbn [In] in Hin.
        destruct Hin as [<-|[<-|[<-|[<-|[<-|[<-|[]]]]]]]; try assumption.
        -- destruct (has_column raw "store"); [reflexivity|].
           cbn in Hs. discriminate.
        -- destruct (has_column raw "menu_item"); [reflexivity|].
           cbn in Hm. discriminate.
        -- destruct (has_column raw "customer_segment"); [reflexivity|].
           cbn in Hc. discriminate.
      * apply (normalize_dates parse_date raw Hp).
        exact (summarize_dated _ _ Es).
    + exists e, (normalize parse_date raw).
      now apply load_dataset_summary_raises.
  - exists e, f. now apply load_dataset_clean_raises.
Qed.

(** X10: [load_dataset] succeeds exactly on the tables that have the six
    required columns, whose date texts all parse and in which some row has
    a date.  It then returns and stores the cleaned table together with
    its summary; in every other case it raises, stores no new summary and
    leaves a table in [self.df]. *)
Theorem load_dataset_outcome (parse_date : string -> option Timestamp)
    (raw : DataFrame) (self : DataProcessor) :
  (loadable parse_date raw ->
   exists s,
     summarize (normalize parse_date raw) = Ok s /\
     load_dataset parse_date (Ok raw) self
     = (Ok (Some (normalize parse_date raw)),
        {| df := Some (normalize parse_date raw); data_summary := Dict s |}))
  /\
  (~ loadable parse_date raw ->
   exists e f',
     load_dataset parse_date (Ok raw) self
     = (Raise e, {| df := Some f'; data_summary := data_summary self |})).
Proof.
  split; [apply load_dataset_succeeds|apply load_dataset_fails].
Qed.

Lemma scenario_loadable : loadable parse_iso (raw_frame scenario_rows).
Proof.
  split; [apply raw_frame_required|]. split.
  - repeat constructor; vm_compute; discriminate.
  - eexists. split; [left; reflexivity|discriminate].
Qed.

Lemma load_dataset_outcome_witness :
  loadable parse_iso (raw_frame scenario_rows) /\
  exists s,
    load_dataset parse_iso (Ok (raw_frame scenario_rows)) init
    = (Ok (Some scenario_table),
       {| df := Some scenario_table; data_summary := Dict s |}).
Proof.
  split; [exact scenario_loadable|].
  destruct (proj1 (load_dataset_outcome parse_iso (raw_frame scenario_rows)
                     init) scenario_loadable) as (s & _ & H).
  exists s. exact H.
Defined.

(** ** Sales trends by month and by day of the week *)

Lemma normalized_month_key (parse_date : string -> option Timestamp)
    (f : DataFrame) :
  normalized parse_date f ->
  forall r, In r (rows f) ->
    has_key month r = has_key (fun r => some_date (date r)) r /\
    has_key day_of_week r = has_key (fun r => some_date (date r)) r /\
    forall name, day_of_week r = Some name -> In name day_names.
Proof.
  intros H r Hr. destruct (normalized_rows _ _ H) as (raw & Hrows & Hp).
  rewrite Hrows in Hr. apply in_map_iff in Hr. destruct Hr as (r0 & <- & Hr0).
  rewrite Forall_forall in Hp.
  specialize (Hp (date r0) (in_map date _ _ Hr0)).
  unfold has_key. cbn [normalize_row date month day_of_week].
  destruct (date r0) as [s|d|]; simpl in *.
  - destruct (parse_date s) as [d|]; [|congruence]. simpl.
    repeat split. intros name E. inversion E. apply day_name_is_a_day.
  - repeat split. intros name E. inversion E. apply day_name_is_a_day.
  - repeat split. discriminate.
Qed.

Lemma groups_total_map {K A B : Type} (w : A -> Z) (c : K * list A -> B)
    (v : B -> Z) (gs : list (K * list A)) :
  (forall kg, v (c kg) = zsum (map w (snd kg))) ->
  zsum (map v (map c gs)) = groups_total w gs.
Proof.
  intros H. unfold groups_total. rewrite map_map. f_equal.
  apply map_ext. exact H.
Qed.

Lemma sales_trends_inv (f : DataFrame) (t : SalesTrends) :
  sales_trends f = Ok t ->
  t = {| daily_trends := daily_sales (rows f);
         monthly_trends := monthly_sales (rows f);
         weekly_patterns := weekly_pattern (rows f) |}.
Proof.
  rewrite sales_trends_eq. unfold bind. intros H.
  destruct (getitem f "date" date); [|discriminate].
  destruct (getitem f "revenue" revenue); [|discriminate].
  destruct (getitem f "qty" qty); [|discriminate].
  destruct (getitem f "month" month); [|discriminate].
  destruct (getitem f "day_of_week" day_of_week); [|discriminate].
  now inversion H.
Qed.

(** X11: on a table whose sums are within int64, [monthly_trends] lists
    the months in strictly ascending order, each with the sums of
    [revenue] and of [qty] over the rows of exactly that month; the months
    and the days account for the same totals, those of the rows that have
    a date. *)
Theorem sales_trends_by_month (parse_date : string -> option Timestamp)
    (f : DataFrame) (t : SalesTrends) :
  normalized parse_date f ->
  within_int64 f ->
  sales_trends f = Ok t ->
  StronglySorted Z.lt (map monthly_month (monthly_trends t)) /\
  (forall e, In e (monthly_trends t) ->
     monthly_revenue e
     = zsum (map revenue
               (filter (key_is Z.compare month (monthly_month e)) (rows f))) /\
     monthly_qty e
     = zsum (map qty
               (filter (key_is Z.compare month (monthly_month e)) (rows f)))) /\
  (zsum (map monthly_revenue (monthly_trends t))
   = zsum (map daily_revenue (daily_trends t)) /\
   zsum (map daily_revenue (daily_trends t))
   = zsum (map revenue
             (filter (has_key (fun r => some_date (date r))) (rows f)))) /\
  (zsum (map monthly_qty (monthly_trends t))
   = zsum (map daily_qty (daily_trends t)) /\
   zsum (map daily_qty (daily_trends t))
   = zsum (map qty
             (filter (has_key (fun r => some_date (date r))) (rows f)))).
Proof.
  intros H [Hrev Hqty] Ht. apply sales_trends_inv in Ht. subst t.
  cbn [monthly_trends daily_trends].
  assert (Hkey : filter (has_key month) (rows f)
                 = filter (has_key (fun r => some_date (date r))) (rows f)).
  { apply filter_ext_in. intros r Hr.
    exact (proj1 (normalized_month_key _ _ H r Hr)). }
  split; [|split; [|split]].
  - unfold monthly_sales. rewrite map_map. cbn [monthly_month].
    change (map (fun x : Z * list Row => fst x) ?l) with (map fst l).
    apply (StronglySorted_map Z.lt fst).
    eapply StronglySorted_impl;
      [|exact (groupby_ascending Z.compare Z_order month (rows f))].
    intros a b E. now apply Z.compare_lt_iff.
  - intros e He. unfold monthly_sales in He. apply in_map_iff in He.
    destruct He as ([k g] & <- & Hin).
    cbn [monthly_month monthly_revenue monthly_qty fst snd].
    rewrite (isum_group Z.compare Z_order revenue month _ k g Hrev Hin).
    rewrite (isum_group Z.compare Z_order qty month _ k g Hqty Hin).
    rewrite (groupby_group Z.compare Z_order month _ g _ Hin).
    split; reflexivity.
  - unfold monthly_sales, daily_sales. rewrite !map_map.
    cbn [monthly_revenue daily_revenue].
    rewrite (isum_groups_total Z.compare Z_order revenue month _ Hrev).
    rewrite (isum_groups_total datecell_compare datecell_order revenue
               (fun r => some_date (date r)) _ Hrev).
    rewrite Hkey. split; reflexivity.
  - unfold monthly_sales, daily_sales. rewrite !map_map.
    cbn [monthly_qty daily_qty].
    rewrite (isum_groups_total Z.compare Z_order qty month _ Hqty).
    rewrite (isum_groups_total datecell_compare datecell_order qty
               (fun r => some_date (date r)) _ Hqty).
    rewrite Hkey. split; reflexivity.
Qed.

Lemma scenario_trends : exists t, sales_trends scenario_table = Ok t.
Proof. eexists. vm_compute. reflexivity. Qed.

Lemma sales_trends_by_month_witness :
  exists t,
    sales_trends scenario_table = Ok t /\
    StronglySorted Z.lt (map monthly_month (monthly_trends t)) /\
    zsum (map monthly_revenue (monthly_trends t))
    = zsum (map daily_revenue (daily_trends t)).
Proof.
  destruct scenario_trends as [t Ht]. exists t. split; [exact Ht|].
  destruct (sales_trends_by_month parse_iso scenario_table t
              scenario_table_normalized scenario_table_within_int64 Ht)
    as (H1 & _ & [H3 _] & _).
  split; [exact H1|exact H3].
Defined.

Lemma truediv_nonzero (a b : Z) :
  b <> 0 -> truediv a b = fin (inject_Z a / inject_Z b).
Proof.
  intros H. unfold truediv, fdiv, of_int.
  destruct (Qeq_bool (inject_Z b) 0) eqn:E; [|reflexivity].
  apply Qeq_bool_iff in E. change 0%Q with (inject_Z 0) in E.
  apply (proj1 (inject_Z_injective _ _)) in E. contradiction.
Qed.

Lemma zmean_nonempty (l : list Z) :
  l <> [] ->
  zmean l = fin (inject_Z (zsum l) / inject_Z (Z.of_nat (List.length l))).
Proof.
  intros H. unfold zmean. apply truediv_nonzero.
  destruct l; [congruence|simpl; lia].
Qed.

(** X12: [weekly_patterns] has at most seven entries, in alphabetical
    order of the English day names: one for every day of the week on
    which a row of the table falls, and no other; each holds the finite
    averages of [revenue] and of [qty] over the rows that fall on its
    day. *)
Theorem sales_trends_by_weekday (parse_date : string -> option Timestamp)
    (f : DataFrame) (t : SalesTrends) :
  normalized parse_date f ->
  sales_trends f = Ok t ->
  (List.length (weekly_patterns t) <= 7)%nat /\
  StronglySorted (fun a b => String.compare a b = Lt)
                 (map weekly_day_of_week (weekly_patterns t)) /\
  (forall day, In day (map weekly_day_of_week (weekly_patterns t)) <->
     exists r, In r (rows f) /\ day_of_week r = Some day) /\
  forall e, In e (weekly_patterns t) ->
    In (weekly_day_of_week e) day_names /\
    exists g,
      g = filter (key_is String.compare day_of_week (weekly_day_of_week e))
                 (rows f) /\
      g <> [] /\
      weekly_revenue e
      = fin (inject_Z (zsum (map revenue g))
             / inject_Z (Z.of_nat (List.length g))) /\
      weekly_qty e
      = fin (inject_Z (zsum (map qty g))
             / inject_Z (Z.of_nat (List.length g))).
Proof.
  intros H Ht. apply sales_trends_inv in Ht. subst t.
  cbn [weekly_patterns]. unfold weekly_pattern.
  set (gs := groupby String.compare day_of_week (rows f)).
  assert (Hasc : ascending_keys String.compare gs)
    by exact (groupby_ascending String.compare string_order _ _).
  assert (Hnames : forall k g, In (k, g) gs -> In k day_names).
  { intros k g Hin.
    destruct (groupby_key_occurs String.compare string_order _ k g _ Hin)
      as (r & Hr & Hk).
    exact (proj2 (proj2 (normalized_month_key _ _ H r Hr)) k Hk). }
  assert (Hfst : map weekly_day_of_week
                   (map (fun kg : string * list Row =>
                           {| weekly_day_of_week := fst kg;
                              weekly_revenue := zmean (map revenue (snd kg));
                              weekly_qty := zmean (map qty (snd kg)) |}) gs)
                 = map fst gs).
  { rewrite map_map. reflexivity. }
  split; [|split; [|split]].
  - rewrite length_map, <- (length_map fst).
    change 7%nat with (List.length day_names).
    apply NoDup_incl_length.
    + exact (ascending_keys_nodup String.compare string_order gs Hasc).
    + intros k Hk. apply in_map_iff in Hk. destruct Hk as ([k' g] & <- & Hin).
      exact (Hnames k' g Hin).
  - rewrite Hfst. apply (StronglySorted_map _ fst). exact Hasc.
  - intros day. rewrite Hfst. unfold gs.
    rewrite (groupby_keys String.compare string_order), in_map_iff.
    split; intros (r & Hr1 & Hr2); exists r; auto.
  - intros e He. apply in_map_iff in He. destruct He as ([k g] & <- & Hin).
    cbn [weekly_day_of_week weekly_revenue weekly_qty fst snd].
    split; [exact (Hnames k g Hin)|].
    assert (Hne : g <> []).
    { pose proof (groupby_nonempty_groups String.compare day_of_week (rows f))
        as Hall.
      rewrite Forall_forall in Hall. exact (Hall (k, g) Hin). }
    exists g. split;
      [exact (groupby_group String.compare string_order _ _ g _ Hin)|].
    split; [exact Hne|].
    rewrite !zmean_nonempty
      by (intros E; apply map_eq_nil in E; contradiction).
    rewrite !length_map. split; reflexivity.
Qed.

Lemma sales_trends_by_weekday_witness :
  exists t,
    sales_trends scenario_table = Ok t /\
    (List.length (weekly_patterns t) <= 7)%nat /\
    forall e, In e (weekly_patterns t) -> In (weekly_day_of_week e) day_names.
Proof.
  destruct scenario_trends as [t Ht]. exists t. split; [exact Ht|].
  destruct (sales_trends_by_weekday parse_iso scenario_table t
              scenario_table_normalized Ht) as (H1 & _ & _ & H3).
  split; [exact H1|]. intros e He. exact (proj1 (H3 e He)).
Defined.

(** ** The metrics of the menu analysis *)

Lemma fleb_of_int (a b : Z) : fleb (of_int a) (of_int b) = (a <=? b).
Proof.
  unfold fleb, flt, of_int. rewrite negb_involutive.
  unfold Qle_bool. cbn [Qnum Qden inject_Z]. now rewrite !Z.mul_1_r.
Qed.

Lemma insert_sorted_of_int (a : Z) (l : list Z) :
  insert_sorted fleb (of_int a) (map of_int l)
  = map of_int (insert_sorted Z.leb a l).
Proof.
  induction l as [|b l IH]; [reflexivity|].
  cbn [map insert_sorted]. rewrite fleb_of_int.
  destruct (b <=? a); [|reflexivity]. cbn [map]. now rewrite IH.
Qed.

Lemma stable_sort_of_int (l : list Z) :
  stable_sort fleb (map of_int l) = map of_int (stable_sort Z.leb l).
Proof.
  unfold stable_sort. change [] with (map of_int []) at 1.
  generalize (@nil Z). induction l as [|a l IH]; intros acc; [reflexivity|].
  cbn [map fold_left]. rewrite insert_sorted_of_int. apply IH.
Qed.

Lemma notna_of_int (l : list Z) : filter notna (map of_int l) = map of_int l.
Proof. induction l as [|a l IH]; [reflexivity|]. simpl. now rewrite IH. Qed.

Lemma sorted_last {A : Type} (R : A -> A -> Prop) (l : list A) (d : A) :
  StronglySorted R l ->
  forall x, In x l -> x = last l d \/ R x (last l d).
Proof.
  induction 1 as [|a l Hs IH Hf]; intros x Hx; [destruct Hx|].
  destruct l as [|b l]; [destruct Hx as [<-|[]]; now left|].
  change (last (a :: b :: l) d) with (last (b :: l) d).
  destruct Hx as [<-|Hx]; [|now apply IH].
  right. rewrite Forall_forall in Hf. apply Hf.
  clear. revert b. induction l as [|c l IH]; intros b; [now left|].
  right. apply IH.
Qed.

Lemma last_in {A : Type} (l : list A) (d : A) : l <> [] -> In (last l d) l.
Proof.
  induction l as [|a l IH]; [congruence|]. intros _.
  destruct l as [|b l]; [now left|]. right. apply IH. discriminate.
Qed.

Lemma last_map {A B : Type} (g : A -> B) (l : list A) (d : A) (d' : B) :
  l <> [] -> last (map g l) d' = g (last l d).
Proof.
  induction l as [|a l IH]; [congruence|]. intros _.
  destruct l as [|b l]; [reflexivity|].
  change (last (map g (a :: b :: l)) d') with (last (map g (b :: l)) d').
  change (last (a :: b :: l) d) with (last (b :: l) d).
  apply IH. discriminate.
Qed.

(** [Series.max()] of a column of integers that has a row is its largest
    value. *)
Lemma zmax_spec (l : list Z) :
  l <> [] ->
  exists m, zmax l = of_int m /\ In m l /\ forall x, In x l -> x <= m.
Proof.
  intros Hne. unfold zmax, fmax.
  rewrite notna_of_int, stable_sort_of_int.
  set (s := stable_sort Z.leb l).
  assert (Hperm : Permutation s l) by apply stable_sort_perm.
  assert (Hsorted : StronglySorted (fun x y => (x <=? y) = true) s).
  { apply stable_sort_sorted.
    - intros a b. destruct (Z.leb_spec a b); [now left|right].
      apply Z.leb_le. lia.
    - intros a b c H1 H2. apply Z.leb_le in H1, H2. apply Z.leb_le. lia. }
  assert (Hs : s <> []).
  { intros E. rewrite E in Hperm. apply Permutation_nil in Hperm.
    contradiction. }
  exists (last s 0). split; [exact (last_map of_int s 0 NaN Hs)|]. split.
  - apply (Permutation_in _ Hperm). now apply last_in.
  - intros x Hx. apply (Permutation_in _ (Permutation_sym Hperm)) in Hx.
    destruct (sorted_last _ s 0 Hsorted x Hx) as [->|H]; [lia|].
    now apply Z.leb_le.
Qed.

Lemma popularity_score_value (n m : Z) :
  1 <= n <= m ->
  exists q,
    fmul (fdiv (of_int n) (of_int m)) (Fin 100) = Fin q /\
    (0 < q)%Q /\ (q <= 100)%Q /\ (n = m -> q = 100%Q).
Proof.
  intros H. change (fdiv (of_int n) (of_int m)) with (truediv n m).
  rewrite truediv_nonzero by lia. unfold fin, fmul.
  eexists. split; [reflexivity|].
  assert (Hm : (0 < inject_Z m)%Q)
    by (change 0%Q with (inject_Z 0); rewrite <- Zlt_Qlt; lia).
  assert (Hn : (0 < inject_Z n)%Q)
    by (change 0%Q with (inject_Z 0); rewrite <- Zlt_Qlt; lia).
  assert (Hle : (inject_Z n <= inject_Z m)%Q) by (rewrite <- Zle_Qle; lia).
  assert (Hpos : (0 < inject_Z n / inject_Z m)%Q)
    by (apply Qlt_shift_div_l; [exact Hm|now rewrite Qmult_0_l]).
  assert (Hone : (inject_Z n / inject_Z m <= 1)%Q)
    by (apply Qle_shift_div_r; [exact Hm|now rewrite Qmult_1_l]).
  repeat split.
  - rewrite !Qred_correct.
    setoid_replace 0%Q with (0 * 100)%Q by reflexivity.
    apply Qmult_lt_compat_r; [reflexivity|exact Hpos].
  - rewrite !Qred_correct.
    setoid_replace 100%Q with (1 * 100)%Q at 2 by reflexivity.
    apply Qmult_le_compat_r; [exact Hone|discriminate].
  - intros ->.
    assert (E : Qred (inject_Z m / inject_Z m) = 1%Q).
    { change 1%Q with (Qred 1). apply Qred_complete.
      apply Qmult_inv_r. intros E'. rewrite E' in Hm.
      exact (Qlt_irrefl _ Hm). }
    rewrite E. reflexivity.
Qed.

(** X13: every entry of [menu_performance] stands for at least one order,
    so that its [revenue_per_order] is the finite quotient of its total
    revenue by its frequency (no division by zero, unlike [avg_price]);
    its [popularity_score] is finite, above 0 and at most 100, and an
    item of the largest frequency scores exactly 100. *)
Theorem menu_performance_metrics (f : DataFrame) (ma : MenuAnalysis) :
  menu_performance_of f = Ok ma ->
  (forall m, In m (menu_performance ma) ->
     1 <= mp_frequency m /\
     mp_revenue_per_order m
     = fin (inject_Z (mp_total_revenue m) / inject_Z (mp_frequency m)) /\
     exists q, mp_popularity_score m = Fin q /\ (0 < q)%Q /\ (q <= 100)%Q) /\
  (menu_performance ma <> [] ->
   exists m, In m (menu_performance ma) /\
             (forall m', In m' (menu_performance ma) ->
                mp_frequency m' <= mp_frequency m) /\
             mp_popularity_score m = Fin 100).
Proof.
  intros H. destruct (menu_performance_inv f ma H) as [category E].
  rewrite E. clear E H.
  set (gs := menu_groups (rows f)).
  set (freq := fun kg : string * list Row => Z.of_nat (List.length (snd kg))).
  assert (Hpos : forall kg, In kg gs -> 1 <= freq kg).
  { intros kg Hin.
    pose proof (groupby_nonempty_groups String.compare menu_item (rows f))
      as Hall.
    rewrite Forall_forall in Hall. specialize (Hall kg Hin). unfold freq.
    destruct (snd kg); [congruence|simpl; lia]. }
  destruct gs as [|kg0 gs'] eqn:Egs.
  - split; [intros m []|]. intros Hne. now elim Hne.
  - rewrite <- Egs in *.
    destruct (zmax_spec (map freq gs)) as (mx & Emax & Hin & Hle).
    { rewrite Egs. discriminate. }
    fold freq. rewrite Emax.
    split.
    + intros m Hm. apply in_map_iff in Hm. destruct Hm as (kg & <- & Hkg).
      cbn [menu_row mp_frequency mp_revenue_per_order mp_total_revenue
           mp_popularity_score fst snd].
      fold (freq kg). pose proof (Hpos kg Hkg) as Hk.
      split; [exact Hk|]. split; [apply truediv_nonzero; lia|].
      destruct (popularity_score_value (freq kg) mx) as (q & Eq & H0 & H1 & _).
      { split; [exact Hk|]. apply Hle. now apply in_map. }
      exists q. auto.
    + intros _. apply in_map_iff in Hin. destruct Hin as (kg & Ekg & Hkg).
      exists (menu_row (of_int mx) (kg, category kg)). split; [|split].
      * apply in_map_iff. now exists kg.
      * intros m' Hm'. apply in_map_iff in Hm'.
        destruct Hm' as (kg' & <- & Hkg').
        cbn [menu_row mp_frequency fst snd]. fold (freq kg) (freq kg').
        rewrite Ekg. apply Hle. now apply in_map.
      * cbn [menu_row mp_popularity_score fst snd]. fold (freq kg).
        destruct (popularity_score_value (freq kg) mx) as (q & Eq & _ & _ & E).
        { rewrite Ekg. pose proof (Hpos kg Hkg). lia. }
        rewrite Eq, (E Ekg). reflexivity.
Qed.

Lemma scenario_menu : exists ma, menu_performance_of scenario_table = Ok ma.
Proof. eexists. vm_compute. reflexivity. Qed.

Lemma menu_performance_metrics_witness :
  exists ma,
    menu_performance_of scenario_table = Ok ma /\
    forall m, In m (menu_performance ma) ->
      exists q, mp_popularity_score m = Fin q /\ (0 < q)%Q /\ (q <= 100)%Q.
Proof.
  destruct scenario_menu as [ma Hma]. exists ma. split; [exact Hma|].
  intros m Hm.
  exact (proj2 (proj2 (proj1 (menu_performance_metrics scenario_table ma Hma)
                         m Hm))).
Defined.

(** ** Segments and stores *)

Section GroupSizes.
Context {K A : Type} (cmp : K -> K -> comparison).

Lemma insert_group_length (k : K) (a : A) (gs : list (K * list A)) :
  (List.length (insert_group cmp k a gs) <= S (List.length gs))%nat.
Proof.
  induction gs as [|[k' g] rest IH]; simpl; [lia|].
  destruct (cmp k k'); simpl; lia.
Qed.

Lemma groupby_length_le (key : A -> option K) (l : list A) :
  (List.length (groupby cmp key l) <= List.length l)%nat.
Proof.
  unfold groupby.
  assert (H : forall gs,
             (List.length
                (fold_left (fun gs a => match key a with
                                        | Some k => insert_group cmp k a gs
                                        | None => gs
                                        end) l gs)
              <= List.length gs + List.length l)%nat).
  { induction l as [|a l IH]; intros gs; simpl; [lia|].
    specialize (IH (match key a with
                    | Some k => insert_group cmp k a gs
                    | None => gs
                    end)).
    destruct (key a) as [k|]; [|lia].
    pose proof (insert_group_length k a gs). lia. }
  exact (H []).
Qed.
End GroupSizes.

Lemma zsum_ones {A : Type} (l : list A) :
  zsum (map (fun _ => 1) l) = Z.of_nat (List.length l).
Proof.
  induction l as [|a l IH]; [reflexivity|].
  cbn [map zsum fold_right List.length]. unfold zsum in IH. rewrite IH. lia.
Qed.

(** X14: [segment_performance] and [segment_comparison] list the same
    segments, in ascending order.  Every segment stands for at least one
    transaction, its [transaction_count] is the number of rows carrying
    it and its [customer_value] the finite quotient of its revenue by
    that count; the counts add up to the number of rows that carry a
    segment. *)
Theorem segment_performance_metrics (f : DataFrame) (sa : SegmentAnalysis) :
  customer_segments_of f = Ok sa ->
  StronglySorted (fun a b => String.compare a b = Lt)
                 (map sp_customer_segment (segment_performance sa)) /\
  map fst (segment_comparison sa)
  = map sp_customer_segment (segment_performance sa) /\
  (forall e, In e (segment_performance sa) ->
     1 <= sp_transaction_count e /\
     sp_transaction_count e
     = Z.of_nat (List.length
                   (filter (key_is String.compare customer_segment
                                   (sp_customer_segment e)) (rows f))) /\
     sp_customer_value e
     = fin (inject_Z (sp_total_revenue e)
            / inject_Z (sp_transaction_count e))) /\
  zsum (map sp_transaction_count (segment_performance sa))
  = Z.of_nat (List.length (filter (has_key customer_segment) (rows f))) /\
  zsum (map sp_transaction_count (segment_performance sa))
  <= Z.of_nat (List.length (rows f)).
Proof.
  intros H. apply customer_segments_inv in H. subst sa.
  cbn [segment_performance segment_comparison]. unfold segment_groups.
  set (gs := groupby String.compare customer_segment (rows f)).
  assert (Hcount :
            zsum (map sp_transaction_count
                    (map (segment_row (isum (map revenue (rows f)))) gs))
            = Z.of_nat (List.length (filter (has_key customer_segment)
                                            (rows f)))).
  { rewrite (groups_total_map (fun _ => 1) _ sp_transaction_count).
    - unfold gs. rewrite groupby_partition. apply zsum_ones.
    - intros kg. cbn [segment_row sp_transaction_count].
      symmetry. apply zsum_ones. }
  split; [|split; [|split; [|split]]].
  - rewrite map_map. cbn [segment_row sp_customer_segment].
    apply (StronglySorted_map _ fst).
    exact (groupby_ascending String.compare string_order _ _).
  - rewrite !map_map. reflexivity.
  - intros e He. apply in_map_iff in He. destruct He as ([k g] & <- & Hin).
    cbn [segment_row sp_transaction_count sp_customer_segment
         sp_customer_value sp_total_revenue fst snd].
    assert (Hne : g <> []).
    { pose proof (groupby_nonempty_groups String.compare customer_segment
                    (rows f)) as Hall.
      rewrite Forall_forall in Hall. exact (Hall (k, g) Hin). }
    assert (Hpos : 1 <= Z.of_nat (List.length g))
      by (destruct g; [congruence|simpl; lia]).
    split; [exact Hpos|]. split.
    + now rewrite <- (groupby_group String.compare string_order _ _ g _ Hin).
    + apply truediv_nonzero. lia.
  - exact Hcount.
  - rewrite Hcount. apply inj_le. apply filter_length_le.
Qed.

Lemma scenario_segments :
  exists sa, customer_segments_of scenario_table = Ok sa.
Proof. eexists. vm_compute. reflexivity. Qed.

Lemma segment_performance_metrics_witness :
  exists sa,
    customer_segments_of scenario_table = Ok sa /\
    map fst (segment_comparison sa)
    = map sp_customer_segment (segment_performance sa) /\
    zsum (map sp_transaction_count (segment_performance sa))
    <= Z.of_nat (List.length (rows scenario_table)).
Proof.
  destruct scenario_segments as [sa Hsa]. exists sa. split; [exact Hsa|].
  destruct (segment_performance_metrics scenario_table sa Hsa)
    as (_ & H2 & _ & _ & H5).
  split; [exact H2|exact H5].
Defined.

Lemma store_performance_inv (f : DataFrame) (st : StoreAnalysis) :
  store_performance_of f = Ok st ->
  st = {| store_performance :=
            map (store_row (nunique datecell_eqb
                              (map some_date (map date (rows f)))))
                (groupby String.compare store (rows f));
          store_popular_items :=
            map (fun s => (s, nlargest 5 snd
                                (group_sums menu_item qty
                                   (filter (store_is s) (rows f)))))
                (unique (option_eqb String.eqb) (map store (rows f))) |}.
Proof.
  rewrite store_performance_of_eq. unfold getitem, bind. intros H.
  destruct (has_column f "store"); [|discriminate].
  destruct (has_column f "revenue"); [|discriminate].
  destruct (has_column f "qty"); [|discriminate].
  destruct (has_column f "menu_item"); [|discriminate].
  destruct (has_column f "date"); [|discriminate].
  now inversion H.
Qed.

Lemma somes_some_date (l : list Row) :
  somes (map some_date (map date l)) = []
  <-> forall r, In r l -> date r = DMissing.
Proof.
  induction l as [|r l IH]; simpl; [tauto|].
  destruct (date r) as [s|d|] eqn:E; simpl.
  - split; [discriminate|]. intros H. specialize (H r (or_introl eq_refl)).
    congruence.
  - split; [discriminate|]. intros H. specialize (H r (or_introl eq_refl)).
    congruence.
  - rewrite IH. split.
    + intros H r' [<-|Hr']; [exact E|now apply H].
    + intros H r' Hr'. apply H. now right.
Qed.

Lemma nunique_dates_zero (l : list Row) :
  nunique datecell_eqb (map some_date (map date l)) = 0
  <-> forall r, In r l -> date r = DMissing.
Proof.
  rewrite <- somes_some_date. unfold nunique.
  destruct (somes (map some_date (map date l))) as [|c cs]; simpl.
  - tauto.
  - split; [lia|discriminate].
Qed.

(** X15: every entry of [store_performance] stands for at least one
    transaction; its [menu_variety] never exceeds its
    [transaction_count], and its [efficiency_score] is finite.  Its
    [revenue_per_day] is finite when some row of the table has a date;
    when none has, it is the division of the store's revenue by zero:
    an infinity, or NaN for a revenue of zero. *)
Theorem store_performance_metrics (f : DataFrame) (st : StoreAnalysis) :
  store_performance_of f = Ok st ->
  (forall e, In e (store_performance st) ->
     1 <= st_transaction_count e /\
     0 <= st_menu_variety e <= st_transaction_count e /\
     isfinite (st_efficiency_score e) = true) /\
  (has_a_date f ->
   forall e, In e (store_performance st) ->
     isfinite (st_revenue_per_day e) = true) /\
  (~ has_a_date f ->
   forall e, In e (store_performance st) ->
     st_revenue_per_day e = zero_qty_price (st_total_revenue e)).
Proof.
  intros H. apply store_performance_inv in H. subst st.
  cbn [store_performance].
  set (days := nunique datecell_eqb (map some_date (map date (rows f)))).
  split; [|split].
  - intros e He. apply in_map_iff in He. destruct He as ([k g] & <- & Hin).
    cbn [store_row st_transaction_count st_menu_variety st_efficiency_score
         fst snd].
    assert (Hne : g <> []).
    { pose proof (groupby_nonempty_groups String.compare store (rows f))
        as Hall.
      rewrite Forall_forall in Hall. exact (Hall (k, g) Hin). }
    assert (Hpos : 1 <= Z.of_nat (List.length g))
      by (destruct g; [congruence|simpl; lia]).
    split; [exact Hpos|]. split.
    + rewrite nunique_groups. split; [lia|]. apply inj_le.
      apply groupby_length_le.
    + rewrite truediv_nonzero by lia. reflexivity.
  - intros (r & Hr & Hd) e He. apply in_map_iff in He.
    destruct He as ([k g] & <- & Hin). cbn [store_row st_revenue_per_day].
    apply truediv_finite. intros E.
    exact (Hd (proj1 (nunique_dates_zero (rows f)) E r Hr)).
  - intros Hno e He. apply in_map_iff in He.
    destruct He as ([k g] & <- & Hin).
    cbn [store_row st_revenue_per_day st_total_revenue].
    assert (E : days = 0).
    { apply nunique_dates_zero. intros r Hr.
      destruct (date r) as [s|d|] eqn:Ed; [| |reflexivity];
        exfalso; apply Hno; exists r; split; try exact Hr;
        rewrite Ed; discriminate. }
    rewrite E. apply truediv_zero.
Qed.

Lemma scenario_stores :
  exists st, store_performance_of scenario_table = Ok st.
Proof. eexists. vm_compute. reflexivity. Qed.

Lemma scenario_has_a_date : has_a_date scenario_table.
Proof. eexists. split; [left; reflexivity|]. vm_compute. discriminate. Qed.

Lemma store_performance_metrics_witness :
  exists st,
    store_performance_of scenario_table = Ok st /\
    forall e, In e (store_performance st) ->
      isfinite (st_revenue_per_day e) = true.
Proof.
  destruct scenario_stores as [st Hst]. exists st. split; [exact Hst|].
  exact (proj1 (proj2 (store_performance_metrics scenario_table st Hst))
           scenario_has_a_date).
Defined.

(** X16: on a table whose sums are within int64, [store_popular_items]
    has one entry for every distinct value of the [store] column, a
    missing store (NaN) included.  An entry lists at most five menu items,
    largest quantity first, each with the sum of [qty] over the rows of
    that store and item; the entry of the missing store lists nothing,
    since NaN equals no store. *)
Theorem store_popular_items_spec (f : DataFrame) (st : StoreAnalysis) :
  store_performance_of f = Ok st ->
  within_int64 f ->
  NoDup (map fst (store_popular_items st)) /\
  (forall s, In s (map fst (store_popular_items st))
             <-> In s (map store (rows f))) /\
  (forall s items, In (s, items) (store_popular_items st) ->
     (List.length items <= 5)%nat /\
     StronglySorted (fun a b => snd b <= snd a) items /\
     (forall k v, In (k, v) items ->
        v = zsum (map qty
                    (filter (key_is String.compare menu_item k)
                            (filter (store_is s) (rows f))))) /\
     (s = None -> items = [])).
Proof.
  intros H [_ Hfit]. apply store_performance_inv in H. subst st.
  cbn [store_popular_items]. rewrite map_map. cbn [fst]. rewrite map_id.
  split; [|split].
  - apply unique_nodup. apply option_string_eqb_spec.
  - intros s. apply unique_in. apply option_string_eqb_spec.
  - intros s items Hin. apply in_map_iff in Hin.
    destruct Hin as (s' & E & _). inversion E; subst s' items. clear E.
    destruct (nlargest_spec 5 snd
                (group_sums menu_item qty (filter (store_is s) (rows f))))
      as (Hlen & Hsorted & rest & Hperm & _).
    split; [rewrite Hlen; apply Nat.le_min_l|]. split; [exact Hsorted|].
    split.
    + intros k v Hkv.
      destruct (group_sums_spec menu_item qty (filter (store_is s) (rows f))
                  (fits_filter qty (store_is s) (rows f) Hfit))
        as (_ & Hg & _).
      apply Hg. apply (Permutation_in _ (Permutation_sym Hperm)).
      apply in_or_app. now left.
    + intros ->.
      assert (E : filter (store_is None) (rows f) = []).
      { clear. generalize (rows f). intros l.
        induction l as [|r l IH]; [reflexivity|]. simpl. exact IH. }
      rewrite E. reflexivity.
Qed.

Lemma store_popular_items_spec_witness :
  exists st,
    store_performance_of scenario_table = Ok st /\
    NoDup (map fst (store_popular_items st)) /\
    forall s, In s (map fst (store_popular_items st))
              <-> In s (map store (rows scenario_table)).
Proof.
  destruct scenario_stores as [st Hst]. exists st. split; [exact Hst|].
  destruct (store_popular_items_spec scenario_table st Hst
              scenario_table_within_int64) as (H1 & H2 & _).
  split; [exact H1|exact H2].
Defined.

(** ** Searching again *)

Lemma lower_ascii_idempotent (c : ascii) :
  lower_ascii (lower_ascii c) = lower_ascii c.
Proof.
  destruct c as [[] [] [] [] [] [] [] []]; vm_compute; reflexivity.
Qed.

Lemma lower_idempotent (s : string) : lower (lower s) = lower s.
Proof.
  induction s as [|c s IH]; simpl; [reflexivity|].
  now rewrite lower_ascii_idempotent, IH.
Qed.

Lemma filter_filter {A : Type} (p q : A -> bool) (l : list A) :
  (forall a, In a l -> q a = true -> p a = true) ->
  filter q (filter p l) = filter q l.
Proof.
  induction l as [|a l IH]; intros H; simpl; [reflexivity|].
  destruct (p a) eqn:Ep; simpl.
  - destruct (q a); rewrite IH; auto; intros; apply H; auto; now right.
  - destruct (q a) eqn:Eq.
    + rewrite (H a (or_introl eq_refl) Eq) in Ep. discriminate.
    + apply IH. intros; apply H; auto; now right.
Qed.

(** X17: whatever the query, a literal or a regular expression, a search
    that returns gives a table with the columns of the one searched and a
    selection of its rows in their order.  Searching that result again
    for the same query returns it unchanged, and the case of the query's
    letters makes no difference. *)
Theorem search_frame_selects (re_search : string -> option (string -> bool))
    (f found : DataFrame) (query : string) :
  search_frame re_search query f = Ok found ->
  columns found = columns f /\
  (exists keep, rows found = filter keep (rows f)) /\
  (List.length (rows found) <= List.length (rows f))%nat /\
  search_frame re_search query found = Ok found /\
  search_frame re_search (lower query) f = Ok found.
Proof.
  intros H.
  destruct (search_frame_found _ _ _ _ H)
    as (Hcols & Htyped & matches & Hq & ->).
  cbn [columns rows]. split; [reflexivity|]. split; [eauto|].
  split; [apply filter_length_le|]. split.
  - rewrite (search_frame_compiled re_search _ query matches);
      [|exact Hcols|exact Htyped|exact Hq].
    cbn [columns rows object_columns]. rewrite filter_filter; auto.
  - rewrite (search_frame_compiled re_search f (lower query) matches);
      [reflexivity|exact Hcols|exact Htyped|now rewrite lower_idempotent].
Qed.

Lemma scenario_search :
  exists found, search_frame re_fragment "NASI" scenario_table = Ok found.
Proof. eexists. vm_compute. reflexivity. Qed.

Lemma search_frame_selects_witness :
  exists found,
    search_frame re_fragment "NASI" scenario_table = Ok found /\
    search_frame re_fragment "NASI" found = Ok found /\
    search_frame re_fragment "nasi" scenario_table = Ok found.
Proof.
  destruct scenario_search as [found H]. exists found. split; [exact H|].
  destruct (search_frame_selects re_fragment scenario_table found "NASI" H)
    as (_ & _ & _ & H4 & H5).
  split; [exact H4|exact H5].
Defined.

Lemma append_assoc (a b c : string) :
  String.append (String.append a b) c = String.append a (String.append b c).
Proof. induction a as [|x a IH]; simpl; [reflexivity|now rewrite IH]. Qed.

Lemma occurs_in_trans (a b c : string) :
  occurs_in a b -> occurs_in b c -> occurs_in a c.
Proof.
  intros (u & v & ->) (x & y & ->).
  exists (String.append x u), (String.append v y).
  now rewrite !append_assoc.
Qed.

(** X18: on ASCII text, lengthening a literal query narrows the search.
    When the first query occurs in the second (case apart), every row
    found for the second is found for the first, and searching for the
    second among the rows found for the first gives what searching the
    whole table for it gives. *)
Theorem search_frame_narrows (re_search : string -> option (string -> bool))
    (f found1 found2 : DataFrame) (q1 q2 : string) :
  ascii_text f ->
  is_ascii q1 = true ->
  is_ascii q2 = true ->
  is_literal q1 = true ->
  is_literal q2 = true ->
  occurs_in (lower q1) (lower q2) ->
  search_frame re_search q1 f = Ok found1 ->
  search_frame re_search q2 f = Ok found2 ->
  search_frame re_search q2 found1 = Ok found2 /\
  (forall r, In r (rows found2) -> In r (rows found1)).
Proof.
  intros _ _ _ L1 L2 Hocc H1 H2.
  destruct (search_frame_found _ _ _ _ H1) as (Hcols & Htyped & _).
  rewrite (search_frame_compiled re_search f q1 _ Hcols Htyped
             (compile_literal re_search q1 L1)) in H1.
  rewrite (search_frame_compiled re_search f q2 _ Hcols Htyped
             (compile_literal re_search q2 L2)) in H2.
  injection H1 as <-. injection H2 as <-.
  assert (Himp : forall r, row_matches (contains (lower q2)) r = true ->
                           row_matches (contains (lower q1)) r = true).
  { intros r Hr. apply row_matches_text in Hr. destruct Hr as (s & Hs & Hc).
    apply row_matches_text. exists s. split; [exact Hs|].
    apply contains_occurs. apply contains_occurs in Hc.
    exact (occurs_in_trans _ _ _ Hocc Hc). }
  split.
  - rewrite (search_frame_compiled re_search _ q2 (contains (lower q2)));
      [|exact Hcols|exact Htyped|exact (compile_literal re_search q2 L2)].
    cbn [columns rows object_columns]. rewrite filter_filter; auto.
  - cbn [rows]. intros r Hr. apply filter_In in Hr. apply filter_In.
    split; [tauto|]. apply Himp. tauto.
Qed.

Lemma scenario_table_ascii : ascii_text scenario_table.
Proof.
  intros r s Hr Ht. cbn [rows In] in Hr.
  destruct Hr as [<-|[<-|[<-|[]]]]; destruct Ht as [E|[E|E]];
    inversion E; reflexivity.
Qed.

Lemma search_frame_narrows_witness :
  exists found1 found2,
    search_frame re_fragment "nasi" scenario_table = Ok found1 /\
    search_frame re_fragment "Nasi Goreng" scenario_table = Ok found2 /\
    search_frame re_fragment "Nasi Goreng" found1 = Ok found2.
Proof.
  destruct (search_frame re_fragment "nasi" scenario_table)
    as [found1|] eqn:E1; [|vm_compute in E1; discriminate].
  destruct (search_frame re_fragment "Nasi Goreng" scenario_table)
    as [found2|] eqn:E2; [|vm_compute in E2; discriminate].
  exists found1, found2. split; [reflexivity|]. split; [reflexivity|].
  refine (proj1 (search_frame_narrows re_fragment scenario_table found1 found2
                   "nasi" "Nasi Goreng" scenario_table_ascii eq_refl eq_refl
                   eq_refl eq_refl _ E1 E2)).
  exists "", " goreng". reflexivity.
Defined.

(** ** The range of the correlation coefficients *)

Lemma products_quadratic (ps : list (R * R)) (s t : R) :
  (0 <= rsum (map (fun p => fst p * fst p) ps) * s * s
        - 2 * rsum (map (fun p => fst p * snd p) ps) * s * t
        + rsum (map (fun p => snd p * snd p) ps) * t * t)%R.
Proof.
  induction ps as [|[a b] ps IH]; cbn [map rsum fold_right fst snd].
  - lra.
  - unfold rsum in IH. pose proof (Rle_0_sqr (a * s - b * t)) as Hsq.
    unfold Rsqr in Hsq. nra.
Qed.

Lemma squares_nonneg (ps : list (R * R)) :
  (0 <= rsum (map (fun p => fst p * fst p) ps))%R.
Proof.
  induction ps as [|[a b] ps IH]; cbn [map rsum fold_right fst snd]; [lra|].
  unfold rsum in IH. nra.
Qed.

Lemma squares_zero (ps : list (R * R)) :
  (rsum (map (fun p => fst p * fst p) ps) = 0 ->
   rsum (map (fun p => fst p * snd p) ps) = 0)%R.
Proof.
  induction ps as [|[a b] ps IH]; cbn [map rsum fold_right fst snd]; [auto|].
  intros H. pose proof (squares_nonneg ps) as Hpos. unfold rsum in *.
  assert (Ha : (a * a = 0)%R) by nra.
  assert (Ha' : a = 0%R) by nra.
  rewrite IH by nra. subst a. ring.
Qed.

Lemma cauchy_schwarz (ps : list (R * R)) :
  (rsum (map (fun p => fst p * snd p) ps)
   * rsum (map (fun p => fst p * snd p) ps)
   <= rsum (map (fun p => fst p * fst p) ps)
      * rsum (map (fun p => snd p * snd p) ps))%R.
Proof.
  set (A := rsum (map (fun p => fst p * fst p)%R ps)).
  set (B := rsum (map (fun p => snd p * snd p)%R ps)).
  set (C := rsum (map (fun p => fst p * snd p)%R ps)).
  pose proof (squares_nonneg ps) as HA. fold A in HA.
  destruct (Req_dec A 0) as [E|Hne].
  - pose proof (squares_zero ps E) as HC. fold C in HC. rewrite HC, E. lra.
  - pose proof (products_quadratic ps C A) as H. fold A B C in H.
    assert (HApos : (0 < A)%R) by lra.
    assert (H' : (0 <= A * (A * B - C * C))%R) by nra.
    nra.
Qed.

Lemma codeviation_centered (ps : list (R * R)) :
  let mx := rmean (map fst ps) in
  let my := rmean (map snd ps) in
  let qs := map (fun p => (fst p - mx, snd p - my)%R) ps in
  codeviation ps = rsum (map (fun q => fst q * snd q)%R qs) /\
  codeviation (map diag_fst ps) = rsum (map (fun q => fst q * fst q)%R qs) /\
  codeviation (map diag_snd ps) = rsum (map (fun q => snd q * snd q)%R qs).
Proof.
  cbv zeta. unfold codeviation. rewrite !map_map. cbn [fst snd diag_fst diag_snd].
  repeat split.
Qed.

Lemma pearson_range (ps : list (R * R)) :
  pearson ps = RNaN \/
  exists r, pearson ps = RFin r /\ (-1 <= r <= 1)%R.
Proof.
  destruct ps as [|p ps]; [now left|].
  unfold pearson.
  destruct (codeviation_centered (p :: ps)) as (EC & EA & EB).
  cbv zeta in EC, EA, EB.
  set (qs := map (fun p0 => (fst p0 - rmean (map fst (p :: ps)),
                             snd p0 - rmean (map snd (p :: ps)))%R)
                 (p :: ps)) in *.
  pose proof (cauchy_schwarz qs) as Hcs.
  rewrite <- EC, <- EA, <- EB in Hcs.
  set (C := codeviation (p :: ps)) in *.
  set (V := (codeviation (map diag_fst (p :: ps))
             * codeviation (map diag_snd (p :: ps)))%R) in *.
  destruct (Req_dec_T (sqrt V) 0) as [Hz|Hnz]; [now left|]. right.
  eexists. split; [reflexivity|].
  assert (HV : (0 <= V)%R) by nra.
  pose proof (sqrt_pos V) as Hd.
  pose proof (sqrt_sqrt V HV) as Hdd.
  set (d := sqrt V) in *.
  assert (Hdpos : (0 < d)%R) by lra.
  assert (Hbound : (- d <= C <= d)%R) by nra.
  assert (E : (C / d * d = C)%R) by (field; lra).
  split; nra.
Qed.

Lemma R_round_half_even_between (x : R) (lo hi : Z) :
  (IZR lo <= x <= IZR hi)%R -> lo <= R_round_half_even x <= hi.
Proof.
  intros [Hlo Hhi]. unfold R_round_half_even.
  pose proof (Zfloor_bound x) as [Hf1 Hf2].
  assert (Hflo : lo <= Zfloor x).
  { apply Z.lt_succ_r. apply lt_IZR. rewrite succ_IZR. lra. }
  assert (Hfhi : Zfloor x <= hi) by (apply le_IZR; lra).
  assert (Hup : (1 / 2 <= x - IZR (Zfloor x))%R -> Zfloor x + 1 <= hi).
  { intros H. apply Z.lt_succ_r. unfold Z.succ. apply Z.add_lt_mono_r.
    apply lt_IZR. lra. }
  destruct (Rlt_dec (x - IZR (Zfloor x)) (1 / 2)) as [H1|H1]; [lia|].
  assert (H1' : (1 / 2 <= x - IZR (Zfloor x))%R) by lra.
  specialize (Hup H1').
  destruct (Rlt_dec (1 / 2) (x - IZR (Zfloor x))); [lia|].
  destruct (Z.even (Zfloor x)); lia.
Qed.

Lemma rround_range (x : rval) :
  (x = RNaN \/ exists r, x = RFin r /\ (-1 <= r <= 1)%R) ->
  rround 3 x = RNaN \/
  exists r, rround 3 x = RFin r /\ (-1 <= r <= 1)%R.
Proof.
  intros [->|(r & -> & Hr)]; [now left|]. right.
  unfold rround. change (10 ^ Z.of_nat 3) with 1000.
  eexists. split; [reflexivity|].
  pose proof (R_round_half_even_between (r * IZR 1000) (-1000) 1000) as H.
  destruct H as [H1 H2]; [lra|].
  apply IZR_le in H1, H2. lra.
Qed.

(** X19: every entry of the correlation matrix is NaN or lies between -1
    and 1, rounding included; a table of fewer than two rows gives NaN
    everywhere, the diagonal included. *)
Theorem correlation_entries_bounded (parse_date : string -> option Timestamp)
    (f : DataFrame) (ca : CorrelationAnalysis) :
  normalized parse_date f ->
  correlation_of f = Ok ca ->
  forall a b, In a numerical_labels -> In b numerical_labels ->
    (loc (correlation_matrix ca) a b = RNaN \/
     exists r, loc (correlation_matrix ca) a b = RFin r /\ (-1 <= r <= 1)%R)
    /\
    ((List.length (rows f) <= 1)%nat ->
     loc (correlation_matrix ca) a b = RNaN).
Proof.
  intros H Hca a b Ha Hb.
  destruct (correlation_of_normalized parse_date f H) as (ca' & Hca' & Hloc).
  rewrite Hca in Hca'. injection Hca' as <-.
  rewrite (Hloc a b Ha Hb). split.
  - apply rround_range. apply pearson_range.
  - intros Hlen.
    assert (Hcol : forall c, In c numerical_labels ->
                     (List.length (numerical_column f c) <= 1)%nat).
    { intros c Hc. unfold numerical_labels in Hc. cbn [In] in Hc.
      destruct Hc as [<-|[<-|[<-|[]]]];
        unfold numerical_column, numerical_columns, assoc;
        cbn [find String.eqb Ascii.eqb Bool.eqb fst snd];
        now rewrite !length_map. }
    pose proof (Hcol a Ha) as Hla. pose proof (Hcol b Hb) as Hlb.
    destruct (numerical_column f a) as [|x [|x' xs]];
      [reflexivity| |simpl in Hla; lia].
    destruct (numerical_column f b) as [|y [|y' ys]];
      [destruct x; reflexivity| |simpl in Hlb; lia].
    destruct x as [x|], y as [y|]; try reflexivity.
    cbn [complete_pairs]. unfold pearson.
    assert (E : codeviation (map diag_fst [(x, y)]) = 0%R).
    { unfold codeviation, rmean.
      cbn [map fst snd diag_fst rsum fold_right List.length INR]. field. }
    rewrite E, Rmult_0_l, sqrt_0.
    destruct (Req_dec_T 0 0) as [_|Hne]; [reflexivity|now elim Hne].
Qed.

Lemma scenario_correlation :
  exists ca, correlation_of scenario_table = Ok ca.
Proof.
  destruct (correlation_of_normalized parse_iso scenario_table
              scenario_table_normalized) as (ca & Hca & _).
  now exists ca.
Qed.

Lemma correlation_entries_bounded_witness :
  exists ca,
    correlation_of scenario_table = Ok ca /\
    (loc (correlation_matrix ca) "qty" "revenue" = RNaN \/
     exists r, loc (correlation_matrix ca) "qty" "revenue" = RFin r /\
               (-1 <= r <= 1)%R).
Proof.
  destruct scenario_correlation as [ca Hca]. exists ca. split; [exact Hca|].
  refine (proj1 (correlation_entries_bounded parse_iso scenario_table ca
                   scenario_table_normalized Hca "qty" "revenue" _ _));
    simpl; auto.
Defined.

(** ** The context for the language model *)

Lemma first_missing_none (i : nat) (l : list (option string)) :
  first_missing i l = None <-> ~ In None l.
Proof.
  revert i. induction l as [|[s|] l IH]; intros i; simpl.
  - tauto.
  - rewrite IH. split; [intros H [E|E]; [discriminate|tauto]|tauto].
  - split; [discriminate|]. intros H. elim H. now left.
Qed.

Lemma join_returns (sep : string) (l : list (option string)) :
  (exists text, join sep l = inr text) <-> ~ In None l.
Proof.
  unfold join. rewrite <- (first_missing_none 0).
  destruct (first_missing 0 l) as [i|]; split.
  - intros [text H]. discriminate.
  - discriminate.
  - reflexivity.
  - eauto.
Qed.

Lemma join_raises (sep : string) (l : list (option string)) :
  In None l -> exists i, join sep l = inl (TypeError i).
Proof.
  intros H. unfold join.
  destruct (first_missing 0 l) as [i|] eqn:E; [eauto|].
  apply first_missing_none in E. contradiction.
Qed.

Lemma normalize_labels (parse_date : string -> option Timestamp)
    (raw : DataFrame) :
  map store (rows (normalize parse_date raw)) = map store (rows raw) /\
  map customer_segment (rows (normalize parse_date raw))
  = map customer_segment (rows raw).
Proof. unfold normalize. cbn [rows]. rewrite !map_map. split; reflexivity. Qed.

Lemma in_none_dec (l : list (option string)) : {In None l} + {~ In None l}.
Proof.
  induction l as [|[s|] l [IH|IH]]; simpl.
  - right. tauto.
  - left. now right.
  - right. intros [E|E]; [discriminate|contradiction].
  - left. now left.
  - left. now left.
Qed.

(** X20: what [get_data_context_for_llm] answers after a first
    [load_dataset], whether that succeeded or raised.  It returns a text
    exactly when the table was loadable and every row names its store and
    its customer segment; a loadable table with a row that lacks one of
    the two makes [', '.join] raise [TypeError]; and after a load that
    raised, the table is there but the summary is not, so that the answer
    is [KeyError('total_records')], not the text for no data. *)
Theorem context_after_load (parse_date : string -> option Timestamp)
    (raw : DataFrame) :
  let self' := snd (load_dataset parse_date (Ok raw) init) in
  (loadable parse_date raw -> labelled raw ->
   exists text, fst (get_data_context_for_llm self') = inr text) /\
  (loadable parse_date raw -> ~ labelled raw ->
   exists item, fst (get_data_context_for_llm self') = inl (TypeError item)) /\
  (~ loadable parse_date raw ->
   fst (get_data_context_for_llm self')
   = inl (Exn (KeyError "total_records"))) /\
  fst (get_data_context_for_llm init) = inr "No data loaded".
Proof.
  cbv zeta. split; [|split; [|split]]; [| | |reflexivity].
  - intros Hl Hlab.
    destruct (load_dataset_succeeds parse_date raw init Hl) as (s & Hs & ->).
    destruct (summarize_fields _ _ Hs)
      as (_ & _ & _ & _ & _ & _ & Hst & Hseg & _).
    destruct (normalize_labels parse_date raw) as [E1 E2].
    rewrite E1 in Hst. rewrite E2 in Hseg.
    unfold get_data_context_for_llm. cbn [snd fst df data_summary].
    destruct (proj2 (join_returns ", " (stores s))) as [names1 ->].
    { rewrite Hst, (unique_in _ option_string_eqb_spec).
      intros Hin. apply in_map_iff in Hin. destruct Hin as (r & E & Hr).
      exact (proj1 (Hlab r Hr) E). }
    destruct (proj2 (join_returns ", " (customer_segments s)))
      as [names2 ->].
    { rewrite Hseg, (unique_in _ option_string_eqb_spec).
      intros Hin. apply in_map_iff in Hin. destruct Hin as (r & E & Hr).
      exact (proj2 (Hlab r Hr) E). }
    eauto.
  - intros Hl Hlab.
    destruct (load_dataset_succeeds parse_date raw init Hl) as (s & Hs & ->).
    destruct (summarize_fields _ _ Hs)
      as (_ & _ & _ & _ & _ & _ & Hst & Hseg & _).
    destruct (normalize_labels parse_date raw) as [E1 E2].
    rewrite E1 in Hst. rewrite E2 in Hseg.
    unfold get_data_context_for_llm. cbn [snd fst df data_summary].
    destruct (in_none_dec (stores s)) as [H1|H1].
    { destruct (join_raises ", " _ H1) as [i ->]. eauto. }
    destruct (proj2 (join_returns ", " (stores s)) H1) as [names1 ->].
    destruct (in_none_dec (customer_segments s)) as [H2|H2].
    { destruct (join_raises ", " _ H2) as [i ->]. eauto. }
    exfalso. apply Hlab. intros r Hr. split; intros E.
    + apply H1. rewrite Hst. apply (unique_in _ option_string_eqb_spec).
      rewrite <- E. now apply in_map.
    + apply H2. rewrite Hseg. apply (unique_in _ option_string_eqb_spec).
      rewrite <- E. now apply in_map.
  - intros Hnot.
    destruct (load_dataset_fails parse_date raw init Hnot) as (e & f' & ->).
    reflexivity.
Qed.

Lemma scenario_labelled : labelled (raw_frame scenario_rows).
Proof.
  intros r Hr. cbn [raw_frame rows scenario_rows In] in Hr.
  destruct Hr as [<-|[<-|[<-|[]]]]; split; discriminate.
Qed.

Lemma context_after_load_witness :
  exists text,
    fst (get_data_context_for_llm
           (snd (load_dataset parse_iso (Ok (raw_frame scenario_rows)) init)))
    = inr text.
Proof.
  exact (proj1 (context_after_load parse_iso (raw_frame scenario_rows))
           scenario_loadable scenario_labelled).
Defined.

(** X21: a processor that holds a table answers a reload that raises
    with the context it gave before: [load_dataset] has put the new
    table in [self.df], but the text, or the exception, still comes from
    the summary of the old one. *)
Theorem context_after_failed_reload (parse_date : string -> option Timestamp)
    (raw : DataFrame) (self : DataProcessor) :
  df self <> None ->
  ~ loadable parse_date raw ->
  let self' := snd (load_dataset parse_date (Ok raw) self) in
  fst (get_data_context_for_llm self') = fst (get_data_context_for_llm self)
  /\ data_summary self' = data_summary self
  /\ df self' <> None.
Proof.
  intros Hdf Hnot. cbv zeta.
  destruct (load_dataset_fails parse_date raw self Hnot) as (e & f' & ->).
  cbn [snd]. unfold get_data_context_for_llm. cbn [fst df data_summary].
  destruct (df self) as [f|]; [|congruence].
  repeat split. discriminate.
Qed.

Lemma no_qty_not_loadable : ~ loadable parse_iso no_qty_frame.
Proof.
  intros (Hcols & _). specialize (Hcols "qty").
  assert (H : has_column no_qty_frame "qty" = false) by reflexivity.
  rewrite Hcols in H; [discriminate|]. simpl. auto 10.
Qed.

Lemma context_after_failed_reload_witness :
  fst (get_data_context_for_llm
         (snd (load_dataset parse_iso (Ok no_qty_frame)
                 (loaded scenario_rows))))
  = fst (get_data_context_for_llm (loaded scenario_rows)).
Proof.
  refine (proj1 (context_after_failed_reload parse_iso no_qty_frame
                   (loaded scenario_rows) _ no_qty_not_loadable)).
  vm_compute. discriminate.
Defined.

(** ** Quantiles, categories and outliers *)

Lemma convex_between (x y lo hi t : Q) :
  (lo <= x <= hi -> lo <= y <= hi -> 0 <= t <= 1 ->
   lo <= x * (1 - t) + y * t <= hi)%Q.
Proof.
  intros [Hx1 Hx2] [Hy1 Hy2] [Ht1 Ht2].
  assert (H1 : (0 <= (x - lo) * (1 - t))%Q)
    by (apply Qmult_le_0_compat; lra).
  assert (H2 : (0 <= (y - lo) * t)%Q) by (apply Qmult_le_0_compat; lra).
  assert (H3 : (0 <= (hi - x) * (1 - t))%Q)
    by (apply Qmult_le_0_compat; lra).
  assert (H4 : (0 <= (hi - y) * t)%Q) by (apply Qmult_le_0_compat; lra).
  split; lra.
Qed.

Lemma lerp_between (x y lo hi : Z) (t : Q) :
  lo <= x <= hi -> lo <= y <= hi -> (0 <= t <= 1)%Q ->
  exists q, lerp (of_int x) (of_int y) t = Fin q /\
            (inject_Z lo <= q <= inject_Z hi)%Q.
Proof.
  intros Hx Hy Ht.
  assert (Hx' : (inject_Z lo <= inject_Z x <= inject_Z hi)%Q)
    by (rewrite <- !Zle_Qle; exact Hx).
  assert (Hy' : (inject_Z lo <= inject_Z y <= inject_Z hi)%Q)
    by (rewrite <- !Zle_Qle; exact Hy).
  pose proof (convex_between _ _ _ _ t Hx' Hy' Ht) as Hc.
  unfold lerp, fsub, fadd, fneg, fmul, fin, of_int.
  destruct (Qle_bool (1 # 2) t); eexists; (split; [reflexivity|]);
    rewrite !Qred_correct.
  - setoid_replace (inject_Z y +
                    - ((inject_Z y + - inject_Z x) * (1 - t)))%Q
      with (inject_Z x * (1 - t) + inject_Z y * t)%Q by ring.
    exact Hc.
  - setoid_replace (inject_Z x + (inject_Z y + - inject_Z x) * t)%Q
      with (inject_Z x * (1 - t) + inject_Z y * t)%Q by ring.
    exact Hc.
Qed.

Lemma nth_of_int (i : nat) (zs : list Z) (d : fval) :
  (i < List.length zs)%nat -> nth i (map of_int zs) d = of_int (nth i zs 0).
Proof.
  intros H. rewrite (nth_indep _ d (of_int 0)) by now rewrite length_map.
  apply map_nth.
Qed.

Lemma zquantile_between (p : Q) (l : list Z) (lo hi : Z) :
  l <> [] -> (0 <= p <= 1)%Q ->
  (forall x, In x l -> lo <= x <= hi) ->
  exists q, zquantile p l = Fin q /\ (inject_Z lo <= q <= inject_Z hi)%Q.
Proof.
  intros Hne Hp Hall. unfold zquantile, fquantile.
  rewrite notna_of_int, stable_sort_of_int.
  set (zs := stable_sort Z.leb l).
  assert (Hperm : Permutation zs l) by apply stable_sort_perm.
  assert (Hzs : forall x, In x zs -> lo <= x <= hi)
    by (intros x Hx; apply Hall; exact (Permutation_in _ Hperm Hx)).
  assert (Hlen : (0 < List.length zs)%nat).
  { destruct zs; [|simpl; lia]. apply Permutation_nil in Hperm.
    contradiction. }
  destruct (map of_int zs) as [|s0 s'] eqn:Es.
  { apply map_eq_nil in Es. rewrite Es in Hlen. simpl in Hlen. lia. }
  rewrite <- Es. clear Es s0 s'. rewrite length_map.
  set (n := Z.of_nat (List.length zs)).
  set (pos := (inject_Z (n - 1) * p)%Q).
  assert (Hn : (0 <= inject_Z (n - 1))%Q)
    by (change 0%Q with (inject_Z 0); rewrite <- Zle_Qle; lia).
  assert (Hpos : (0 <= pos <= inject_Z (n - 1))%Q).
  { assert (H1 : (0 <= inject_Z (n - 1) * (1 - p))%Q)
      by (apply Qmult_le_0_compat; [exact Hn|lra]).
    unfold pos. split; [apply Qmult_le_0_compat; tauto|lra]. }
  set (i := Qfloor pos).
  assert (Hi : 0 <= i <= n - 1).
  { split.
    - change 0 with (Qfloor (inject_Z 0)). apply Qfloor_resp_le. tauto.
    - rewrite <- (Qfloor_Z (n - 1)). apply Qfloor_resp_le. tauto. }
  assert (Ht : (0 <= pos - inject_Z i <= 1)%Q).
  { pose proof (Qfloor_le pos) as H1. pose proof (Qlt_floor pos) as H2.
    fold i in H1, H2. rewrite inject_Z_plus in H2.
    change (inject_Z 1) with 1%Q in H2. split; lra. }
  assert (Hi' : (Z.to_nat i < List.length zs)%nat) by lia.
  rewrite (nth_of_int _ _ _ Hi').
  set (x := nth (Z.to_nat i) zs 0).
  assert (Hx : lo <= x <= hi) by (apply Hzs; apply nth_In; exact Hi').
  assert (Hb : exists y, nth (Z.to_nat (i + 1)) (map of_int zs) (of_int x)
                         = of_int y /\ lo <= y <= hi).
  { destruct (Nat.lt_ge_cases (Z.to_nat (i + 1)) (List.length zs)) as [H|H].
    - rewrite (nth_of_int _ _ _ H). eexists. split; [reflexivity|].
      apply Hzs. now apply nth_In.
    - rewrite nth_overflow by now rewrite length_map. eauto. }
  destruct Hb as (y & -> & Hy).
  exact (lerp_between x y lo hi _ Hx Hy Ht).
Qed.

Lemma list_bounds (l : list Z) :
  exists lo hi, forall x, In x l -> lo <= x <= hi.
Proof.
  induction l as [|a l (lo & hi & IH)].
  - exists 0, 0. intros x [].
  - exists (Z.min a lo), (Z.max a hi). intros x [<-|Hx]; [lia|].
    specialize (IH x Hx). lia.
Qed.

Lemma zquantile_bounds (p : Q) (l : list Z) :
  l <> [] -> (0 <= p <= 1)%Q ->
  exists q,
    zquantile p l = Fin q /\
    (forall lo, (forall x, In x l -> lo <= x) -> (inject_Z lo <= q)%Q) /\
    (forall hi, (forall x, In x l -> x <= hi) -> (q <= inject_Z hi)%Q).
Proof.
  intros Hne Hp. destruct (list_bounds l) as (lo0 & hi0 & H0).
  destruct (zquantile_between p l lo0 hi0 Hne Hp H0) as (q & Eq & _).
  exists q. split; [exact Eq|]. split.
  - intros lo Hlo.
    destruct (zquantile_between p l lo hi0 Hne Hp) as (q' & Eq' & Hq').
    { intros x Hx. split; [now apply Hlo|now apply H0]. }
    rewrite Eq in Eq'. injection Eq' as <-. tauto.
  - intros hi Hhi.
    destruct (zquantile_between p l lo0 hi Hne Hp) as (q' & Eq' & Hq').
    { intros x Hx. split; [now apply H0|now apply Hhi]. }
    rewrite Eq in Eq'. injection Eq' as <-. tauto.
Qed.

Lemma menu_categories_inv (f : DataFrame) (ma : MenuAnalysis) :
  menu_performance_of f = Ok ma ->
  exists max_frequency,
    menu_performance ma
    = map (fun kg =>
             menu_row max_frequency
               (kg, categorize_performance
                      (map (fun kg => isum (map revenue (snd kg)))
                           (menu_groups (rows f)))
                      (of_int (isum (map revenue (snd kg))))))
          (menu_groups (rows f)).
Proof.
  rewrite menu_performance_of_eq. unfold bind. intros H.
  destruct (getitem f "menu_item" menu_item); [|discriminate].
  destruct (getitem f "revenue" revenue); [|discriminate].
  destruct (getitem f "qty" qty); [|discriminate].
  destruct (getitem f "avg_price" avg_price); [|discriminate].
  cbv zeta in H. destruct (numeric_totals (rows f)); [|discriminate].
  inversion H. cbn [menu_performance]. unfold apply_axis1.
  rewrite combine_map_r, map_map. eexists. reflexivity.
Qed.

Lemma flt_above (z : Z) (q : Q) :
  (q <= inject_Z z)%Q -> flt (of_int z) (Fin q) = false.
Proof.
  intros H. unfold flt, of_int. apply negb_false_iff.
  now apply Qle_bool_iff.
Qed.

Lemma fgt_below (z : Z) (q : Q) :
  (inject_Z z <= q)%Q -> fgt (of_int z) (Fin q) = false.
Proof.
  intros H. unfold fgt, flt, of_int. apply negb_false_iff.
  now apply Qle_bool_iff.
Qed.

(** X22: [performance_category] is one of the three labels.  An item
    that no other item beats in total revenue is never a Low Performer,
    and one that beats no other item is never a High Performer: the two
    quantiles lie between the smallest and the largest total. *)
Theorem menu_performance_categories (f : DataFrame) (ma : MenuAnalysis) :
  menu_performance_of f = Ok ma ->
  forall m, In m (menu_performance ma) ->
    In (mp_performance_category m)
       ["High Performer"; "Low Performer"; "Average"] /\
    ((forall m', In m' (menu_performance ma) ->
        mp_total_revenue m' <= mp_total_revenue m) ->
     mp_performance_category m <> "Low Performer") /\
    ((forall m', In m' (menu_performance ma) ->
        mp_total_revenue m <= mp_total_revenue m') ->
     mp_performance_category m <> "High Performer").
Proof.
  intros H m Hm. destruct (menu_categories_inv f ma H) as [maxf E].
  rewrite E in *. clear E H.
  set (gs := menu_groups (rows f)) in *.
  set (total := fun kg : string * list Row => isum (map revenue (snd kg)))
    in *.
  set (totals := map total gs) in *.
  apply in_map_iff in Hm. destruct Hm as (kg & <- & Hkg).
  cbn [menu_row mp_performance_category mp_total_revenue fst snd].
  fold (total kg). fold totals.
  assert (Hne : totals <> []).
  { unfold totals. destruct gs; [destruct Hkg|discriminate]. }
  assert (Hall : forall P : Z -> Prop,
            (forall m', In m' (map (fun kg0 =>
                           menu_row maxf (kg0, categorize_performance totals
                                                 (of_int (total kg0)))) gs) ->
                        P (mp_total_revenue m')) ->
            forall x, In x totals -> P x).
  { intros P HP x Hx. unfold totals in Hx. apply in_map_iff in Hx.
    destruct Hx as (kg' & <- & Hkg').
    apply (HP (menu_row maxf (kg', categorize_performance totals
                                     (of_int (total kg'))))).
    apply in_map_iff. now exists kg'. }
  destruct (zquantile_bounds (4 # 5) totals Hne) as (q8 & E8 & Hlo8 & _);
    [split; discriminate|].
  destruct (zquantile_bounds (1 # 5) totals Hne) as (q2 & E2 & _ & Hhi2);
    [split; discriminate|].
  assert (Hcat :
            In (categorize_performance totals (of_int (total kg)))
               ["High Performer"; "Low Performer"; "Average"] /\
            ((forall x, In x totals -> x <= total kg) ->
             categorize_performance totals (of_int (total kg))
             <> "Low Performer") /\
            ((forall x, In x totals -> total kg <= x) ->
             categorize_performance totals (of_int (total kg))
             <> "High Performer")).
  { unfold categorize_performance. rewrite E8, E2. split; [|split].
    - destruct (fgt _ _); [simpl; auto|].
      destruct (flt _ _); simpl; auto.
    - intros Hmax. rewrite (flt_above (total kg) q2) by now apply Hhi2.
      destruct (fgt _ _); discriminate.
    - intros Hmin. rewrite (fgt_below (total kg) q8) by now apply Hlo8.
      destruct (flt _ _); discriminate. }
  destruct Hcat as (H1 & H2 & H3). split; [exact H1|]. split.
  - intros Hmax. apply H2. exact (Hall (fun x => x <= total kg) Hmax).
  - intros Hmin. apply H3. exact (Hall (fun x => total kg <= x) Hmin).
Qed.

Lemma bounds_of_equal_revenue (revs : list Z) (v : Z) :
  revs <> [] -> (forall x, In x revs -> x = v) ->
  exists lb ub,
    lower_bound revs = Fin lb /\ upper_bound revs = Fin ub /\
    (lb == inject_Z v)%Q /\ (ub == inject_Z v)%Q.
Proof.
  intros Hne Hall.
  assert (Hb : forall x, In x revs -> v <= x <= v)
    by (intros x Hx; rewrite (Hall x Hx); lia).
  destruct (zquantile_between (1 # 4) revs v v Hne) as (q1 & E1 & H1);
    [split; discriminate|exact Hb|].
  destruct (zquantile_between (3 # 4) revs v v Hne) as (q3 & E3 & H3);
    [split; discriminate|exact Hb|].
  assert (Hq1 : (q1 == inject_Z v)%Q) by (apply Qle_antisym; tauto).
  assert (Hq3 : (q3 == inject_Z v)%Q) by (apply Qle_antisym; tauto).
  unfold lower_bound, upper_bound. rewrite E1, E3.
  unfold fsub, fadd, fneg, fmul, fin. do 2 eexists.
  split; [reflexivity|]. split; [reflexivity|].
  rewrite !Qred_correct, Hq1, Hq3. split; ring.
Qed.

Lemma menu_performance_categories_witness :
  exists ma,
    menu_performance_of scenario_table = Ok ma /\
    forall m, In m (menu_performance ma) ->
      In (mp_performance_category m)
         ["High Performer"; "Low Performer"; "Average"].
Proof.
  destruct scenario_menu as [ma Hma]. exists ma. split; [exact Hma|].
  intros m Hm.
  exact (proj1 (menu_performance_categories scenario_table ma Hma m Hm)).
Defined.

(** X23: [_clean_data] flags no row of a table whose revenues are all
    equal, a table of a single row in particular: both quartiles are
    that revenue and the two bounds coincide with it. *)
Theorem clean_frame_equal_revenue_no_outlier
    (parse_date : string -> option Timestamp) (raw f : DataFrame) :
  clean_frame parse_date raw = (Ok tt, f) ->
  (forall r r', In r (rows f) -> In r' (rows f) -> revenue r = revenue r') ->
  forall r, In r (rows f) -> is_outlier r = false.
Proof.
  intros H Heq r Hr. apply clean_frame_inv in H.
  destruct H as (_ & _ & _ & _ & ->).
  unfold normalize in *. cbn [rows] in *.
  set (revs := map revenue (rows raw)) in *.
  assert (Hv : forall x, In x revs -> x = revenue r).
  { intros x Hx. unfold revs in Hx. apply in_map_iff in Hx.
    destruct Hx as (r0 & <- & Hr0).
    apply (Heq (normalize_row parse_date revs r0) r); [|exact Hr].
    now apply in_map. }
  apply in_map_iff in Hr. destruct Hr as (r0 & <- & Hr0).
  cbn [normalize_row revenue is_outlier] in *.
  destruct (bounds_of_equal_revenue revs (revenue r0))
    as (lb & ub & -> & -> & Hlb & Hub).
  - unfold revs. destruct (rows raw); [destruct Hr0|discriminate].
  - exact Hv.
  - rewrite flt_above by (rewrite Hlb; apply Qle_refl).
    rewrite fgt_below by (rewrite Hub; apply Qle_refl).
    reflexivity.
Qed.

Lemma clean_frame_equal_revenue_no_outlier_witness :
  clean_frame parse_iso single_sale
  = (Ok tt, normalize parse_iso single_sale) /\
  forall r, In r (rows (normalize parse_iso single_sale)) ->
            is_outlier r = false.
Proof.
  assert (H : clean_frame parse_iso single_sale
              = (Ok tt, normalize parse_iso single_sale))
    by (vm_compute; reflexivity).
  split; [exact H|].
  apply (clean_frame_equal_revenue_no_outlier parse_iso single_sale _ H).
  intros r r' [<-|[]] [<-|[]]. reflexivity.
Defined.

(** ** Where cleaning stops *)

Lemma setitem_date (f : DataFrame) (stamps : list datecell) :
  has_column f "date" = true ->
  List.length stamps = List.length (rows f) ->
  columns (setitem f "date" set_date stamps) = columns f /\
  map date (rows (setitem f "date" set_date stamps)) = stamps.
Proof.
  intros Hd Hlen. unfold setitem. cbn [columns rows]. split.
  - unfold add_label. unfold has_column in Hd. now rewrite Hd.
  - rewrite map_map. cbn [set_date date].
    revert stamps Hlen. induction (rows f) as [|r l IH]; intros [|c cs] Hlen;
      simpl in *; try reflexivity; try discriminate.
    f_equal. apply IH. lia.
Qed.

(** X24: the order in which [_clean_data] fails, and what it has done to
    the table by then.  Without a [date] column it raises
    [KeyError('date')] and with a date text that does not parse the
    parser's error for the first such text, the table untouched in both
    cases; then, without [revenue], [KeyError('revenue')] on a table whose
    dates are converted and whose columns are the same; then, without
    [qty], [KeyError('qty')] on a table that has got [is_outlier] but
    not [avg_price]. *)
Theorem clean_frame_first_failure (parse_date : string -> option Timestamp)
    (raw : DataFrame) :
  (has_column raw "date" = false ->
   clean_frame parse_date raw = (Raise (KeyError "date"), raw)) /\
  (has_column raw "date" = true ->
   ~ Forall (parses parse_date) (map date (rows raw)) ->
   exists s,
     In (DText s) (map date (rows raw)) /\ parse_date s = None /\
     clean_frame parse_date raw = (Raise (DateParseError s), raw)) /\
  (has_column raw "date" = true ->
   Forall (parses parse_date) (map date (rows raw)) ->
   has_column raw "revenue" = false ->
   exists f',
     clean_frame parse_date raw = (Raise (KeyError "revenue"), f') /\
     columns f' = columns raw /\
     map date (rows f') = map (stamp parse_date) (map date (rows raw))) /\
  (has_column raw "date" = true ->
   Forall (parses parse_date) (map date (rows raw)) ->
   has_column raw "revenue" = true ->
   has_column raw "qty" = false ->
   exists f',
     clean_frame parse_date raw = (Raise (KeyError "qty"), f') /\
     has_column f' "is_outlier" = true /\
     has_column f' "avg_price" = has_column raw "avg_price").
Proof.
  split; [|split; [|split]].
  - intros Hd. unfold clean_frame. now rewrite get_absent by exact Hd.
  - intros Hd Hp. unfold clean_frame. rewrite get_present by exact Hd.
    destruct (to_datetime parse_date (map date (rows raw))) as [stamps|e]
      eqn:Et.
    + apply to_datetime_stamps in Et. tauto.
    + rewrite lift_raise.
      destruct (to_datetime_error _ _ _ Et) as (s & -> & Hin & Hs). eauto.
  - intros Hd Hp Hr. unfold clean_frame. rewrite get_present by exact Hd.
    rewrite (to_datetime_parses _ _ Hp), lift_ok, set_then.
    rewrite get_absent by (rewrite has_column_setitem, Hr; reflexivity).
    eexists. split; [reflexivity|].
    apply setitem_date; [exact Hd|now rewrite !length_map].
  - intros Hd Hp Hr Hq. unfold clean_frame. rewrite get_present by exact Hd.
    rewrite (to_datetime_parses _ _ Hp), lift_ok, set_then.
    rewrite get_present by (rewrite has_column_setitem, Hr; reflexivity).
    rewrite set_then.
    rewrite get_present by (rewrite !has_column_setitem, Hr; reflexivity).
    rewrite get_absent by (rewrite !has_column_setitem, Hq; reflexivity).
    eexists. split; [reflexivity|].
    rewrite !has_column_setitem. split.
    + apply orb_true_r.
    + cbn. now rewrite !orb_false_r.
Qed.

Lemma clean_frame_first_failure_witness :
  has_column no_qty_frame "qty" = false /\
  exists f',
    clean_frame parse_iso no_qty_frame = (Raise (KeyError "qty"), f') /\
    has_column f' "is_outlier" = true /\
    has_column f' "avg_price" = has_column no_qty_frame "avg_price".
Proof.
  split; [reflexivity|].
  apply (proj2 (proj2 (proj2 (clean_frame_first_failure parse_iso
                                no_qty_frame)))); try reflexivity.
  repeat constructor; vm_compute; discriminate.
Defined.

(** ** The session of the app *)

Lemma upload_is_load (parse_date : string -> option Timestamp)
    (raw : DataFrame) (st : Session) :
  data_processor (upload_handler parse_date (Ok raw) st)
  = snd (load_dataset parse_date (Ok raw) (data_processor st)) /\
  data_loaded (upload_handler parse_date (Ok raw) st)
  = match fst (load_dataset parse_date (Ok raw) (data_processor st)) with
    | Ok _ => true
    | Raise _ => data_loaded st
    end.
Proof.
  unfold upload_handler, load_dataset, mbind.
  destruct (_clean_data parse_date _) as [[[]|e] dp1]; cbn [fst snd].
  - destruct (_generate_summary dp1) as [[[]|e] dp2]; split; reflexivity.
  - split; reflexivity.
Qed.

Lemma load_dataset_cases (parse_date : string -> option Timestamp)
    (raw : DataFrame) (dp : DataProcessor) :
  (exists f s, load_dataset parse_date (Ok raw) dp
               = (Ok (Some f), {| df := Some f; data_summary := Dict s |})) \/
  (exists e f, load_dataset parse_date (Ok raw) dp
               = (Raise e, {| df := Some f; data_summary := data_summary dp |})).
Proof.
  destruct (clean_frame parse_date raw) as [[[]|e] f] eqn:E.
  - destruct (summarize f) as [s|e] eqn:Es.
    + left. exists f, s.
      unfold load_dataset, mbind, _clean_data, _generate_summary.
      cbn [df data_summary]. rewrite E. cbn [df data_summary].
      now rewrite Es.
    + right. exists e, f. now apply load_dataset_summary_raises.
  - right. exists e, f. now apply load_dataset_clean_raises.
Qed.

Lemma handle_ready (parse_date : string -> option Timestamp) (st : Session)
    (e : event) :
  ready st -> ready (handle parse_date st e).
Proof.
  intros Hst. destruct e as [[raw|e]|[] [raw|e]]; cbn [handle];
    try exact Hst.
  - destruct (upload_is_load parse_date raw st) as [Edp El].
    unfold ready. rewrite Edp, El.
    destruct (load_dataset_cases parse_date raw (data_processor st))
      as [(f & s & ->)|(e & f & ->)]; cbn [fst snd df data_summary].
    + intros _. split; [discriminate|eauto].
    + intros H. split; [discriminate|exact (proj2 (Hst H))].
  - unfold sample_handler.
    destruct (load_dataset_cases parse_date raw (data_processor st))
      as [(f & s & ->)|(e & f & ->)]; unfold ready;
      cbn [data_processor data_loaded df data_summary].
    + intros _. split; [discriminate|eauto].
    + intros H. split; [discriminate|exact (proj2 (Hst H))].
Qed.

(** X25: the flag [data_loaded] of the app's session is set only with a
    table and a summary in the processor: after any sequence of uploads
    and clicks on the sample button, a session whose [data_loaded] is true
    has [df] set and a full [data_summary], so that the pages behind the
    flag find the keys they read, and [get_data_context_for_llm] answers
    with a text or the [TypeError] of [join], never with [KeyError].  The
    upload handler leaves the session as the sample button does for a
    file with the same content. *)
Theorem session_ready (parse_date : string -> option Timestamp)
    (events : list event) :
  ready (run parse_date events) /\
  (data_loaded (run parse_date events) = true ->
   (exists text,
      fst (get_data_context_for_llm (data_processor (run parse_date events)))
      = inr text) \/
   (exists item,
      fst (get_data_context_for_llm (data_processor (run parse_date events)))
      = inl (TypeError item))) /\
  (forall raw st,
     data_processor (upload_handler parse_date (Ok raw) st)
     = data_processor (sample_handler parse_date true (Ok raw) st) /\
     data_loaded (upload_handler parse_date (Ok raw) st)
     = data_loaded (sample_handler parse_date true (Ok raw) st)).
Proof.
  assert (Hready : ready (run parse_date events)).
  { unfold run.
    assert (H : ready new_session) by (intros H; discriminate).
    revert H. generalize new_session.
    induction events as [|e events IH]; intros st Hst; [exact Hst|].
    cbn [fold_left]. apply IH. now apply handle_ready. }
  split; [exact Hready|]. split.
  - intros H. destruct (Hready H) as (Hdf & s & Hs).
    unfold get_data_context_for_llm. cbn [fst]. rewrite Hs.
    destruct (df (data_processor (run parse_date events)));
      [|congruence].
    destruct (join ", " (stores s)) as [[e|item]|names1] eqn:E1.
    + unfold join in E1. destruct (first_missing 0 (stores s)); discriminate.
    + right. eauto.
    + destruct (join ", " (customer_segments s)) as [[e|item]|names2] eqn:E2.
      * unfold join in E2.
        destruct (first_missing 0 (customer_segments s)); discriminate.
      * right. eauto.
      * left. eauto.
  - intros raw st. destruct (upload_is_load parse_date raw st) as [E1 E2].
    rewrite E1, E2. unfold sample_handler.
    destruct (load_dataset parse_date (Ok raw) (data_processor st))
      as [r dp]. split; reflexivity.
Qed.

Lemma session_ready_witness :
  data_loaded (run parse_iso [Upload (Ok (raw_frame scenario_rows));
                              Upload (Ok no_qty_frame)]) = true /\
  exists s,
    data_summary
      (data_processor (run parse_iso [Upload (Ok (raw_frame scenario_rows));
                                      Upload (Ok no_qty_frame)]))
    = Dict s.
Proof.
  assert (H : data_loaded
                (run parse_iso [Upload (Ok (raw_frame scenario_rows));
                                Upload (Ok no_qty_frame)]) = true)
    by (vm_compute; reflexivity).
  split; [exact H|].
  exact (proj2 (proj1 (session_ready parse_iso
                         [Upload (Ok (raw_frame scenario_rows));
                          Upload (Ok no_qty_frame)]) H)).
Defined.
